(** * City IoT data simulator: a shallow embedding of [backend/data_simulator.py]

    The development models the simulation and dual-store synchronisation
    engine of the repository: the fluctuation rules of
    [DataSimulator.generate_fluctuation], the per-table and per-cycle drivers
    [simulate_data_changes] and [run_simulation_cycle], the retry logic of
    [CSVManager] and [DatabaseManager], and the sleep/wake scheduler
    [check_for_activity_signal]; beside them [execute_query], the writers of
    the activity signal ([record_activity], and [trigger_simulator_activity]
    of [simulator_api.py]), [signal_handler] and one iteration of the loop of
    [main].

    Python floats are IEEE-754 binary64 numbers; they are modelled bit for bit
    by [spec_float] with precision 53 and maximal exponent 1024.  The random
    module is modelled as an explicit entropy source, the wall clock, the file
    system, the database server and the broker as fields of a [World] that is
    threaded through a state-and-exception monad. *)

From Stdlib Require Import ZArith List String Ascii Bool Lia Arith DecimalString.
From Stdlib Require Import Floats.SpecFloat.
Import ListNotations.

Local Open Scope string_scope.
Local Open Scope Z_scope.

(** ** Binary64 arithmetic *)

Definition float : Type := spec_float.

Module F64.

Definition prec : Z := 53.
Definition emax : Z := 1024.

Definition mul : float -> float -> float := SFmul prec emax.
Definition add : float -> float -> float := SFadd prec emax.
Definition sub : float -> float -> float := SFsub prec emax.
Definition div : float -> float -> float := SFdiv prec emax.
Definition ltb : float -> float -> bool := SFltb.
Definition leb : float -> float -> bool := SFleb.
Definition eqb : float -> float -> bool := SFeqb.

(** [float(n)] for a Python integer [n]: the nearest binary64 number. *)
Definition of_Z (n : Z) : float := binary_normalize prec emax n 0 false.

Definition is_nan (x : float) : bool :=
  match x with S754_nan => true | _ => false end.

Definition is_infinity (x : float) : bool :=
  match x with S754_infinity _ => true | _ => false end.

Definition is_zero (x : float) : bool :=
  match x with S754_zero _ => true | _ => false end.

(** Literals of the source, as mantissa and exponent of the nearest
    binary64 number ([float.hex] of each literal). *)
Definition zero : float := S754_zero false.
Definition one : float := S754_finite false 4503599627370496 (-52).
Definition c0_07 : float := S754_finite false 5044031582654956 (-56).
Definition c0_1 : float := S754_finite false 7205759403792794 (-56).
Definition c0_3 : float := S754_finite false 5404319552844595 (-54).
Definition c0_7 : float := S754_finite false 6305039478318694 (-53).
Definition c14 : float := S754_finite false 7881299347898368 (-49).
Definition c100 : float := S754_finite false 7036874417766400 (-46).

(** [int(x)]: truncation toward zero; [None] on NaN and the infinities,
    where Python raises. *)
Definition trunc (x : float) : option Z :=
  match x with
  | S754_zero _ => Some 0
  | S754_finite s m e =>
      let a := if 0 <=? e then Zpos m * 2 ^ e else Zpos m / 2 ^ (- e) in
      Some (if s then - a else a)
  | _ => None
  end.

(** Round half to even of the non-negative rational [n / d]. *)
Definition round_half_even (n d : Z) : Z :=
  let q := n / d in
  let r := n mod d in
  match 2 * r ?= d with
  | Lt => q
  | Gt => q + 1
  | Eq => if Z.even q then q else q + 1
  end.

(** [round(x, 2)] of the built-in float type: the exact value of [x] is
    rounded half-even to a multiple of 1/100, and that decimal is converted
    back to the nearest binary64 number. *)
Definition round2 (x : float) : float :=
  match x with
  | S754_finite s m e =>
      if 0 <=? e then x
      else
        match round_half_even (Zpos m * 100) (2 ^ (- e)) with
        | Zpos t => div (S754_finite s t 0) (S754_finite false 100 0)
        | _ => S754_zero s
        end
  | _ => x
  end.

End F64.

(** ** Python values and exceptions *)

(** The scalar values a DataFrame cell or a record field holds. *)
Inductive pyval :=
| VInt (n : Z)
| VFloat (x : float)
| VBool (b : bool)
| VStr (s : string).

(** The declared column types of [COLUMN_TYPES]: [int], [float], [bool], [str]. *)
Inductive pytype := TInt | TFloat | TBool | TStr.

Definition pytype_eqb (a b : pytype) : bool :=
  match a, b with
  | TInt, TInt | TFloat, TFloat | TBool, TBool | TStr, TStr => true
  | _, _ => false
  end.

Inductive exn :=
| ValueError (msg : string)
| TypeError (msg : string)
| KeyError (key : string)
| OverflowError (msg : string)
| OSError (msg : string)
| AttributeError (msg : string)
| SQLAlchemyError (msg : string).

Definition exn_message (e : exn) : string :=
  match e with
  | ValueError m | TypeError m | KeyError m | OverflowError m
  | OSError m | AttributeError m | SQLAlchemyError m => m
  end.

Inductive res (A : Type) :=
| Ok (a : A)
| Raise (e : exn).
Arguments Ok {A} a.
Arguments Raise {A} e.

(** Truthiness, as used by [not value] and by [if csv_result and db_result]. *)
Definition truthy (v : pyval) : bool :=
  match v with
  | VInt n => negb (n =? 0)
  | VFloat x => negb (F64.is_zero x)
  | VBool b => b
  | VStr s => negb (String.eqb s "")
  end.

(** [float(v)] as applied implicitly by mixed arithmetic. *)
Definition float_of_int (n : Z) : res float :=
  let x := F64.of_Z n in
  if F64.is_infinity x then Raise (OverflowError "int too large to convert to float")
  else Ok x.

(** [value * f] for a float [f]. *)
Definition py_mul_float (v : pyval) (f : float) : res float :=
  match v with
  | VFloat x => Ok (F64.mul x f)
  | VInt n =>
      match float_of_int n with
      | Ok x => Ok (F64.mul x f)
      | Raise e => Raise e
      end
  | VBool b => Ok (F64.mul (F64.of_Z (if b then 1 else 0)) f)
  | VStr _ => Raise (TypeError "can't multiply sequence by non-int of type 'float'")
  end.

(** Two's complement wrap-around of 64-bit integers. *)
Definition wrap64 (z : Z) : Z := (z + 2 ^ 63) mod 2 ^ 64 - 2 ^ 63.

(** [value + k] for an integer [k].  An integer cell taken from a frame is
    a [numpy.int64], whose sum with a Python integer is a [numpy.int64]
    again and wraps around. *)
Definition py_add_int (v : pyval) (k : Z) : res pyval :=
  match v with
  | VInt n => Ok (VInt (wrap64 (n + k)))
  | VBool b => Ok (VInt ((if b then 1 else 0) + k))
  | VFloat x =>
      match float_of_int k with
      | Ok y => Ok (VFloat (F64.add x y))
      | Raise e => Raise e
      end
  | VStr _ => Raise (TypeError "can only concatenate str (not 'int') to str")
  end.

(** The two-argument [max] and [min] keep their first argument unless the
    second compares strictly greater (smaller). *)
Definition py_max_float (a b : float) : float := if F64.ltb a b then b else a.
Definition py_min_float (a b : float) : float := if F64.ltb b a then b else a.

(** [max(0, v)] for the result of [value + k]. *)
Definition py_max_0 (v : pyval) : pyval :=
  match v with
  | VInt n => if 0 <? n then v else VInt 0
  | VFloat x => if F64.ltb F64.zero x then v else VInt 0
  | _ => v
  end.

(** ** Dictionaries, DataFrames and the stores *)

(** A Python [dict] with string keys: insertion-ordered, assignment to an
    existing key replaces its value in place. *)
Definition dict (V : Type) := list (string * V).

Fixpoint dict_get {V} (k : string) (d : dict V) : option V :=
  match d with
  | [] => None
  | (k', v) :: d' => if String.eqb k k' then Some v else dict_get k d'
  end.

Fixpoint dict_set {V} (k : string) (v : V) (d : dict V) : dict V :=
  match d with
  | [] => [(k, v)]
  | (k', v') :: d' =>
      if String.eqb k k' then (k', v) :: d' else (k', v') :: dict_set k v d'
  end.

Definition dict_mem {V} (k : string) (d : dict V) : bool :=
  match dict_get k d with Some _ => true | None => false end.

Definition str_in (s : string) (l : list string) : bool :=
  existsb (String.eqb s) l.

(** A DataFrame: its column labels and its rows, each row giving the cell of
    every label (labels are assumed distinct, as pandas needs for scalar
    access by label). *)
Record DataFrame := {
  df_columns : list string;
  df_rows : list (dict pyval)
}.

(** [df.at[idx, column] = v] *)
Fixpoint set_nth {A} (i : nat) (f : A -> A) (l : list A) : list A :=
  match l, i with
  | [], _ => []
  | x :: l', O => f x :: l'
  | x :: l', S i' => x :: set_nth i' f l'
  end.

Definition df_at_set (idx : nat) (column : string) (v : pyval) (df : DataFrame)
  : DataFrame :=
  {| df_columns := df_columns df;
     df_rows := set_nth idx (dict_set column v) (df_rows df) |}.

(** [df.rename(columns={old: new})] *)
Definition rename_label (old new c : string) : string :=
  if String.eqb c old then new else c.

Definition df_rename (old new : string) (df : DataFrame) : DataFrame :=
  {| df_columns := map (rename_label old new) (df_columns df);
     df_rows :=
       map (map (fun kv : string * pyval => (rename_label old new (fst kv), snd kv)))
           (df_rows df) |}.

(** [DataFrame.equals]: same labels, same cells; NaNs in the same place count
    as equal, and a cell that changed its type does not. *)
Definition val_equals (a b : pyval) : bool :=
  match a, b with
  | VInt x, VInt y => x =? y
  | VFloat x, VFloat y => (F64.is_nan x && F64.is_nan y) || F64.eqb x y
  | VBool x, VBool y => Bool.eqb x y
  | VStr x, VStr y => String.eqb x y
  | _, _ => false
  end.

Fixpoint list_equals {A} (eq : A -> A -> bool) (l1 l2 : list A) : bool :=
  match l1, l2 with
  | [], [] => true
  | x :: l1', y :: l2' => eq x y && list_equals eq l1' l2'
  | _, _ => false
  end.

Definition cell_equals (a b : string * pyval) : bool :=
  String.eqb (fst a) (fst b) && val_equals (snd a) (snd b).

Definition df_equals (a b : DataFrame) : bool :=
  list_equals String.eqb (df_columns a) (df_columns b)
  && list_equals (list_equals cell_equals) (df_rows a) (df_rows b).

(** A bound parameter of an SQL statement: a record value, or the
    [datetime] taken at write time. *)
Inductive param :=
| PVal (v : pyval)
| PDatetime (iso : string).

Record Stmt := {
  stmt_query : string;
  stmt_params : dict param
}.

(** What the outside can observe of a run. *)
Inductive event :=
| EvSleep (seconds : Z)
| EvProbe
| EvCsvRead (path : string)
| EvCsvWrite (path : string) (df : DataFrame)
| EvUpdateSensorData (table : string) (data : list (dict pyval))
| EvExecute (s : Stmt)
| EvCommit
| EvRollback
| EvSessionClose
| EvPublishToMqtt (device_type : string) (record : dict pyval)
| EvMqttPublish (topic : string) (payload : dict pyval).

(** [DataSimulator.stats] *)
Record Stats := {
  updates_attempted : Z;
  updates_successful : Z;
  updates_failed : Z;
  last_update_time : option string;
  files_processed : dict Z
}.

(** The state a run reads and writes.  The first group is the environment:
    the entropy of the random module ([w_rand] read at position [w_rpos]),
    the clocks, the outcome of the next I/O attempts ([None]: it succeeds,
    [Some e]: it raises [e]), the table files, the committed and pending
    statements of the database server, and the trace of effects.  A table
    file is represented by the frame [pd.read_csv] parses from its text;
    [w_csv_round_trip df] is the frame parsed from the text [df.to_csv]
    prints, and [w_torn e path df] is what a write of [df] to [path] that
    fails with [e] leaves behind: [None] when the file was not opened,
    [Some d] when the file, rewritten in place, is left holding [d].  Then
    come the attributes of the [DatabaseManager], those of the
    [DataSimulator], and the module's [running] flag. *)
Record World := {
  w_rand : nat -> N;
  w_rpos : nat;
  w_time : float;
  w_hour : Z;
  w_utc_iso : string;
  w_float_repr : float -> string;
  w_csv_round_trip : DataFrame -> DataFrame;
  w_torn : exn -> string -> DataFrame -> option DataFrame;
  w_faults : list (option exn);
  w_files : dict DataFrame;
  w_durable : list (list Stmt);
  w_pending : list Stmt;
  w_trace : list event;
  connection_healthy : bool;
  last_reconnect_attempt : float;
  engine : bool;
  stats : Stats;
  is_street_light_data : bool;
  mqtt_client : bool;
  running : bool
}.

(** Field updates of the [World]. *)
Definition set_w_rpos (v : nat) (w : World) : World :=
  {| w_rand := w_rand w; w_rpos := v; w_time := w_time w;
     w_hour := w_hour w; w_utc_iso := w_utc_iso w;
     w_float_repr := w_float_repr w;
     w_csv_round_trip := w_csv_round_trip w; w_torn := w_torn w; w_faults := w_faults w;
     w_files := w_files w; w_durable := w_durable w;
     w_pending := w_pending w; w_trace := w_trace w;
     connection_healthy := connection_healthy w;
     last_reconnect_attempt := last_reconnect_attempt w;
     engine := engine w; stats := stats w;
     is_street_light_data := is_street_light_data w;
     mqtt_client := mqtt_client w; running := running w |}.

Definition set_w_time (v : float) (w : World) : World :=
  {| w_rand := w_rand w; w_rpos := w_rpos w; w_time := v;
     w_hour := w_hour w; w_utc_iso := w_utc_iso w;
     w_float_repr := w_float_repr w;
     w_csv_round_trip := w_csv_round_trip w; w_torn := w_torn w; w_faults := w_faults w;
     w_files := w_files w; w_durable := w_durable w;
     w_pending := w_pending w; w_trace := w_trace w;
     connection_healthy := connection_healthy w;
     last_reconnect_attempt := last_reconnect_attempt w;
     engine := engine w; stats := stats w;
     is_street_light_data := is_street_light_data w;
     mqtt_client := mqtt_client w; running := running w |}.

Definition set_w_faults (v : list (option exn)) (w : World) : World :=
  {| w_rand := w_rand w; w_rpos := w_rpos w; w_time := w_time w;
     w_hour := w_hour w; w_utc_iso := w_utc_iso w;
     w_float_repr := w_float_repr w;
     w_csv_round_trip := w_csv_round_trip w; w_torn := w_torn w; w_faults := v; w_files := w_files w;
     w_durable := w_durable w; w_pending := w_pending w;
     w_trace := w_trace w; connection_healthy := connection_healthy w;
     last_reconnect_attempt := last_reconnect_attempt w;
     engine := engine w; stats := stats w;
     is_street_light_data := is_street_light_data w;
     mqtt_client := mqtt_client w; running := running w |}.

Definition set_w_files (v : dict DataFrame) (w : World) : World :=
  {| w_rand := w_rand w; w_rpos := w_rpos w; w_time := w_time w;
     w_hour := w_hour w; w_utc_iso := w_utc_iso w;
     w_float_repr := w_float_repr w;
     w_csv_round_trip := w_csv_round_trip w; w_torn := w_torn w; w_faults := w_faults w; w_files := v;
     w_durable := w_durable w; w_pending := w_pending w;
     w_trace := w_trace w; connection_healthy := connection_healthy w;
     last_reconnect_attempt := last_reconnect_attempt w;
     engine := engine w; stats := stats w;
     is_street_light_data := is_street_light_data w;
     mqtt_client := mqtt_client w; running := running w |}.

Definition set_w_durable (v : list (list Stmt)) (w : World) : World :=
  {| w_rand := w_rand w; w_rpos := w_rpos w; w_time := w_time w;
     w_hour := w_hour w; w_utc_iso := w_utc_iso w;
     w_float_repr := w_float_repr w;
     w_csv_round_trip := w_csv_round_trip w; w_torn := w_torn w; w_faults := w_faults w;
     w_files := w_files w; w_durable := v; w_pending := w_pending w;
     w_trace := w_trace w; connection_healthy := connection_healthy w;
     last_reconnect_attempt := last_reconnect_attempt w;
     engine := engine w; stats := stats w;
     is_street_light_data := is_street_light_data w;
     mqtt_client := mqtt_client w; running := running w |}.

Definition set_w_pending (v : list Stmt) (w : World) : World :=
  {| w_rand := w_rand w; w_rpos := w_rpos w; w_time := w_time w;
     w_hour := w_hour w; w_utc_iso := w_utc_iso w;
     w_float_repr := w_float_repr w;
     w_csv_round_trip := w_csv_round_trip w; w_torn := w_torn w; w_faults := w_faults w;
     w_files := w_files w; w_durable := w_durable w; w_pending := v;
     w_trace := w_trace w; connection_healthy := connection_healthy w;
     last_reconnect_attempt := last_reconnect_attempt w;
     engine := engine w; stats := stats w;
     is_street_light_data := is_street_light_data w;
     mqtt_client := mqtt_client w; running := running w |}.

Definition set_w_trace (v : list event) (w : World) : World :=
  {| w_rand := w_rand w; w_rpos := w_rpos w; w_time := w_time w;
     w_hour := w_hour w; w_utc_iso := w_utc_iso w;
     w_float_repr := w_float_repr w;
     w_csv_round_trip := w_csv_round_trip w; w_torn := w_torn w; w_faults := w_faults w;
     w_files := w_files w; w_durable := w_durable w;
     w_pending := w_pending w; w_trace := v;
     connection_healthy := connection_healthy w;
     last_reconnect_attempt := last_reconnect_attempt w;
     engine := engine w; stats := stats w;
     is_street_light_data := is_street_light_data w;
     mqtt_client := mqtt_client w; running := running w |}.

Definition set_connection_healthy (v : bool) (w : World) : World :=
  {| w_rand := w_rand w; w_rpos := w_rpos w; w_time := w_time w;
     w_hour := w_hour w; w_utc_iso := w_utc_iso w;
     w_float_repr := w_float_repr w;
     w_csv_round_trip := w_csv_round_trip w; w_torn := w_torn w; w_faults := w_faults w;
     w_files := w_files w; w_durable := w_durable w;
     w_pending := w_pending w; w_trace := w_trace w;
     connection_healthy := v;
     last_reconnect_attempt := last_reconnect_attempt w;
     engine := engine w; stats := stats w;
     is_street_light_data := is_street_light_data w;
     mqtt_client := mqtt_client w; running := running w |}.

Definition set_last_reconnect_attempt (v : float) (w : World) : World :=
  {| w_rand := w_rand w; w_rpos := w_rpos w; w_time := w_time w;
     w_hour := w_hour w; w_utc_iso := w_utc_iso w;
     w_float_repr := w_float_repr w;
     w_csv_round_trip := w_csv_round_trip w; w_torn := w_torn w; w_faults := w_faults w;
     w_files := w_files w; w_durable := w_durable w;
     w_pending := w_pending w; w_trace := w_trace w;
     connection_healthy := connection_healthy w;
     last_reconnect_attempt := v; engine := engine w; stats := stats w;
     is_street_light_data := is_street_light_data w;
     mqtt_client := mqtt_client w; running := running w |}.

Definition set_engine (v : bool) (w : World) : World :=
  {| w_rand := w_rand w; w_rpos := w_rpos w; w_time := w_time w;
     w_hour := w_hour w; w_utc_iso := w_utc_iso w;
     w_float_repr := w_float_repr w;
     w_csv_round_trip := w_csv_round_trip w; w_torn := w_torn w; w_faults := w_faults w;
     w_files := w_files w; w_durable := w_durable w;
     w_pending := w_pending w; w_trace := w_trace w;
     connection_healthy := connection_healthy w;
     last_reconnect_attempt := last_reconnect_attempt w; engine := v;
     stats := stats w; is_street_light_data := is_street_light_data w;
     mqtt_client := mqtt_client w; running := running w |}.

Definition set_stats (v : Stats) (w : World) : World :=
  {| w_rand := w_rand w; w_rpos := w_rpos w; w_time := w_time w;
     w_hour := w_hour w; w_utc_iso := w_utc_iso w;
     w_float_repr := w_float_repr w;
     w_csv_round_trip := w_csv_round_trip w; w_torn := w_torn w; w_faults := w_faults w;
     w_files := w_files w; w_durable := w_durable w;
     w_pending := w_pending w; w_trace := w_trace w;
     connection_healthy := connection_healthy w;
     last_reconnect_attempt := last_reconnect_attempt w;
     engine := engine w; stats := v;
     is_street_light_data := is_street_light_data w;
     mqtt_client := mqtt_client w; running := running w |}.

Definition set_is_street_light_data (v : bool) (w : World) : World :=
  {| w_rand := w_rand w; w_rpos := w_rpos w; w_time := w_time w;
     w_hour := w_hour w; w_utc_iso := w_utc_iso w;
     w_float_repr := w_float_repr w;
     w_csv_round_trip := w_csv_round_trip w; w_torn := w_torn w; w_faults := w_faults w;
     w_files := w_files w; w_durable := w_durable w;
     w_pending := w_pending w; w_trace := w_trace w;
     connection_healthy := connection_healthy w;
     last_reconnect_attempt := last_reconnect_attempt w;
     engine := engine w; stats := stats w; is_street_light_data := v;
     mqtt_client := mqtt_client w; running := running w |}.

Definition set_running (v : bool) (w : World) : World :=
  {| w_rand := w_rand w; w_rpos := w_rpos w; w_time := w_time w;
     w_hour := w_hour w; w_utc_iso := w_utc_iso w;
     w_float_repr := w_float_repr w;
     w_csv_round_trip := w_csv_round_trip w; w_torn := w_torn w; w_faults := w_faults w;
     w_files := w_files w; w_durable := w_durable w;
     w_pending := w_pending w; w_trace := w_trace w;
     connection_healthy := connection_healthy w;
     last_reconnect_attempt := last_reconnect_attempt w;
     engine := engine w; stats := stats w;
     is_street_light_data := is_street_light_data w;
     mqtt_client := mqtt_client w; running := v |}.

(** ** The state-and-exception monad of a run *)

Definition M (A : Type) : Type := World -> res A * World.

Definition ret {A} (a : A) : M A := fun w => (Ok a, w).

Definition bind {A B} (m : M A) (k : A -> M B) : M B :=
  fun w =>
    match m w with
    | (Ok a, w') => k a w'
    | (Raise e, w') => (Raise e, w')
    end.

Definition raise {A} (e : exn) : M A := fun w => (Raise e, w).

(** [try: m except Exception as e: h e] *)
Definition try_except {A} (m : M A) (h : exn -> M A) : M A :=
  fun w =>
    match m w with
    | (Ok a, w') => (Ok a, w')
    | (Raise e, w') => h e w'
    end.

(** [try: m finally: f] *)
Definition try_finally {A} (m : M A) (f : M unit) : M A :=
  fun w =>
    match m w with
    | (r, w') =>
        match f w' with
        | (Ok _, w'') => (r, w'')
        | (Raise e, w'') => (Raise e, w'')
        end
    end.

Definition get {A} (f : World -> A) : M A := fun w => (Ok (f w), w).
Definition modify (f : World -> World) : M unit := fun w => (Ok tt, f w).
Definition lift {A} (r : res A) : M A := fun w => (r, w).

Declare Scope monad_scope.
Delimit Scope monad_scope with monad.
Notation "x <- m ;; k" := (bind m (fun x => k))
  (at level 61, m at next level, right associativity) : monad_scope.
Notation "m ;; k" := (bind m (fun _ => k))
  (at level 61, right associativity) : monad_scope.
Notation "' pat <- m ;; k" := (bind m (fun x => match x with pat => k end))
  (at level 61, pat pattern, m at next level, right associativity) : monad_scope.
Local Open Scope monad_scope.

Definition emit (e : event) : M unit :=
  modify (fun w => set_w_trace (w_trace w ++ [e]) w).

(** The next I/O attempt: it succeeds, or raises what the environment says. *)
Definition attempt : M unit :=
  fun w =>
    match w_faults w with
    | [] => (Ok tt, w)
    | None :: fs => (Ok tt, set_w_faults fs w)
    | Some e :: fs => (Raise e, set_w_faults fs w)
    end.

(** The longest sleep, in seconds, whose nanoseconds fit the 64-bit clock
    of [time.sleep]. *)
Definition MAX_SLEEP : Z := 9223372036.

(** What [time.sleep(seconds)] raises, for an integer length: [ValueError]
    on a negative one, [OverflowError] on one beyond [MAX_SLEEP]. *)
Definition sleep_error (seconds : Z) : option exn :=
  if seconds <? 0 then Some (ValueError "sleep length must be non-negative")
  else if MAX_SLEEP <? seconds then
    Some (OverflowError "timestamp too large to convert to C _PyTime_t")
  else None.

(** [time.sleep(seconds)]: refuses the length, or the clock advances. *)
Definition sleep (seconds : Z) : M unit :=
  match sleep_error seconds with
  | Some e => raise e
  | None =>
      emit (EvSleep seconds) ;;
      modify (fun w => set_w_time (F64.add (w_time w) (F64.of_Z seconds)) w)
  end.

(** ** The random module

    Every draw consumes one word of entropy.  [random()] is a multiple of
    2^-53 in [0, 1), [randint(a, b)] is [a] plus a number below [b - a + 1],
    [uniform(a, b)] is [a + (b - a) * random()], as in the standard library. *)

Definition next_word : M N :=
  fun w => (Ok (w_rand w (w_rpos w)), set_w_rpos (S (w_rpos w)) w).

Definition random_random : M float :=
  k <- next_word ;;
  ret (binary_normalize F64.prec F64.emax (Z.of_N k mod 2 ^ 53) (-53) false).

Definition randbelow (n : Z) : M Z :=
  k <- next_word ;;
  ret (Z.of_N k mod n).

Definition random_randint (a b : Z) : M Z :=
  if b <? a then raise (ValueError "empty range for randrange()")
  else
    j <- randbelow (b - a + 1) ;;
    ret (a + j).

Definition random_uniform (a b : float) : M float :=
  r <- random_random ;;
  ret (F64.add a (F64.mul (F64.sub b a) r)).

(** [random.sample(population, k)]: [k] draws without replacement; the drawn
    slot is refilled with the last element still in the pool. *)
Fixpoint sample_loop {A} (k : nat) (pool : list A) : M (list A) :=
  match k with
  | O => ret []
  | S k' =>
      j <- randbelow (Z.of_nat (List.length pool)) ;;
      match nth_error pool (Z.to_nat j), nth_error pool (List.length pool - 1) with
      | Some x, Some last =>
          rest <- sample_loop k' (removelast (set_nth (Z.to_nat j) (fun _ => last) pool)) ;;
          ret (x :: rest)
      | _, _ => ret []
      end
  end.

Definition random_sample {A} (population : list A) (k : Z) : M (list A) :=
  if (k <? 0) || (Z.of_nat (List.length population) <? k)
  then raise (ValueError "Sample larger than population or is negative")
  else sample_loop (Z.to_nat k) population.

(** [random.shuffle(x)]: for [i] from [len(x) - 1] down to 1, swap [x[i]]
    with [x[j]] for a [j] below [i + 1]. *)
Definition swap {A} (i j : nat) (l : list A) : list A :=
  match nth_error l i, nth_error l j with
  | Some a, Some b => set_nth i (fun _ => b) (set_nth j (fun _ => a) l)
  | _, _ => l
  end.

Fixpoint shuffle_loop {A} (i : nat) (l : list A) : M (list A) :=
  match i with
  | O => ret l
  | S i' =>
      j <- randbelow (Z.of_nat i + 1) ;;
      shuffle_loop i' (swap i (Z.to_nat j) l)
  end.

Definition random_shuffle {A} (l : list A) : M (list A) :=
  shuffle_loop (List.length l - 1) l.

(** ** Configuration tables *)

Definition COLUMN_TYPES : dict (dict pytype) :=
  [ ("traffic_sensors", [("vehicle_count", TInt); ("avg_speed", TFloat)]);
    ("air_quality_sensors",
      [("pm25", TFloat); ("pm10", TFloat); ("no2", TFloat); ("co", TFloat)]);
    ("noise_sensors", [("decibel_level", TFloat)]);
    ("weather_stations",
      [("temperature", TFloat); ("humidity", TFloat); ("rainfall", TFloat);
       ("wind_speed", TFloat)]);
    ("smart_meters", [("electricity_usage", TFloat); ("water_usage", TFloat)]);
    ("waste_bins", [("fill_level", TFloat); ("temperature", TFloat)]);
    ("parking_sensors", [("is_occupied", TBool)]);
    ("street_lights", [("status", TBool); ("energy_consumption", TFloat)]);
    ("public_transport_trackers", [("bus_id", TStr); ("occupancy", TInt)]);
    ("surveillance_cameras", [("motion_detected", TBool); ("object_count", TInt)]);
    ("water_quality_sensors",
      [("ph", TFloat); ("turbidity", TFloat); ("dissolved_oxygen", TFloat)]);
    ("energy_grid_sensors",
      [("voltage", TFloat); ("current", TFloat); ("frequency", TFloat)]) ].

Definition COLUMN_MAPPINGS : dict (dict string) :=
  [ ("water_quality_sensors", [("ph_level", "ph"); ("chlorine", "dissolved_oxygen")]);
    ("surveillance_cameras", [("people_count", "object_count")]) ].

Definition PROTECTED_COLUMNS : list string :=
  ["id"; "location"; "latitude"; "longitude"; "bus_id"].

(** ** [DataSimulator.generate_fluctuation] *)

(** [1 + random.uniform(-0.07, 0.07)] *)
Definition jitter : M float :=
  u <- random_uniform (SFopp F64.c0_07) F64.c0_07 ;;
  ret (F64.add F64.one u).

(** [value * (1 + random.uniform(-0.07, 0.07))] *)
Definition jittered (value : pyval) : M float :=
  f <- jitter ;;
  lift (py_mul_float value f).

Definition generate_fluctuation (value : pyval) (column_type : pytype)
    (column_name : string) : M pyval :=
  street <- get is_street_light_data ;;
  if String.eqb column_name "status" && pytype_eqb column_type TBool && street then
    current_hour <- get w_hour ;;
    ret (VBool ((18 <=? current_hour) || (current_hour <? 6)))
  else if str_in column_name PROTECTED_COLUMNS then ret value
  else if pytype_eqb column_type TBool then
    r <- random_random ;;
    if F64.ltb r F64.c0_1 then ret (VBool (negb (truthy value))) else ret value
  else if pytype_eqb column_type TInt
          && str_in column_name ["vehicle_count"; "occupancy"; "object_count"] then
    k <- random_randint (-3) 3 ;;
    v <- lift (py_add_int value k) ;;
    ret (py_max_0 v)
  else if pytype_eqb column_type TInt then
    k <- random_randint (-3) 3 ;;
    lift (py_add_int value k)
  else if pytype_eqb column_type TFloat
          && str_in column_name ["humidity"; "fill_level"] then
    x <- jittered value ;;
    ret (VFloat (py_min_float F64.c100 (py_max_float F64.zero x)))
  else if pytype_eqb column_type TFloat && String.eqb column_name "ph" then
    x <- jittered value ;;
    ret (VFloat (py_min_float F64.c14 (py_max_float F64.zero x)))
  else if pytype_eqb column_type TFloat
          && str_in column_name
               ["rainfall"; "electricity_usage"; "water_usage"; "energy_consumption"]
  then
    x <- jittered value ;;
    ret (VFloat (py_max_float F64.zero x))
  else if pytype_eqb column_type TFloat then
    x <- jittered value ;;
    ret (VFloat (F64.round2 x))
  else ret value.

(** ** Strings *)

(** [str.replace(old, new)] for a non-empty [old]: occurrences are replaced
    from left to right, without overlap.  [skip] counts the characters of a
    matched occurrence still to drop. *)
Fixpoint str_replace_aux (old new : string) (skip : nat) (s : string) : string :=
  match s with
  | EmptyString => EmptyString
  | String c s' =>
      match skip with
      | S k => str_replace_aux old new k s'
      | O =>
          if String.prefix old s
          then new ++ str_replace_aux old new (String.length old - 1) s'
          else String c (str_replace_aux old new O s')
      end
  end.

Definition str_replace (old new s : string) : string :=
  str_replace_aux old new O s.

(** [sub in s] *)
Fixpoint str_contains (sub s : string) : bool :=
  String.prefix sub s
  || match s with
     | EmptyString => false
     | String _ s' => str_contains sub s'
     end.

(** [str.lower()] on ASCII letters. *)
Definition lower_ascii (c : ascii) : ascii :=
  let n := nat_of_ascii c in
  if (65 <=? n)%nat && (n <=? 90)%nat then ascii_of_nat (n + 32) else c.

Fixpoint str_lower (s : string) : string :=
  match s with
  | EmptyString => EmptyString
  | String c s' => String (lower_ascii c) (str_lower s')
  end.

Fixpoint str_join (sep : string) (l : list string) : string :=
  match l with
  | [] => ""
  | [x] => x
  | x :: l' => x ++ sep ++ str_join sep l'
  end.

(** [str(v)]; the text of a float is the runtime's ([w_float_repr]). *)
Definition py_str (v : pyval) : M string :=
  match v with
  | VStr s => ret s
  | VInt n => ret (NilZero.string_of_int (Z.to_int n))
  | VBool b => ret (if b then "True" else "False")
  | VFloat x => repr <- get w_float_repr ;; ret (repr x)
  end.

(** ** The managers and the simulator *)

Section Config.

(** The module's configuration, read from the process environment. *)
Variable MAX_RETRIES : Z.
Variable RETRY_DELAY_BASE : Z.
Variable CSV_FILE_PATH : option string.

(** *** [CSVManager]

    A path is identified with its stem, the table's name.  The [file_locks]
    flags are written around every attempt and never read; they are left
    out. *)

Definition get_csv_files : M (list string) :=
  files <- get w_files ;;
  ret (map fst files).

(** One pass of the retry loop's [except] clause: count the failure, wait
    and go round again ([None]), or give up re-raising. *)
Definition retry_or_raise {A} (retry_count : Z) (e : exn) : M (option A) :=
  let retry_count := retry_count + 1 in
  let wait_time := RETRY_DELAY_BASE ^ retry_count in
  if retry_count <? MAX_RETRIES then sleep wait_time ;; ret None
  else raise e.

Fixpoint read_csv_loop (fuel : nat) (retry_count : Z) (csv_path : string)
  : M (option DataFrame) :=
  match fuel with
  | O => ret None
  | S fuel' =>
      r <- try_except
             (emit (EvCsvRead csv_path) ;;
              attempt ;;
              files <- get w_files ;;
              match dict_get csv_path files with
              | Some df => ret (Some (Some df))
              | None => raise (OSError "No such file or directory")
              end)
             (retry_or_raise retry_count) ;;
      match r with
      | Some df => ret df
      | None => read_csv_loop fuel' (retry_count + 1) csv_path
      end
  end.

(** [CSVManager.read_csv]; [None] when the loop body never runs. *)
Definition read_csv (csv_path : string) : M (option DataFrame) :=
  read_csv_loop (Z.to_nat MAX_RETRIES) 0 csv_path.

(** [df.to_csv(csv_path, index=False)]: the file is rewritten in place.  A
    write that fails leaves what the environment says it leaves; one that
    succeeds leaves the text of [df], which reads back as
    [w_csv_round_trip df]. *)
Definition to_csv (csv_path : string) (df : DataFrame) : M unit :=
  try_except attempt
    (fun e =>
       torn <- get (fun w => w_torn w e csv_path df) ;;
       match torn with
       | Some d =>
           modify (fun w => set_w_files (dict_set csv_path d (w_files w)) w)
       | None => ret tt
       end ;;
       raise e) ;;
  round_trip <- get w_csv_round_trip ;;
  modify (fun w => set_w_files (dict_set csv_path (round_trip df) (w_files w)) w).

Fixpoint write_csv_loop (fuel : nat) (retry_count : Z) (csv_path : string)
    (df : DataFrame) : M bool :=
  match fuel with
  | O => ret false
  | S fuel' =>
      r <- try_except
             (emit (EvCsvWrite csv_path df) ;;
              to_csv csv_path df ;;
              ret (Some true))
             (retry_or_raise retry_count) ;;
      match r with
      | Some b => ret b
      | None => write_csv_loop fuel' (retry_count + 1) csv_path df
      end
  end.

(** [CSVManager.write_csv]: [True] once an attempt succeeds; the falsy
    [None] when the loop body never runs; raises after the last failure. *)
Definition write_csv (csv_path : string) (df : DataFrame) : M bool :=
  write_csv_loop (Z.to_nat MAX_RETRIES) 0 csv_path df.

(** *** [DatabaseManager] *)

(** The round-trip probe [SELECT 1].  A probe that answers is taken to
    answer 1, as every database does; the source's path for another answer
    (no [return], no increment of [retry_count]) has no counterpart here. *)
Definition probe : M unit := emit EvProbe ;; attempt.

Fixpoint connect_loop (fuel : nat) (retry_count : Z) : M bool :=
  match fuel with
  | O =>
      modify (set_connection_healthy false) ;;
      ret false
  | S fuel' =>
      r <- try_except
             (modify (set_engine true) ;;
              probe ;;
              modify (set_connection_healthy true) ;;
              ret true)
             (fun e =>
                match e with
                | SQLAlchemyError _ =>
                    let retry_count := retry_count + 1 in
                    let wait_time := RETRY_DELAY_BASE ^ retry_count in
                    sleep wait_time ;;
                    ret false
                | _ => raise e
                end) ;;
      if r then ret true else connect_loop fuel' (retry_count + 1)
  end.

(** [DatabaseManager.connect] *)
Definition connect : M bool :=
  current_time <- get w_time ;;
  last <- get last_reconnect_attempt ;;
  if F64.ltb (F64.sub current_time last) (F64.of_Z 10) then
    get connection_healthy
  else
    modify (set_last_reconnect_attempt current_time) ;;
    connect_loop (Z.to_nat MAX_RETRIES) 0.

(** [DatabaseManager.ensure_connected] *)
Definition ensure_connected : M bool :=
  healthy <- get connection_healthy ;;
  eng <- get engine ;;
  if negb healthy || negb eng then connect
  else
    try_except (probe ;; ret true)
      (fun e =>
         match e with
         | SQLAlchemyError _ => connect
         | _ => raise e
         end).

Definition set_clause (key : string) : string := key ++ " = :" ++ key.

(** The statement built for one record. *)
Definition build_update (table_name : string) (record : dict pyval)
    (record_id : string) (timestamp : string) : Stmt :=
  let keys := filter (fun k => negb (String.eqb k "id")) (map fst record) in
  let set_clauses := (map set_clause keys ++ ["timestamp = :timestamp"])%list in
  let params :=
    fold_left (fun ps kv => dict_set (fst kv) (PVal (snd kv)) ps)
      (filter (fun kv => negb (String.eqb (fst kv) "id")) record) [] in
  let params := dict_set "timestamp" (PDatetime timestamp) params in
  let params := dict_set "id" (PVal (VStr record_id)) params in
  {| stmt_query :=
       "UPDATE " ++ table_name ++ " SET " ++ str_join ", " set_clauses
         ++ " WHERE id = :id";
     stmt_params := params |}.

(** [self.Session()]: a new session, with nothing pending. *)
Definition session_open : M unit := modify (set_w_pending []).

Definition session_execute (s : Stmt) : M unit :=
  emit (EvExecute s) ;;
  attempt ;;
  modify (fun w => set_w_pending (w_pending w ++ [s]) w).

Definition session_commit : M unit :=
  emit EvCommit ;;
  attempt ;;
  modify (fun w => set_w_pending [] (set_w_durable (w_durable w ++ [w_pending w]) w)).

Definition session_rollback : M unit :=
  emit EvRollback ;;
  modify (set_w_pending []).

Definition session_close : M unit := emit EvSessionClose.

Fixpoint execute_updates (table_name : string) (data : list (dict pyval))
  : M unit :=
  match data with
  | [] => ret tt
  | record :: data' =>
      record_id <- match dict_get "id" record with
                   | Some v => ret v
                   | None => raise (KeyError "id")
                   end ;;
      timestamp <- get w_utc_iso ;;
      record_id <- py_str record_id ;;
      session_execute (build_update table_name record record_id timestamp) ;;
      execute_updates table_name data'
  end.

Definition is_connection_error (e : exn) : bool :=
  let text := str_lower (exn_message e) in
  str_contains "connection" text || str_contains "timeout" text.

(** The body of [DatabaseManager.update_sensor_data]. *)
Definition update_records (table_name : string) (data : list (dict pyval))
  : M bool :=
  ok <- ensure_connected ;;
  if negb ok then ret false
  else
    session_open ;;
    try_finally
      (try_except
         (execute_updates table_name data ;;
          session_commit ;;
          ret true)
         (fun e =>
            session_rollback ;;
            (if is_connection_error e
             then modify (set_connection_healthy false)
             else ret tt) ;;
            ret false))
      session_close.

(** [DatabaseManager.update_sensor_data]: the call is recorded, then the
    body runs. *)
Definition update_sensor_data (table_name : string) (data : list (dict pyval))
  : M bool :=
  emit (EvUpdateSensorData table_name data) ;;
  update_records table_name data.

(** *** [DataSimulator] *)

(** [DataSimulator.publish_to_mqtt]; the payload is the record itself, its
    JSON text is not modelled. *)
Definition publish_to_mqtt (device_type : string) (record : dict pyval)
  : M bool :=
  emit (EvPublishToMqtt device_type record) ;;
  client <- get mqtt_client ;;
  if negb client then ret false
  else
    device_id <- match dict_get "id" record with
                 | Some v => py_str v
                 | None => ret "unknown"
                 end ;;
    let topic := "city/" ++ device_type ++ "/" ++ device_id in
    try_except
      (emit (EvMqttPublish topic record) ;;
       attempt ;;
       ret true)
      (fun _ => ret false).

(** [int(n * c)] for a length [n] and a float literal [c]. *)
Definition scaled_count (n : Z) (c : float) : M Z :=
  x <- lift (float_of_int n) ;;
  match F64.trunc (F64.mul x c) with
  | Some k => ret k
  | None => raise (OverflowError "cannot convert float infinity to integer")
  end.

(** [random.randint(max(1, int(n * 0.3)), max(1, int(n * 0.7)))] *)
Definition choose_count (n : Z) : M Z :=
  lo <- scaled_count n F64.c0_3 ;;
  hi <- scaled_count n F64.c0_7 ;;
  random_randint (Z.max 1 lo) (Z.max 1 hi).

Definition lookup (column : string) (row : dict pyval) : M pyval :=
  match dict_get column row with
  | Some v => ret v
  | None => raise (KeyError column)
  end.

(** The loop over [df.columns] for the row at [idx]; [row] is the copy of
    that row taken before the loop. *)
Fixpoint fluctuate_columns (columns : list string)
    (table_column_types : dict pytype) (row : dict pyval) (idx : nat)
    (df : DataFrame) (record : dict pyval) : M (DataFrame * dict pyval) :=
  match columns with
  | [] => ret (df, record)
  | column :: columns' =>
      match dict_get column table_column_types with
      | Some column_type =>
          current_value <- lookup column row ;;
          new_value <- generate_fluctuation current_value column_type column ;;
          fluctuate_columns columns' table_column_types row idx
            (df_at_set idx column new_value df)
            (dict_set column new_value record)
      | None =>
          fluctuate_columns columns' table_column_types row idx df record
      end
  end.

(** The loop over [rows_to_update]. *)
Fixpoint mutate_rows (table_name : string) (table_column_types : dict pytype)
    (rows_to_update : list nat) (df : DataFrame)
    (db_updates : list (dict pyval)) : M (DataFrame * list (dict pyval)) :=
  match rows_to_update with
  | [] => ret (df, db_updates)
  | idx :: rows' =>
      row <- match nth_error (df_rows df) idx with
             | Some row => ret row
             | None => raise (KeyError "single positional indexer is out-of-bounds")
             end ;;
      '(df, record) <- fluctuate_columns (df_columns df) table_column_types
                         row idx df [] ;;
      id <- lookup "id" row ;;
      id <- py_str id ;;
      let record := dict_set "id" (VStr id) record in
      df <- (if str_in "timestamp" (df_columns df) then
               current_time <- get w_utc_iso ;;
               ret (df_at_set idx "timestamp" (VStr current_time) df)
             else ret df) ;;
      publish_to_mqtt table_name record ;;
      mutate_rows table_name table_column_types rows' df
        (db_updates ++ [record])%list
  end.

Definition base_name (table_name : string) : string :=
  str_replace "_trackers" ""
    (str_replace "_stations" "" (str_replace "_sensors" "" table_name)).

(** The renaming of mapped columns. *)
Definition apply_mappings (table_name : string) (df : DataFrame) : DataFrame :=
  match dict_get (base_name table_name) COLUMN_MAPPINGS with
  | Some mappings =>
      fold_left
        (fun df om =>
           if str_in (fst om) (df_columns df)
           then df_rename (fst om) (snd om) df else df)
        mappings df
  | None => df
  end.

Definition table_types (table_name : string) : dict pytype :=
  match dict_get table_name COLUMN_TYPES with
  | Some types => types
  | None => []
  end.

(** The rows a table's pass will touch: a count by [choose_count], then
    that many distinct positions. *)
Definition choose_rows (num_rows : nat) : M (list nat) :=
  num_rows_to_update <- choose_count (Z.of_nat num_rows) ;;
  random_sample (seq 0 num_rows) num_rows_to_update.

(** The first half of [simulate_data_changes]: up to the end of the loop
    over the selected rows.  It yields the original frame, the mutated
    frame and the records for the database. *)
Definition mutate_table (table_name : string)
  : M (DataFrame * DataFrame * list (dict pyval)) :=
  modify (set_is_street_light_data (String.eqb table_name "street_lights")) ;;
  df <- read_csv table_name ;;
  df <- match df with
        | Some df => ret df
        | None => raise (AttributeError "'NoneType' object has no attribute 'copy'")
        end ;;
  let df := apply_mappings table_name df in
  let original_df := df in
  rows_to_update <- choose_rows (List.length (df_rows df)) ;;
  '(df, db_updates) <- mutate_rows table_name (table_types table_name)
                         rows_to_update df [] ;;
  ret (original_df, df, db_updates).

Definition stats_attempted (s : Stats) : Stats :=
  {| updates_attempted := updates_attempted s + 1;
     updates_successful := updates_successful s;
     updates_failed := updates_failed s;
     last_update_time := last_update_time s;
     files_processed := files_processed s |}.

Definition stats_successful (table_name : string) (s : Stats) : Stats :=
  {| updates_attempted := updates_attempted s;
     updates_successful := updates_successful s + 1;
     updates_failed := updates_failed s;
     last_update_time := last_update_time s;
     files_processed :=
       match dict_get table_name (files_processed s) with
       | Some n => dict_set table_name (n + 1) (files_processed s)
       | None => dict_set table_name 1 (files_processed s)
       end |}.

Definition stats_failed (s : Stats) : Stats :=
  {| updates_attempted := updates_attempted s;
     updates_successful := updates_successful s;
     updates_failed := updates_failed s + 1;
     last_update_time := last_update_time s;
     files_processed := files_processed s |}.

Definition stats_touch (now : string) (s : Stats) : Stats :=
  {| updates_attempted := updates_attempted s;
     updates_successful := updates_successful s;
     updates_failed := updates_failed s;
     last_update_time := Some now;
     files_processed := files_processed s |}.

Definition update_stats (f : Stats -> Stats) : M unit :=
  modify (fun w => set_stats (f (stats w)) w).

(** The second half of [simulate_data_changes]: persist a net change.
    [last_update_time] is read from the clock text of the world; the source
    formats [datetime.now()] there, a text no statement below looks into. *)
Definition persist (table_name : string) (original_df df : DataFrame)
    (db_updates : list (dict pyval)) : M bool :=
  if negb (df_equals original_df df)
     && negb (Nat.eqb (List.length db_updates) 0) then
    csv_result <- write_csv table_name df ;;
    db_result <- update_sensor_data table_name db_updates ;;
    update_stats stats_attempted ;;
    (if csv_result && db_result
     then update_stats (stats_successful table_name)
     else update_stats stats_failed) ;;
    now <- get w_utc_iso ;;
    update_stats (stats_touch now) ;;
    ret true
  else ret false.

(** [DataSimulator.simulate_data_changes] *)
Definition simulate_data_changes (csv_path : string) : M bool :=
  try_except
    ('(original_df, df, db_updates) <- mutate_table csv_path ;;
     persist csv_path original_df df db_updates)
    (fun _ =>
       update_stats stats_failed ;;
       ret false).

(** The loop over [files_to_update]. *)
Fixpoint simulate_files (files_to_update : list string) : M unit :=
  match files_to_update with
  | [] => ret tt
  | csv_path :: files' =>
      go <- get running ;;
      if negb go then ret tt
      else
        simulate_data_changes csv_path ;;
        simulate_files files'
  end.

(** The tables a cycle will process. *)
Definition choose_files : M (list string) :=
  csv_files <- match CSV_FILE_PATH with
               | Some path =>
                   if String.eqb path "" then get_csv_files else ret [path]
               | None => get_csv_files
               end ;;
  csv_files <- random_shuffle csv_files ;;
  num_files_to_update <- choose_count (Z.of_nat (List.length csv_files)) ;;
  random_sample csv_files num_files_to_update.

(** [DataSimulator.run_simulation_cycle] *)
Definition run_simulation_cycle : M unit :=
  files_to_update <- choose_files ;;
  simulate_files files_to_update.

End Config.

(** *** [DatabaseManager.execute_query] *)

Section Queries.

Variable MAX_RETRIES : Z.
Variable RETRY_DELAY_BASE : Z.

(** One attempt of [execute_query]: the statement is sent on a connection
    of its own and takes effect when that connection commits. *)
Definition send_query (s : Stmt) : M unit :=
  emit (EvExecute s) ;;
  attempt ;;
  emit EvCommit ;;
  attempt ;;
  modify (fun w => set_w_durable (w_durable w ++ [[s]]) w).

(** The [except SQLAlchemyError] clause of [execute_query].  It yields
    [Some None] when the loop is left by [break], [None] when it goes round
    again, and re-raises after the last retry. *)
Definition query_failed {A} (retry_count : Z) (e : exn)
  : M (option (option A)) :=
  match e with
  | SQLAlchemyError _ =>
      let retry_count := retry_count + 1 in
      let wait_time := RETRY_DELAY_BASE ^ retry_count in
      stop <- (if is_connection_error e then
                 modify (set_connection_healthy false) ;;
                 ok <- ensure_connected MAX_RETRIES RETRY_DELAY_BASE ;;
                 ret (negb ok && (MAX_RETRIES <=? retry_count))
               else ret false) ;;
      if stop then ret (Some None)
      else if retry_count <? MAX_RETRIES then sleep wait_time ;; ret None
      else raise e
  | _ => raise e
  end.

(** The [while] loop of [execute_query]: a pass yields [Some result] when
    the loop is left and [None] when it goes round again. *)
Fixpoint execute_query_loop (fuel : nat) (retry_count : Z) (s : Stmt)
  : M (option unit) :=
  match fuel with
  | O => ret None
  | S fuel' =>
      r <- try_except
             (send_query s ;; ret (Some (Some tt)))
             (query_failed retry_count) ;;
      match r with
      | Some result => ret result
      | None => execute_query_loop fuel' (retry_count + 1) s
      end
  end.

(** [DatabaseManager.execute_query]: [Some tt] stands for the result object,
    [None] for Python's [None]. *)
Definition execute_query (s : Stmt) : M (option unit) :=
  ok <- ensure_connected MAX_RETRIES RETRY_DELAY_BASE ;;
  if negb ok then ret None
  else execute_query_loop (Z.to_nat MAX_RETRIES) 0 s.

End Queries.

(** *** Shutdown *)

(** [signal_handler]: the module's [running] flag is cleared. *)
Definition signal_handler (w : World) : World := set_running false w.

(** ** The activity scheduler *)

(** The module globals [last_activity_time] and [is_sleeping]. *)
Record ActivityState := {
  last_activity_time : float;
  is_sleeping : bool
}.

(** What a tick finds at [activity_check_file]: no file, a file that cannot
    be read, or its text. *)
Inductive signal_file :=
| FileAbsent
| FileUnreadable
| FileContent (content : string).

Definition is_space (c : ascii) : bool :=
  let n := nat_of_ascii c in
  ((9 <=? n)%nat && (n <=? 13)%nat) || (n =? 32)%nat
  || ((28 <=? n)%nat && (n <=? 31)%nat).

Fixpoint lstrip (s : string) : string :=
  match s with
  | String c s' => if is_space c then lstrip s' else s
  | EmptyString => EmptyString
  end.

Fixpoint rstrip (s : string) : string :=
  match s with
  | String c s' =>
      match rstrip s' with
      | EmptyString => if is_space c then EmptyString else String c EmptyString
      | t => String c t
      end
  | EmptyString => EmptyString
  end.

(** [str.strip()] *)
Definition str_strip (s : string) : string := rstrip (lstrip s).

Section Scheduler.

(** The built-in [float] on a string: [None] where it raises [ValueError]. *)
Variable py_float : string -> option float.

(** The sleep-timeout check that ends a tick. *)
Definition sleep_check (now : float) (st : ActivityState) : ActivityState :=
  if negb (is_sleeping st)
     && F64.ltb (F64.of_Z (15 * 60)) (F64.sub now (last_activity_time st))
  then {| last_activity_time := last_activity_time st; is_sleeping := true |}
  else st.

(** [check_for_activity_signal]: the value returned and the globals after
    the tick; [now] is what [time.time()] reads. *)
Definition check_for_activity_signal (file : signal_file) (now : float)
    (st : ActivityState) : bool * ActivityState :=
  match file with
  | FileContent text =>
      let content := str_strip text in
      if String.eqb content "" then (false, sleep_check now st)
      else
        match py_float content with
        | Some file_timestamp =>
            if F64.ltb (last_activity_time st) file_timestamp
            then (true, {| last_activity_time := file_timestamp;
                           is_sleeping := false |})
            else (false, sleep_check now st)
        | None => (false, sleep_check now st)
        end
  | FileAbsent | FileUnreadable => (false, sleep_check now st)
  end.

End Scheduler.

(** ** The signal file and the main loop

    The health-check thread of [main] runs beside the loop and is not
    modelled. *)

Section Signals.

(** The built-in [float] on a string and [str] on a float. *)
Variable py_float : string -> option float.
Variable py_repr : float -> string.

(** Writing [str(now)] to [activity_check_file].  [writable] tells whether
    the file can be created and opened; the error is logged and dropped
    otherwise, and the file stays as it was. *)
Definition write_signal (writable : bool) (now : float) (file : signal_file)
  : bool * signal_file :=
  if writable then (true, FileContent (py_repr now)) else (false, file).

(** [record_activity]: the globals and the signal file after the call. *)
Definition record_activity (writable : bool) (now : float) (file : signal_file)
  : ActivityState * signal_file :=
  ({| last_activity_time := now; is_sleeping := false |},
   snd (write_signal writable now file)).

(** [trigger_simulator_activity] of [simulator_api.py]: the value returned
    and the signal file after the call. *)
Definition trigger_simulator_activity (writable : bool) (now : float)
    (file : signal_file) : bool * signal_file :=
  write_signal writable now file.

End Signals.

(** [0.05] *)
Definition c0_05 : float := S754_finite false 7205759403792794 (-57).

Section Main.

Variable MAX_RETRIES : Z.
Variable RETRY_DELAY_BASE : Z.
Variable CSV_FILE_PATH : option string.
Variable py_float : string -> option float.

(** What [activity_check_file] holds at each instant; the API process
    writes it. *)
Variable signal_at : float -> signal_file.

(** A call of [check_for_activity_signal] in the main thread. *)
Definition tick (st : ActivityState) : M (bool * ActivityState) :=
  now <- get w_time ;;
  ret (check_for_activity_signal py_float (signal_at now) now st).

(** The loop [for _ in range(30)] that ends an iteration of [main]. *)
Fixpoint wait_ticks (ticks : list Z) (st : ActivityState) : M ActivityState :=
  match ticks with
  | [] => ret st
  | i :: ticks' =>
      go <- get running ;;
      if negb go then ret st
      else
        st <- (if i mod 5 =? 0 then
                 ' (_, st') <- tick st ;;
                 ret st'
               else ret st) ;;
        sleep 1 ;;
        wait_ticks ticks' st
  end.

(** What an iteration of [main] does while the simulator sleeps. *)
Definition idle_step : M unit :=
  r <- random_random ;;
  if F64.ltb r c0_05 then
    ensure_connected MAX_RETRIES RETRY_DELAY_BASE ;;
    ret tt
  else ret tt.

(** One iteration of the [while running] loop of [main]. *)
Definition main_iteration (st : ActivityState) : M ActivityState :=
  ' (activity_detected, st) <- tick st ;;
  (if negb (is_sleeping st) || activity_detected then
     run_simulation_cycle MAX_RETRIES RETRY_DELAY_BASE CSV_FILE_PATH
   else idle_step) ;;
  wait_ticks (map Z.of_nat (seq 0 30)) st.

End Main.

(** * Vocabulary of the statements *)

(** A computation respects a relation between worlds when the world it
    leaves is related to the world it was given. *)
Definition respects (R : World -> World -> Prop) {A : Type} (m : M A) : Prop :=
  forall w, R w (snd (m w)).

(** The outcome of a fluctuation is a float between [lo] and [hi]. *)
Definition returns_between (lo hi : float) (m : M pyval) (w : World) : Prop :=
  exists (y : float) (w' : World),
    m w = (Ok (VFloat y), w') /\ F64.leb lo y = true /\ F64.leb y hi = true.

(** The outcome of a fluctuation is a float not below [lo]. *)
Definition returns_at_least (lo : float) (m : M pyval) (w : World) : Prop :=
  exists (y : float) (w' : World),
    m w = (Ok (VFloat y), w') /\ F64.leb lo y = true.

(** The counters of a simulator that has not run yet. *)
Definition empty_stats : Stats :=
  {| updates_attempted := 0; updates_successful := 0; updates_failed := 0;
     last_update_time := None; files_processed := [] |}.

(** A world to run examples in: no faults, one entropy word repeated, noon. *)
Definition quiet_world (word : N) (hour : Z) (files : dict DataFrame) : World :=
  {| w_rand := fun _ => word; w_rpos := O;
     w_time := F64.of_Z 1700000000; w_hour := hour;
     w_utc_iso := "2024-01-01T12:00:00Z";
     w_float_repr := fun _ => "0.0";
     w_csv_round_trip := fun df => df; w_torn := fun _ _ _ => None;
     w_faults := []; w_files := files; w_durable := []; w_pending := [];
     w_trace := [];
     connection_healthy := true; last_reconnect_attempt := F64.zero;
     engine := true; stats := empty_stats;
     is_street_light_data := false; mqtt_client := true; running := true |}.

(** A part of the world that a computation leaves as it found it. *)
Definition same {B} (f : World -> B) (w w' : World) : Prop := f w' = f w.

(** A computation that adds nothing to the trace. *)
Definition silent {A : Type} (m : M A) : Prop := respects (same w_trace) m.

(** The trace only grows, by events that [allowed] lets in. *)
Definition extends (allowed : event -> Prop) (w w' : World) : Prop :=
  exists evs, w_trace w' = (w_trace w ++ evs)%list /\ Forall allowed evs.

(** The events of a table's mutation phase: reads, waits and publishes. *)
Definition mutation_event (e : event) : Prop :=
  match e with
  | EvCsvRead _ | EvSleep _ | EvPublishToMqtt _ _ | EvMqttPublish _ _ => True
  | _ => False
  end.

Definition is_publish_call (e : event) : bool :=
  match e with EvPublishToMqtt _ _ => true | _ => false end.

Definition count_events (p : event -> bool) (evs : list event) : nat :=
  List.length (filter p evs).

Definition read_event (e : event) : Prop :=
  match e with EvCsvRead _ | EvSleep _ => True | _ => False end.

(** A parking table with one free place. *)
Definition parking_row : dict pyval :=
  [("id", VStr "p1"); ("location", VStr "Main St"); ("is_occupied", VBool false)].

Definition parking_df : DataFrame :=
  {| df_columns := ["id"; "location"; "is_occupied"]; df_rows := [parking_row] |}.

(** Every draw of [random()] is 0.5: no boolean flips. *)
Definition parking_world : World :=
  quiet_world (2 ^ 52) 12 [("parking_sensors", parking_df)].

Definition parking_record : dict pyval :=
  [("is_occupied", VBool false); ("id", VStr "p1")].

Definition is_update_call (e : event) : bool :=
  match e with EvUpdateSensorData _ _ => true | _ => false end.

Definition csv_event (e : event) : Prop :=
  match e with EvCsvWrite _ _ | EvSleep _ => True | _ => False end.

Definition returned_true (r : res bool) : bool :=
  match r with Ok true => true | _ => false end.

Definition returned (r : res bool) : bool :=
  match r with Ok _ => true | Raise _ => false end.

(** A traffic table with one sensor. *)
Definition traffic_row : dict pyval :=
  [("id", VStr "t1"); ("vehicle_count", VInt 50);
   ("avg_speed", VFloat (S754_finite false 4996180836614144 (-47)));
   ("location", VStr "Main St")].

Definition traffic_df : DataFrame :=
  {| df_columns := ["id"; "vehicle_count"; "avg_speed"; "location"];
     df_rows := [traffic_row] |}.

Definition traffic_world : World :=
  quiet_world (2 ^ 52) 12 [("traffic_sensors", traffic_df)].

Definition traffic_df_mutated : DataFrame :=
  {| df_columns := ["id"; "vehicle_count"; "avg_speed"; "location"];
     df_rows :=
       [[("id", VStr "t1"); ("vehicle_count", VInt 49);
         ("avg_speed", VFloat (S754_finite false 4996180836614144 (-47)));
         ("location", VStr "Main St")]] |}.

Definition traffic_record : dict pyval :=
  [("vehicle_count", VInt 49);
   ("avg_speed", VFloat (S754_finite false 4996180836614144 (-47)));
   ("id", VStr "t1")].





(** The next [n] I/O attempts all raise a [SQLAlchemyError]. *)
Fixpoint all_probes_fail (n : nat) (faults : list (option exn)) : bool :=
  match n with
  | O => true
  | S n' =>
      match faults with
      | Some (SQLAlchemyError _) :: faults' => all_probes_fail n' faults'
      | _ => false
      end
  end.

(** The probes and the waits of [n] failed attempts, the first of them
    numbered [retry_count + 1]. *)
Fixpoint retry_events (base : Z) (n : nat) (retry_count : Z) : list event :=
  match n with
  | O => []
  | S n' =>
      EvProbe :: EvSleep (base ^ (retry_count + 1))
        :: retry_events base n' (retry_count + 1)
  end.

(** A world whose database refuses every connection, [since] seconds after
    the previous attempt to connect. *)
Definition refusing_world (since : Z) : World :=
  set_last_reconnect_attempt (F64.of_Z (1700000000 - since))
    (set_w_faults (repeat (Some (SQLAlchemyError "connection refused")) 5)
       (quiet_world 0 12 [])).

(** The signal a tick reads, if it is numeric: the stripped text of the file
    seen through [float]. *)
Definition signal_value (py_float : string -> option float) (file : signal_file)
  : option float :=
  match file with
  | FileContent text =>
      if String.eqb (str_strip text) "" then None else py_float (str_strip text)
  | _ => None
  end.

(** The signal is strictly newer than the recorded activity instant. *)
Definition newer_signal (py_float : string -> option float) (file : signal_file)
    (st : ActivityState) : bool :=
  match signal_value py_float file with
  | Some ts => F64.ltb (last_activity_time st) ts
  | None => false
  end.

(** More than 900 seconds lie between the recorded activity instant and [now]. *)
Definition timed_out (now : float) (st : ActivityState) : bool :=
  F64.ltb (F64.of_Z 900) (F64.sub now (last_activity_time st)).

(** What a row holds in the protected columns. *)
Definition protected_row (row : dict pyval) : list (option pyval) :=
  map (fun c => dict_get c row) PROTECTED_COLUMNS.

(** What a frame holds in the protected columns, row by row. *)
Definition protected_view (df : DataFrame) : list (list (option pyval)) :=
  map protected_row (df_rows df).

(** The protected columns of every table file. *)
Definition files_view (w : World) : list (string * list (list (option pyval))) :=
  map (fun kv => (fst kv, protected_view (snd kv))) (w_files w).

(** The environment of the table files. *)
Definition csv_env (w : World)
  : (exn -> string -> DataFrame -> option DataFrame) * (DataFrame -> DataFrame) :=
  (w_torn w, w_csv_round_trip w).

(** Files are written whole and read back with their protected cells: a
    frame printed by [to_csv] and parsed by [read_csv] holds in the
    protected columns what it held, and a write that fails leaves the file
    as it was. *)
Definition whole_files (w : World) : Prop :=
  (forall df, protected_view (w_csv_round_trip w df) = protected_view df)
  /\ (forall e path df, w_torn w e path df = None).

(** [n] cycles in a row, each continuing in the state the previous one
    left, whether it ended normally or not. *)
Fixpoint run_cycles (MAX_RETRIES RETRY_DELAY_BASE : Z)
    (CSV_FILE_PATH : option string) (n : nat) (w : World) : World :=
  match n with
  | O => w
  | S n' =>
      run_cycles MAX_RETRIES RETRY_DELAY_BASE CSV_FILE_PATH n'
        (snd (run_simulation_cycle MAX_RETRIES RETRY_DELAY_BASE CSV_FILE_PATH w))
  end.

(** A world with another account of what failed writes leave. *)
Definition with_torn (torn : exn -> string -> DataFrame -> option DataFrame)
    (w : World) : World :=
  {| w_rand := w_rand w; w_rpos := w_rpos w; w_time := w_time w;
     w_hour := w_hour w; w_utc_iso := w_utc_iso w;
     w_float_repr := w_float_repr w;
     w_csv_round_trip := w_csv_round_trip w; w_torn := torn;
     w_faults := w_faults w; w_files := w_files w; w_durable := w_durable w;
     w_pending := w_pending w; w_trace := w_trace w;
     connection_healthy := connection_healthy w;
     last_reconnect_attempt := last_reconnect_attempt w;
     engine := engine w; stats := stats w;
     is_street_light_data := is_street_light_data w;
     mqtt_client := mqtt_client w; running := running w |}.

(** The frame read from a file cut short after its header line. *)
Definition header_only (df : DataFrame) : DataFrame :=
  {| df_columns := df_columns df; df_rows := [] |}.

(** The traffic table on a disk that fills up while the table is rewritten:
    the read and the publish go through, the write fails after the header
    line. *)
Definition full_disk_after_header : World :=
  with_torn (fun _ _ df => Some (header_only df))
    (set_w_faults [None; None; Some (OSError "No space left on device")]
       traffic_world).

Definition fexp64 (e : Z) : Z := fexp F64.prec F64.emax e.

(** The shift of the first rounding step. *)
Definition round_shift (mx ex : Z) : Z :=
  Z.max 0 (fexp64 (Zdigits2 mx + ex) - ex).

(** A finite number below [2 ^ j] in absolute value. *)
Definition below_pow2 (j : Z) (x : float) : Prop :=
  match x with
  | S754_zero _ => True
  | S754_finite _ m e => Zdigits2 (Z.pos m) + e <= j
  | _ => False
  end.

(** A finite number that is not negative (and not the negative zero). *)
Definition nonneg_finite (x : float) : Prop :=
  match x with
  | S754_zero false | S754_finite false _ _ => True
  | _ => False
  end.

(** A number as a cell of a numeric column holds it: a float, a boolean, or
    an integer of 64 bits. *)
Definition numeric_cell (v : pyval) : bool :=
  match v with
  | VFloat _ | VBool _ => true
  | VInt n => (- 2 ^ 63 <=? n) && (n <? 2 ^ 63)
  | VStr _ => false
  end.

(** [n] successive fluctuations of one cell of column [c]. *)
Fixpoint fluctuate_n (c : string) (column_type : pytype) (n : nat) (v : pyval)
  : M pyval :=
  match n with
  | O => ret v
  | S n' =>
      v' <- generate_fluctuation v column_type c ;;
      fluctuate_n c column_type n' v'
  end.

(** [int(n * c)] as a number; 0 where the conversion would raise. *)
Definition int_scaled (n : Z) (c : float) : Z :=
  match F64.trunc (F64.mul (F64.of_Z n) c) with
  | Some k => k
  | None => 0
  end.

(** The tables a cycle chooses from: the configured file if any, else every
    table file. *)
Definition candidate_files (CSV_FILE_PATH : option string) (w : World)
  : list string :=
  match CSV_FILE_PATH with
  | Some path => if String.eqb path "" then map fst (w_files w) else [path]
  | None => map fst (w_files w)
  end.

(** A table file with its header and no row. *)
Definition empty_df : DataFrame :=
  {| df_columns := ["id"; "location"; "is_occupied"]; df_rows := [] |}.

(** A data directory with ten tables. *)
Definition ten_tables : World :=
  quiet_world (2 ^ 52) 12
    (map (fun name => (name, parking_df))
       ["traffic_sensors"; "air_quality_sensors"; "noise_sensors";
        "weather_stations"; "smart_meters"; "waste_bins"; "parking_sensors";
        "street_lights"; "public_transport_trackers"; "surveillance_cameras"]).

(** What [random.sample] raises when asked for more than there is. *)
Definition nothing_to_sample : exn :=
  ValueError "Sample larger than population or is negative".

(** ** Vocabulary of the further properties *)

(** The value has the Python type the column declares. *)
Definition has_type (v : pyval) (ty : pytype) : bool :=
  match v, ty with
  | VInt _, TInt | VFloat _, TFloat | VBool _, TBool | VStr _, TStr => true
  | _, _ => false
  end.

(** The columns whose fluctuation is clamped from below at zero. *)
Definition clamped_columns : list string :=
  ["humidity"; "fill_level"; "ph"; "rainfall"; "electricity_usage";
   "water_usage"; "energy_consumption"].

Definition count_columns : list string :=
  ["vehicle_count"; "occupancy"; "object_count"].

(** The attempts and the waits of a retry loop whose first [n] attempts
    fail, [rc] failures having been counted before: a wait follows every
    failure but the one that reaches [MAX_RETRIES].  This is the loop of
    [read_csv], [write_csv] and [execute_query]. *)
Fixpoint attempts_and_waits (attempt_event : event) (MAX_RETRIES base : Z)
    (n : nat) (rc : Z) : list event :=
  match n with
  | O => []
  | S n' =>
      (attempt_event
         :: (if rc + 1 <? MAX_RETRIES then [EvSleep (base ^ (rc + 1))] else []))
      ++ attempts_and_waits attempt_event MAX_RETRIES base n' (rc + 1)
  end.

(** The next I/O attempt of a fault script succeeds. *)
Definition next_attempt_succeeds (faults : list (option exn)) : bool :=
  match faults with
  | [] | None :: _ => true
  | Some _ :: _ => false
  end.

(** The database errors of a fault script. *)
Definition database_errors (msgs : list string) : list (option exn) :=
  map (fun m => Some (SQLAlchemyError m)) msgs.

(** The sum of the counts of a dictionary. *)
Definition dict_sum (d : dict Z) : Z :=
  fold_right (fun kv a => snd kv + a) 0 d.

(** The bookkeeping of [DataSimulator.stats] adds up: every attempted
    update was counted successful or failed, no success without an attempt,
    and the successes per table add up to [updates_successful]. *)
Definition stats_consistent (s : Stats) : Prop :=
  0 <= updates_successful s <= updates_attempted s
  /\ updates_attempted s <= updates_successful s + updates_failed s
  /\ dict_sum (files_processed s) = updates_successful s.

(** No counter of [s'] is below its value in [s], and [s'] adds up if [s]
    does. *)
Definition stats_advance (s s' : Stats) : Prop :=
  (stats_consistent s -> stats_consistent s')
  /\ updates_attempted s <= updates_attempted s'
  /\ updates_successful s <= updates_successful s'
  /\ updates_failed s <= updates_failed s'.

(** What a pass over the table [t] that returns [b] makes of the
    counters. *)
Definition pass_outcome (t : string) (s s' : Stats) (b : bool) : Prop :=
  (b = false /\ (s' = s \/ s' = stats_failed s))
  \/ (b = true
      /\ exists now,
           s' = stats_touch now (stats_successful t (stats_attempted s))
           \/ s' = stats_touch now (stats_failed (stats_attempted s))).

(** The second world is the first one after some draws of the random
    source. *)
Definition drew (w w' : World) : Prop := exists n, w' = set_w_rpos n w.

(** The record carries its identifier as a string. *)
Definition has_string_id (record : dict pyval) : Prop :=
  exists s, dict_get "id" record = Some (VStr s).

(** The events of an idle iteration: probes of the database and waits. *)
Definition idle_event (e : event) : Prop :=
  match e with EvProbe | EvSleep _ => True | _ => False end.

(** A disk that refuses the next [n] writes. *)
Definition full_disk (n : nat) : World :=
  set_w_faults (repeat (Some (OSError "No space left on device")) n) parking_world.

(** A database that fails the next statements, the connection being up. *)
Definition failing_queries : World :=
  set_w_faults (None :: database_errors ["syntax error"; "syntax error"])
    (quiet_world 0 12 []).

(** A traffic table whose first relational update is rejected: the read,
    the publish, the write of the file and the health probe go through, the
    statement fails. *)
Definition rejected_update : World :=
  set_w_faults [None; None; None; None; Some (SQLAlchemyError "syntax error")]
    traffic_world.

(** A database that is down, five seconds after the last attempt to
    connect. *)
Definition database_down : World :=
  set_connection_healthy false (refusing_world 5).

(** A database that refuses two connections, then accepts. *)
Definition flaky_database : World :=
  set_w_faults (database_errors ["connection refused"; "connection refused"])
    (quiet_world 0 12 []).

Definition select_one : Stmt :=
  {| stmt_query := "SELECT 1"; stmt_params := [] |}.

(** A simulator asleep since its last recorded activity. *)
Definition asleep : ActivityState :=
  {| last_activity_time := F64.of_Z 1700000000; is_sleeping := true |}.

(** * Properties *)

(** ** Order facts on binary64 numbers *)

Lemma ltb_leb : forall x y : float, F64.ltb x y = true -> F64.leb x y = true.
Proof.
  intros x y. unfold F64.ltb, F64.leb, SFltb, SFleb.
  destruct (SFcompare x y) as [[ | | ] | ]; congruence.
Qed.

Lemma py_max_float_lower : forall x : float,
  F64.leb F64.zero (py_max_float F64.zero x) = true.
Proof.
  intros x. unfold py_max_float.
  destruct (F64.ltb F64.zero x) eqn:E.
  - now apply ltb_leb.
  - reflexivity.
Qed.

Lemma py_min_float_bounds : forall lo hi m : float,
  F64.leb lo hi = true -> F64.leb hi hi = true -> F64.leb lo m = true ->
  F64.leb lo (py_min_float hi m) = true /\ F64.leb (py_min_float hi m) hi = true.
Proof.
  intros lo hi m Hlh Hhh Hm. unfold py_min_float.
  destruct (F64.ltb m hi) eqn:E.
  - split; [assumption | now apply ltb_leb].
  - split; assumption.
Qed.

(** ** Running the monad *)

Ltac unfold_monad :=
  unfold emit in *;
  unfold bind, ret, get, modify, lift, raise, try_except, try_finally in *.

(** ** Lengths that [time.sleep] accepts *)

Lemma sleep_accepted : forall s, 0 <= s <= MAX_SLEEP -> sleep_error s = None.
Proof.
  intros s Hs. unfold sleep_error.
  destruct (Z.ltb_spec s 0); [lia | ].
  destruct (Z.ltb_spec MAX_SLEEP s); [lia | reflexivity].
Qed.

(** When the longest wait of a backoff is accepted, each of them is. *)
Lemma backoff_accepted : forall base top k,
  0 <= base -> base ^ top <= MAX_SLEEP -> 1 <= k <= top ->
  sleep_error (base ^ k) = None.
Proof.
  intros base top k Hb Htop Hk. apply sleep_accepted. split.
  - now apply Z.pow_nonneg.
  - destruct (Z.eq_dec base 0) as [-> | Hne].
    + rewrite Z.pow_0_l by lia. unfold MAX_SLEEP. lia.
    + etransitivity; [ | exact Htop]. apply Z.pow_le_mono_r; lia.
Qed.

(** C5. In the street-light table the fluctuation of the boolean [status]
    column is [True] exactly when the local hour lies in [18, 24) or in
    [0, 6), whatever the previous value. *)
Theorem street_light_status_by_hour : forall (value : pyval) (w : World),
  is_street_light_data w = true ->
  0 <= w_hour w < 24 ->
  exists b : bool,
    generate_fluctuation value TBool "status" w = (Ok (VBool b), w)
    /\ (b = true <-> (18 <= w_hour w < 24 \/ 0 <= w_hour w < 6)).
Proof.
  intros value w Hs Hh.
  exists ((18 <=? w_hour w) || (w_hour w <? 6)).
  split.
  - unfold generate_fluctuation. unfold_monad. rewrite Hs. reflexivity.
  - rewrite orb_true_iff, Z.leb_le, Z.ltb_lt. lia.
Qed.

Lemma street_light_status_by_hour_witness :
  exists b : bool,
    generate_fluctuation (VBool false) TBool "status"
      (set_is_street_light_data true (quiet_world 0 19 []))
    = (Ok (VBool b), set_is_street_light_data true (quiet_world 0 19 []))
    /\ (b = true <-> (18 <= 19 < 24 \/ 0 <= 19 < 6)).
Proof.
  apply (street_light_status_by_hour (VBool false)
           (set_is_street_light_data true (quiet_world 0 19 []))).
  - reflexivity.
  - simpl. lia.
Defined.

Lemma protected_unchanged : forall (c : string) (value : pyval)
    (column_type : pytype) (w : World),
  str_in c PROTECTED_COLUMNS = true ->
  generate_fluctuation value column_type c w = (Ok value, w).
Proof.
  intros c value column_type w Hc.
  assert (Hs : String.eqb c "status" = false).
  { destruct (String.eqb_spec c "status") as [-> | ]; [discriminate | reflexivity]. }
  unfold generate_fluctuation. unfold_monad. rewrite Hs, Hc. reflexivity.
Qed.

(** ** Relations that every step of a computation respects *)

Section Respects.

Variable R : World -> World -> Prop.
Hypothesis R_refl : forall w, R w w.
Hypothesis R_trans : forall a b c, R a b -> R b c -> R a c.

Lemma respects_ret : forall A (a : A), respects R (ret a).
Proof. intros A a w. apply R_refl. Qed.

Lemma respects_raise : forall A (e : exn), respects R (@raise A e).
Proof. intros A e w. apply R_refl. Qed.

Lemma respects_get : forall A (f : World -> A), respects R (get f).
Proof. intros A f w. apply R_refl. Qed.

Lemma respects_lift : forall A (r : res A), respects R (lift r).
Proof. intros A r w. apply R_refl. Qed.

Lemma respects_modify : forall f : World -> World,
  (forall w, R w (f w)) -> respects R (modify f).
Proof. intros f H w. apply H. Qed.

Lemma respects_bind : forall A B (m : M A) (k : A -> M B),
  respects R m -> (forall a, respects R (k a)) -> respects R (bind m k).
Proof.
  intros A B m k Hm Hk w. unfold bind.
  specialize (Hm w). destruct (m w) as [[a | e] w1]; simpl in *.
  - eapply R_trans; [exact Hm | apply Hk].
  - exact Hm.
Qed.

Lemma respects_try_except : forall A (m : M A) (h : exn -> M A),
  respects R m -> (forall e, respects R (h e)) -> respects R (try_except m h).
Proof.
  intros A m h Hm Hh w. unfold try_except.
  specialize (Hm w). destruct (m w) as [[a | e] w1]; simpl in *.
  - exact Hm.
  - eapply R_trans; [exact Hm | apply Hh].
Qed.

Lemma respects_try_finally : forall A (m : M A) (f : M unit),
  respects R m -> respects R f -> respects R (try_finally m f).
Proof.
  intros A m f Hm Hf w. unfold try_finally.
  specialize (Hm w). destruct (m w) as [r w1]; simpl in *.
  specialize (Hf w1). destruct (f w1) as [[u | e] w2]; simpl in *;
    eapply R_trans; eauto.
Qed.

End Respects.

Ltac intro_binder :=
  lazymatch goal with
  | |- forall _, _ => intro
  | _ => idtac
  end.

Ltac respects_step :=
  lazymatch goal with
  | |- respects _ (bind _ _) => apply respects_bind; try assumption; intro_binder
  | |- respects _ (ret _) => apply respects_ret; assumption
  | |- respects _ (raise _) => apply respects_raise; assumption
  | |- respects _ (get _) => apply respects_get; assumption
  | |- respects _ (lift _) => apply respects_lift; assumption
  | |- respects _ (try_except _ _) =>
      apply respects_try_except; try assumption; intro_binder
  | |- respects _ (try_finally _ _) =>
      apply respects_try_finally; try assumption
  | |- respects _ (match ?x with _ => _ end) => destruct x
  | |- respects _ (let _ := _ in _) => cbv zeta
  end.

Lemma same_refl : forall B (f : World -> B) w, same f w w.
Proof. reflexivity. Qed.

Lemma same_trans : forall B (f : World -> B) a b c,
  same f a b -> same f b c -> same f a c.
Proof. unfold same. intros. congruence. Qed.

(** The steps of the program respect a relation as soon as the field updates
    they are built from do.  [allowed] says which events the relation lets a
    step add to the trace. *)
Section Steps.

Variable R : World -> World -> Prop.
Hypothesis R_refl : forall w, R w w.
Hypothesis R_trans : forall a b c, R a b -> R b c -> R a c.

Variable allowed : event -> Prop.
Hypothesis R_trace : forall e w, allowed e -> R w (set_w_trace (w_trace w ++ [e]) w).
Hypothesis R_rpos : forall v w, R w (set_w_rpos v w).
Hypothesis R_time : forall v w, R w (set_w_time v w).
Hypothesis R_faults : forall v w, R w (set_w_faults v w).
Hypothesis R_pending : forall v w, R w (set_w_pending v w).
Hypothesis R_healthy : forall v w, R w (set_connection_healthy v w).
Hypothesis R_last : forall v w, R w (set_last_reconnect_attempt v w).
Hypothesis R_engine : forall v w, R w (set_engine v w).
Hypothesis R_street : forall v w, R w (set_is_street_light_data v w).
Hypothesis R_files : forall v w, R w (set_w_files v w).
Hypothesis R_durable : forall v w, R w (set_w_durable v w).
Hypothesis R_stats : forall v w, R w (set_stats v w).

Hypothesis allow_sleep : forall s, allowed (EvSleep s).
Hypothesis allow_probe : allowed EvProbe.
Hypothesis allow_read : forall p, allowed (EvCsvRead p).
Hypothesis allow_write : forall p df, allowed (EvCsvWrite p df).
Hypothesis allow_update : forall t d, allowed (EvUpdateSensorData t d).
Hypothesis allow_session :
  forall e, match e with
            | EvExecute _ | EvCommit | EvRollback | EvSessionClose => allowed e
            | _ => True
            end.
Hypothesis allow_publish :
  forall e, match e with
            | EvPublishToMqtt _ _ | EvMqttPublish _ _ => allowed e
            | _ => True
            end.

Local Ltac step := repeat (respects_step; try assumption).

Lemma respects_emit : forall e, allowed e -> respects R (emit e).
Proof. intros e He. apply respects_modify. intro w. now apply R_trace. Qed.

Lemma respects_attempt : respects R attempt.
Proof.
  intro w. unfold attempt.
  destruct (w_faults w) as [ | [e | ] fs]; simpl; auto.
Qed.

Lemma respects_sleep : forall s, respects R (sleep s).
Proof.
  intro s. unfold sleep. step.
  - now apply respects_emit.
  - apply respects_modify. intro w. apply R_time.
Qed.

Lemma respects_next_word : respects R next_word.
Proof. intro w. apply R_rpos. Qed.

Lemma respects_random_random : respects R random_random.
Proof. unfold random_random. step. apply respects_next_word. Qed.

Lemma respects_randbelow : forall n, respects R (randbelow n).
Proof. intro n. unfold randbelow. step. apply respects_next_word. Qed.

Lemma respects_random_randint : forall a b, respects R (random_randint a b).
Proof. intros a b. unfold random_randint. step. apply respects_randbelow. Qed.

Lemma respects_random_uniform : forall a b, respects R (random_uniform a b).
Proof. intros a b. unfold random_uniform. step. apply respects_random_random. Qed.

Lemma respects_sample_loop : forall A k (pool : list A),
  respects R (sample_loop k pool).
Proof.
  intros A k. induction k as [ | k IH]; intro pool; simpl.
  - step.
  - step; try apply respects_randbelow. apply IH.
Qed.

Lemma respects_random_sample : forall A (l : list A) k,
  respects R (random_sample l k).
Proof. intros A l k. unfold random_sample. step. apply respects_sample_loop. Qed.

Lemma respects_shuffle_loop : forall A i (l : list A),
  respects R (shuffle_loop i l).
Proof.
  intros A i. induction i as [ | i IH]; intro l.
  - simpl. step.
  - cbn [shuffle_loop]. step; [apply respects_randbelow | apply IH].
Qed.

Lemma respects_random_shuffle : forall A (l : list A),
  respects R (random_shuffle l).
Proof. intros A l. apply respects_shuffle_loop. Qed.

Lemma respects_jittered : forall v, respects R (jittered v).
Proof.
  intro v. unfold jittered, jitter. step. apply respects_random_uniform.
Qed.

Lemma respects_generate_fluctuation : forall v t c,
  respects R (generate_fluctuation v t c).
Proof.
  intros v t c. unfold generate_fluctuation.
  step; first [ apply respects_jittered | apply respects_random_random
              | apply respects_random_randint ].
Qed.

Lemma respects_py_str : forall v, respects R (py_str v).
Proof. intro v. unfold py_str. step. Qed.

Lemma respects_lookup : forall c row, respects R (lookup c row).
Proof. intros c row. unfold lookup. step. Qed.

Lemma respects_publish_to_mqtt : forall t r, respects R (publish_to_mqtt t r).
Proof.
  intros t r. unfold publish_to_mqtt.
  step; try apply respects_py_str; try apply respects_attempt;
    apply respects_emit; match goal with |- allowed ?e => apply (allow_publish e) end.
Qed.

Lemma respects_scaled_count : forall n c, respects R (scaled_count n c).
Proof. intros n c. unfold scaled_count. step. Qed.

Lemma respects_choose_count : forall n, respects R (choose_count n).
Proof.
  intro n. unfold choose_count.
  step; try apply respects_scaled_count. apply respects_random_randint.
Qed.

Lemma respects_fluctuate_columns : forall columns types row idx df record,
  respects R (fluctuate_columns columns types row idx df record).
Proof.
  intros columns types row idx.
  induction columns as [ | c columns IH]; intros df record; simpl.
  - step.
  - step; try apply IH; [apply respects_lookup | apply respects_generate_fluctuation].
Qed.

Lemma respects_mutate_rows : forall t types rows df ups,
  respects R (mutate_rows t types rows df ups).
Proof.
  intros t types rows.
  induction rows as [ | idx rows IH]; intros df ups; simpl.
  - step.
  - step; try apply IH;
      first [ apply respects_fluctuate_columns | apply respects_lookup
            | apply respects_py_str | apply respects_publish_to_mqtt ].
Qed.

Lemma respects_choose_rows : forall n, respects R (choose_rows n).
Proof.
  intro n. unfold choose_rows.
  step; [apply respects_choose_count | apply respects_random_sample].
Qed.

Section WithConfig.

Variables MAX_RETRIES RETRY_DELAY_BASE : Z.

Lemma respects_retry_or_raise : forall A retry_count e,
  respects R (@retry_or_raise MAX_RETRIES RETRY_DELAY_BASE A retry_count e).
Proof.
  intros A retry_count e. unfold retry_or_raise. step. apply respects_sleep.
Qed.

Lemma respects_read_csv : forall path,
  respects R (read_csv MAX_RETRIES RETRY_DELAY_BASE path).
Proof.
  intro path. unfold read_csv. generalize 0.
  induction (Z.to_nat MAX_RETRIES) as [ | fuel IH]; intro rc; simpl.
  - step.
  - step; try apply IH; try apply respects_retry_or_raise;
      try apply respects_attempt.
    apply respects_emit, allow_read.
Qed.

Lemma respects_mutate_table : forall t,
  respects R (mutate_table MAX_RETRIES RETRY_DELAY_BASE t).
Proof.
  intro t. unfold mutate_table.
  step; first [ apply respects_read_csv | apply respects_choose_rows
              | apply respects_mutate_rows
              | apply respects_modify; intro w; apply R_street ].
Qed.

Lemma respects_to_csv : forall path df, respects R (to_csv path df).
Proof.
  intros path df. unfold to_csv.
  step; try apply respects_attempt;
    apply respects_modify; intro w; apply R_files.
Qed.

Lemma respects_write_csv : forall path df,
  respects R (write_csv MAX_RETRIES RETRY_DELAY_BASE path df).
Proof.
  intros path df. unfold write_csv. generalize 0.
  induction (Z.to_nat MAX_RETRIES) as [ | fuel IH]; intro rc; simpl.
  - step.
  - step; try apply IH; try apply respects_retry_or_raise;
      try apply respects_to_csv.
    apply respects_emit, allow_write.
Qed.

Lemma respects_probe : respects R probe.
Proof.
  unfold probe. step; [apply respects_emit, allow_probe | apply respects_attempt].
Qed.

Lemma respects_connect_loop : forall fuel rc,
  respects R (connect_loop RETRY_DELAY_BASE fuel rc).
Proof.
  induction fuel as [ | fuel IH]; intro rc; simpl.
  - step. apply respects_modify. intro w. apply R_healthy.
  - step; try apply IH; try apply respects_probe; try apply respects_sleep;
      apply respects_modify; intro w; auto.
Qed.

Lemma respects_connect : respects R (connect MAX_RETRIES RETRY_DELAY_BASE).
Proof.
  unfold connect. step; try apply respects_connect_loop.
  apply respects_modify. intro w. apply R_last.
Qed.

Lemma respects_ensure_connected :
  respects R (ensure_connected MAX_RETRIES RETRY_DELAY_BASE).
Proof.
  unfold ensure_connected.
  step; try apply respects_connect; apply respects_probe.
Qed.

Lemma respects_session_execute : forall s, respects R (session_execute s).
Proof.
  intro s. unfold session_execute. step; try apply respects_attempt.
  - apply respects_emit, (allow_session (EvExecute s)).
  - apply respects_modify. intro w. apply R_pending.
Qed.

Lemma respects_execute_updates : forall t data,
  respects R (execute_updates t data).
Proof.
  intros t data. induction data as [ | r data IH]; simpl.
  - step.
  - step; try apply IH; try apply respects_py_str;
      apply respects_session_execute.
Qed.

Lemma respects_session_rollback : respects R session_rollback.
Proof.
  unfold session_rollback. step.
  - apply respects_emit, (allow_session EvRollback).
  - apply respects_modify. intro w. apply R_pending.
Qed.

Lemma respects_session_commit : respects R session_commit.
Proof.
  unfold session_commit. step; try apply respects_attempt.
  - apply respects_emit, (allow_session EvCommit).
  - apply respects_modify. intro w.
    eapply R_trans; [apply R_durable | apply R_pending].
Qed.

Lemma respects_update_records : forall t data,
  respects R (update_records MAX_RETRIES RETRY_DELAY_BASE t data).
Proof.
  intros t data. unfold update_records, session_close, session_open.
  step; try apply respects_ensure_connected;
    try apply respects_execute_updates; try apply respects_session_commit;
    try apply respects_session_rollback.
  - apply respects_modify. intro w. apply R_pending.
  - apply respects_modify. intro w. apply R_healthy.
  - apply respects_emit, (allow_session EvSessionClose).
Qed.

Lemma respects_update_sensor_data : forall t data,
  respects R (update_sensor_data MAX_RETRIES RETRY_DELAY_BASE t data).
Proof.
  intros t data. unfold update_sensor_data.
  step; [apply respects_emit, allow_update | apply respects_update_records].
Qed.

End WithConfig.

End Steps.

(** ** Frames: what the steps leave alone *)

Lemma bind_ok : forall A B (m : M A) (k : A -> M B) w b w',
  bind m k w = (Ok b, w') ->
  exists a w1, m w = (Ok a, w1) /\ k a w1 = (Ok b, w').
Proof.
  intros A B m k w b w' H. unfold bind in H.
  destruct (m w) as [[a | e] w1]; [eauto | discriminate].
Qed.

Lemma extends_refl : forall allowed w, extends allowed w w.
Proof. intros allowed w. exists []. split; [now rewrite app_nil_r | constructor]. Qed.

Lemma extends_trans : forall allowed a b c,
  extends allowed a b -> extends allowed b c -> extends allowed a c.
Proof.
  intros allowed a b c (e1 & H1 & F1) (e2 & H2 & F2).
  exists (e1 ++ e2)%list. split.
  - rewrite H2, H1. now rewrite app_assoc.
  - apply Forall_app. now split.
Qed.

Lemma extends_emit : forall (allowed : event -> Prop) e w,
  allowed e -> extends allowed w (set_w_trace (w_trace w ++ [e]) w).
Proof.
  intros allowed e w He. exists [e]. split; [reflexivity | now constructor].
Qed.

Lemma extends_same_trace : forall allowed w w',
  w_trace w' = w_trace w -> extends allowed w w'.
Proof.
  intros allowed w w' H. exists []. split; [now rewrite app_nil_r | constructor].
Qed.

Lemma mutate_table_extends : forall MAX_RETRIES RETRY_DELAY_BASE t w,
  extends mutation_event w (snd (mutate_table MAX_RETRIES RETRY_DELAY_BASE t w)).
Proof.
  intros MAX_RETRIES RETRY_DELAY_BASE t.
  change (respects (extends mutation_event)
            (mutate_table MAX_RETRIES RETRY_DELAY_BASE t)).
  apply respects_mutate_table with (allowed := mutation_event);
    try (intros; apply extends_same_trace; reflexivity);
    try (intros; exact I).
  - apply extends_trans.
  - apply extends_emit.
  - intros [ ]; exact I.
Qed.

Lemma mutate_table_stats : forall MAX_RETRIES RETRY_DELAY_BASE t w,
  stats (snd (mutate_table MAX_RETRIES RETRY_DELAY_BASE t w)) = stats w.
Proof.
  intros MAX_RETRIES RETRY_DELAY_BASE t.
  change (respects (same stats) (mutate_table MAX_RETRIES RETRY_DELAY_BASE t)).
  apply respects_mutate_table with (allowed := fun _ => True);
    intros; try reflexivity; try exact I.
  - eapply same_trans; eassumption.
  - destruct e; exact I.
Qed.

Lemma count_events_app : forall p a b,
  count_events p (a ++ b) = (count_events p a + count_events p b)%nat.
Proof. intros p a b. unfold count_events. now rewrite filter_app, length_app. Qed.

(** Steps that add nothing to the trace. *)
Section Silent.

Local Ltac silent_by lem :=
  first [apply lem with (allowed := fun _ => False) | apply lem];
  intros; try reflexivity; try contradiction;
  try (eapply same_trans; eassumption).

Lemma silent_fluctuate_columns : forall columns types row idx df record w,
  w_trace (snd (fluctuate_columns columns types row idx df record w)) = w_trace w.
Proof.
  intros columns types row idx df record.
  change (silent (fluctuate_columns columns types row idx df record)).
  silent_by respects_fluctuate_columns.
Qed.

Lemma silent_py_str : forall v w, w_trace (snd (py_str v w)) = w_trace w.
Proof.
  intros v. change (silent (py_str v)). silent_by respects_py_str.
Qed.

Lemma silent_lookup : forall c row w, w_trace (snd (lookup c row w)) = w_trace w.
Proof.
  intros c row. change (silent (lookup c row)). silent_by respects_lookup.
Qed.

Lemma silent_choose_rows : forall n w, w_trace (snd (choose_rows n w)) = w_trace w.
Proof.
  intros n. change (silent (choose_rows n)). silent_by respects_choose_rows.
Qed.

End Silent.

Lemma publish_to_mqtt_trace : forall t r w,
  exists b evs,
    fst (publish_to_mqtt t r w) = Ok b
    /\ w_trace (snd (publish_to_mqtt t r w))
       = (w_trace w ++ EvPublishToMqtt t r :: evs)%list
    /\ count_events is_publish_call evs = O.
Proof.
  intros t r w. unfold publish_to_mqtt. unfold_monad. simpl.
  destruct (mqtt_client w); simpl.
  - destruct (dict_get "id" r) as [v | ].
    + pose proof (silent_py_str v (set_w_trace (w_trace w ++ [EvPublishToMqtt t r]) w)) as Hs.
      destruct (py_str v _) as [[s | e] w1] eqn:E; simpl in *.
      * unfold attempt. simpl. rewrite Hs.
        destruct (w_faults w1) as [ | [e | ] fs]; simpl;
          eexists; eexists; (split; [reflexivity | ]);
          rewrite <- !app_assoc; simpl; split; reflexivity.
      * destruct v; discriminate.
    + unfold attempt. simpl.
      destruct (w_faults w) as [ | [e | ] fs]; simpl;
        eexists; eexists; (split; [reflexivity | ]);
        rewrite <- !app_assoc; simpl; split; reflexivity.
  - exists false, []. repeat split; reflexivity.
Qed.

(** Every selected row is announced once, and yields one record. *)
Lemma mutate_rows_publish : forall t types rows df ups w df' ups' w',
  mutate_rows t types rows df ups w = (Ok (df', ups'), w') ->
  exists evs,
    w_trace w' = (w_trace w ++ evs)%list
    /\ count_events is_publish_call evs = List.length rows
    /\ List.length ups' = (List.length ups + List.length rows)%nat.
Proof.
  intros t types rows.
  induction rows as [ | idx rows IH]; intros df ups w df' ups' w' H.
  - simpl in H. inversion H; subst. exists []. rewrite app_nil_r. simpl.
    repeat split; auto.
  - cbn [mutate_rows] in H.
    apply bind_ok in H as (row & w1 & H1 & H).
    assert (Hw1 : w1 = w).
    { destruct (nth_error (df_rows df) idx); inversion H1; reflexivity. }
    subst w1. clear H1.
    apply bind_ok in H as ([df1 rec1] & w2 & H2 & H).
    pose proof (silent_fluctuate_columns (df_columns df) types row idx df [] w) as S2.
    rewrite H2 in S2. simpl in S2.
    apply bind_ok in H as (id & w3 & H3 & H).
    pose proof (silent_lookup "id" row w2) as S3. rewrite H3 in S3. simpl in S3.
    apply bind_ok in H as (ids & w4 & H4 & H).
    pose proof (silent_py_str id w3) as S4. rewrite H4 in S4. simpl in S4.
    apply bind_ok in H as (df2 & w5 & H5 & H).
    assert (Hw5 : w5 = w4).
    { destruct (str_in "timestamp" (df_columns df1)); inversion H5; reflexivity. }
    subst w5. clear H5.
    apply bind_ok in H as (b & w6 & H6 & H).
    destruct (publish_to_mqtt_trace t (dict_set "id" (VStr ids) rec1) w4)
      as (b' & evs & _ & Ht & Hc).
    rewrite H6 in Ht. simpl in Ht.
    apply IH in H as (evs' & Ht' & Hc' & Hl).
    exists (EvPublishToMqtt t (dict_set "id" (VStr ids) rec1) :: evs ++ evs')%list.
    split; [ | split].
    + rewrite Ht', Ht, S4, S3, S2.
      rewrite <- app_assoc. reflexivity.
    + change (EvPublishToMqtt t (dict_set "id" (VStr ids) rec1) :: evs ++ evs')%list
        with ([EvPublishToMqtt t (dict_set "id" (VStr ids) rec1)] ++ (evs ++ evs'))%list.
      rewrite !count_events_app, Hc, Hc'. reflexivity.
    + rewrite Hl, length_app. simpl. lia.
Qed.

Lemma read_csv_extends : forall MAX_RETRIES RETRY_DELAY_BASE path w,
  extends read_event w (snd (read_csv MAX_RETRIES RETRY_DELAY_BASE path w)).
Proof.
  intros MAX_RETRIES RETRY_DELAY_BASE path.
  change (respects (extends read_event) (read_csv MAX_RETRIES RETRY_DELAY_BASE path)).
  apply respects_read_csv with (allowed := read_event);
    try (intros; apply extends_same_trace; reflexivity);
    try (intros; exact I).
  - apply extends_trans.
  - apply extends_emit.
Qed.

Lemma read_events_no_publish : forall evs,
  Forall read_event evs -> count_events is_publish_call evs = O.
Proof.
  induction 1 as [ | e evs He _ IH]; [reflexivity | ].
  unfold count_events in *. simpl. destruct e; simpl in *; try contradiction; exact IH.
Qed.

Lemma read_events_mutation : forall evs,
  Forall read_event evs -> Forall mutation_event evs.
Proof.
  intros evs H. eapply Forall_impl; [ | exact H].
  intros [ ]; simpl; auto.
Qed.

(** What the mutation phase of a table adds to the trace: reads, waits and
    publishes only, with one call of [publish_to_mqtt] per record. *)
Lemma mutate_table_trace : forall MAX_RETRIES RETRY_DELAY_BASE t w o df ups w1,
  mutate_table MAX_RETRIES RETRY_DELAY_BASE t w = (Ok (o, df, ups), w1) ->
  exists evs,
    w_trace w1 = (w_trace w ++ evs)%list
    /\ Forall mutation_event evs
    /\ count_events is_publish_call evs = List.length ups.
Proof.
  intros MAX_RETRIES RETRY_DELAY_BASE t w o df ups w1 H.
  pose proof (mutate_table_extends MAX_RETRIES RETRY_DELAY_BASE t w) as (evs & Hevs & Hall).
  rewrite H in Hevs. simpl in Hevs.
  exists evs. split; [exact Hevs | split; [exact Hall | ]].
  unfold mutate_table in H.
  apply bind_ok in H as ([] & w2 & H2 & H).
  assert (T2 : w_trace w2 = w_trace w) by (inversion H2; reflexivity).
  apply bind_ok in H as (odf & w3 & H3 & H).
  pose proof (read_csv_extends MAX_RETRIES RETRY_DELAY_BASE t w2) as (ev3 & T3 & F3).
  rewrite H3 in T3. simpl in T3.
  apply bind_ok in H as (df0 & w4 & H4 & H).
  assert (E4 : w4 = w3) by (destruct odf; inversion H4; reflexivity).
  subst w4. clear H4.
  apply bind_ok in H as (rows & w5 & H5 & H).
  pose proof (silent_choose_rows
                (List.length (df_rows (apply_mappings t df0))) w3) as T5.
  rewrite H5 in T5. simpl in T5.
  apply bind_ok in H as ([df1 ups1] & w6 & H6 & H).
  inversion H; subst; clear H.
  apply mutate_rows_publish in H6 as (ev6 & T6 & C6 & L6).
  rewrite T6, T5, T3, T2, <- app_assoc in Hevs.
  apply app_inv_head in Hevs. subst evs.
  rewrite count_events_app, C6, (read_events_no_publish _ F3).
  simpl in L6. lia.
Qed.

(** C1 (amended). When the mutation of a table ends with a frame equal to
    the original, the pass returns [False] in the state the mutation left:
    the counters [updates_attempted], [updates_successful] and
    [updates_failed] are unchanged, and the trace holds no tabular write and
    no call of [update_sensor_data], only reads, waits and publishes;
    [publish_to_mqtt] has been called once for every selected row. *)
Theorem unchanged_table_is_skipped :
  forall MAX_RETRIES RETRY_DELAY_BASE t w original_df df db_updates w1,
  mutate_table MAX_RETRIES RETRY_DELAY_BASE t w
    = (Ok (original_df, df, db_updates), w1) ->
  df_equals original_df df = true ->
  simulate_data_changes MAX_RETRIES RETRY_DELAY_BASE t w = (Ok false, w1)
  /\ stats w1 = stats w
  /\ exists evs,
       w_trace w1 = (w_trace w ++ evs)%list
       /\ Forall mutation_event evs
       /\ count_events is_publish_call evs = List.length db_updates.
Proof.
  intros MAX_RETRIES RETRY_DELAY_BASE t w original_df df db_updates w1 Hm Heq.
  split; [ | split].
  - unfold simulate_data_changes, try_except, bind. rewrite Hm.
    unfold persist. rewrite Heq. reflexivity.
  - pose proof (mutate_table_stats MAX_RETRIES RETRY_DELAY_BASE t w) as Hs.
    now rewrite Hm in Hs.
  - eapply mutate_table_trace. exact Hm.
Qed.

Lemma unchanged_table_is_skipped_witness :
  let w1 := snd (mutate_table 5 2 "parking_sensors" parking_world) in
  simulate_data_changes 5 2 "parking_sensors" parking_world = (Ok false, w1)
  /\ stats w1 = stats parking_world
  /\ exists evs,
       w_trace w1 = (w_trace parking_world ++ evs)%list
       /\ Forall mutation_event evs
       /\ count_events is_publish_call evs = List.length [parking_record].
Proof.
  apply (unchanged_table_is_skipped 5 2 "parking_sensors" parking_world
           parking_df parking_df [parking_record]).
  - vm_compute. reflexivity.
  - vm_compute. reflexivity.
Defined.

(** C1, as stated, fails: the parking table comes out of its mutation
    unchanged, no counter moves, and yet [publish_to_mqtt] has been called and
    the broker has received the record. *)
Lemma unchanged_table_still_published :
  fst (mutate_table 5 2 "parking_sensors" parking_world)
    = Ok (parking_df, parking_df, [parking_record])
  /\ df_equals parking_df parking_df = true
  /\ fst (simulate_data_changes 5 2 "parking_sensors" parking_world) = Ok false
  /\ stats (snd (simulate_data_changes 5 2 "parking_sensors" parking_world))
     = stats parking_world
  /\ w_trace (snd (simulate_data_changes 5 2 "parking_sensors" parking_world))
     = [ EvCsvRead "parking_sensors";
         EvPublishToMqtt "parking_sensors" parking_record;
         EvMqttPublish "city/parking_sensors/p1" parking_record ].
Proof. vm_compute. repeat split; reflexivity. Qed.

(** ** The two writes of a net change *)

Ltac frame_by lem :=
  first [apply lem with (allowed := fun _ => True) | apply lem];
  intros; try reflexivity; try exact I;
  try (eapply same_trans; eassumption);
  try match goal with |- match ?e with _ => _ end => destruct e; exact I end.

Lemma write_csv_stats : forall MAX_RETRIES RETRY_DELAY_BASE path df w,
  stats (snd (write_csv MAX_RETRIES RETRY_DELAY_BASE path df w)) = stats w.
Proof.
  intros MAX_RETRIES RETRY_DELAY_BASE path df.
  change (respects (same stats) (write_csv MAX_RETRIES RETRY_DELAY_BASE path df)).
  frame_by respects_write_csv.
Qed.

Lemma write_csv_durable : forall MAX_RETRIES RETRY_DELAY_BASE path df w,
  w_durable (snd (write_csv MAX_RETRIES RETRY_DELAY_BASE path df w)) = w_durable w.
Proof.
  intros MAX_RETRIES RETRY_DELAY_BASE path df.
  change (respects (same w_durable) (write_csv MAX_RETRIES RETRY_DELAY_BASE path df)).
  frame_by respects_write_csv.
Qed.

Lemma update_sensor_data_stats : forall MAX_RETRIES RETRY_DELAY_BASE t data w,
  stats (snd (update_sensor_data MAX_RETRIES RETRY_DELAY_BASE t data w)) = stats w.
Proof.
  intros MAX_RETRIES RETRY_DELAY_BASE t data.
  change (respects (same stats)
            (update_sensor_data MAX_RETRIES RETRY_DELAY_BASE t data)).
  frame_by respects_update_sensor_data.
Qed.

Lemma update_sensor_data_files : forall MAX_RETRIES RETRY_DELAY_BASE t data w,
  w_files (snd (update_sensor_data MAX_RETRIES RETRY_DELAY_BASE t data w)) = w_files w.
Proof.
  intros MAX_RETRIES RETRY_DELAY_BASE t data.
  change (respects (same w_files)
            (update_sensor_data MAX_RETRIES RETRY_DELAY_BASE t data)).
  frame_by respects_update_sensor_data.
Qed.

Lemma write_csv_extends : forall MAX_RETRIES RETRY_DELAY_BASE path df w,
  extends csv_event w (snd (write_csv MAX_RETRIES RETRY_DELAY_BASE path df w)).
Proof.
  intros MAX_RETRIES RETRY_DELAY_BASE path df.
  change (respects (extends csv_event)
            (write_csv MAX_RETRIES RETRY_DELAY_BASE path df)).
  apply respects_write_csv with (allowed := csv_event);
    try (intros; apply extends_same_trace; reflexivity);
    try (intros; exact I).
  - apply extends_trans.
  - apply extends_emit.
Qed.

Lemma update_sensor_data_announced :
  forall MAX_RETRIES RETRY_DELAY_BASE t data w,
  exists evs,
    w_trace (snd (update_sensor_data MAX_RETRIES RETRY_DELAY_BASE t data w))
    = (w_trace w ++ EvUpdateSensorData t data :: evs)%list.
Proof.
  intros MAX_RETRIES RETRY_DELAY_BASE t data w.
  assert (H : respects (extends (fun _ => True))
                (update_records MAX_RETRIES RETRY_DELAY_BASE t data)).
  { apply respects_update_records with (allowed := fun _ => True);
      try (intros; apply extends_same_trace; reflexivity);
      try (intros; exact I).
    - apply extends_trans.
    - apply extends_emit.
    - intros [ ]; exact I. }
  unfold update_sensor_data. unfold bind at 1. unfold emit, modify.
  destruct (H (set_w_trace (w_trace w ++ [EvUpdateSensorData t data]) w))
    as (evs & He & _).
  exists evs. rewrite He. simpl. now rewrite <- app_assoc.
Qed.

Lemma dict_set_set : forall V (k : string) (v v' : V) (d : dict V),
  dict_set k v (dict_set k v' d) = dict_set k v d.
Proof.
  intros V k v v' d. induction d as [ | [k0 v0] d IH]; simpl.
  - now rewrite String.eqb_refl.
  - destruct (String.eqb k k0) eqn:E; simpl; rewrite E; [reflexivity | ].
    now rewrite IH.
Qed.

Lemma sleep_env : forall s w,
  w_files (snd (sleep s w)) = w_files w
  /\ w_torn (snd (sleep s w)) = w_torn w
  /\ w_csv_round_trip (snd (sleep s w)) = w_csv_round_trip w.
Proof.
  intros s w. unfold sleep. destruct (sleep_error s); repeat split.
Qed.

(** The table files after [to_csv]: the file of [path] holds the frame read
    back from the new text if the write succeeded; a write that failed
    touches no file but that of [path], and none at all when it left no
    partial file. *)
Lemma to_csv_files : forall path df w,
  let (r, w') := to_csv path df w in
  w_torn w' = w_torn w
  /\ w_csv_round_trip w' = w_csv_round_trip w
  /\ match r with
     | Ok _ => w_files w' = dict_set path (w_csv_round_trip w df) (w_files w)
     | Raise _ =>
         (w_files w' = w_files w
          \/ exists d, w_files w' = dict_set path d (w_files w))
         /\ ((forall e, w_torn w e path df = None) -> w_files w' = w_files w)
     end.
Proof.
  intros path df w. unfold to_csv.
  unfold try_except, bind, modify, get, attempt, ret, raise.
  destruct (w_faults w) as [ | [e | ] fs]; cbn.
  - repeat split.
  - destruct (w_torn w e path df) as [d | ] eqn:Et; cbn.
    + split; [reflexivity | ]. split; [reflexivity | ].
      split; [right; exists d; reflexivity | ].
      intro H. rewrite H in Et. discriminate.
    + split; [reflexivity | ]. split; [reflexivity | ].
      split; [left; reflexivity | reflexivity].
  - repeat split.
Qed.

(** The table files after the write loop. *)
Lemma write_csv_loop_files :
  forall MAX_RETRIES RETRY_DELAY_BASE path df fuel rc w,
  let (r, w') := write_csv_loop MAX_RETRIES RETRY_DELAY_BASE fuel rc path df w in
  w_torn w' = w_torn w
  /\ w_csv_round_trip w' = w_csv_round_trip w
  /\ (w_files w' = w_files w \/ exists d, w_files w' = dict_set path d (w_files w))
  /\ (returned_true r = true ->
      w_files w' = dict_set path (w_csv_round_trip w df) (w_files w))
  /\ (returned_true r = false ->
      (forall e, w_torn w e path df = None) -> w_files w' = w_files w).
Proof.
  intros MAX_RETRIES RETRY_DELAY_BASE path df fuel.
  induction fuel as [ | fuel IH]; intros rc w.
  - cbn. repeat split; auto. discriminate.
  - cbn [write_csv_loop]. unfold bind at 1. unfold try_except.
    unfold bind at 1. unfold emit, modify.
    set (w0 := set_w_trace (w_trace w ++ [EvCsvWrite path df]) w).
    pose proof (to_csv_files path df w0) as Hc.
    change (w_torn w0) with (w_torn w) in Hc.
    change (w_csv_round_trip w0) with (w_csv_round_trip w) in Hc.
    change (w_files w0) with (w_files w) in Hc.
    clearbody w0. unfold bind at 1.
    destruct (to_csv path df w0) as [[[] | e] w1].
    + destruct Hc as (Ht & Hr & Hf). cbn.
      split; [exact Ht | ]. split; [exact Hr | ].
      split; [right; eauto | ]. split; [intros _; exact Hf | discriminate].
    + destruct Hc as (Ht1 & Hr1 & Hf1 & Hn1).
      unfold retry_or_raise.
      destruct (rc + 1 <? MAX_RETRIES).
      * unfold bind at 1.
        pose proof (sleep_env (RETRY_DELAY_BASE ^ (rc + 1)) w1) as (Hsf & Hst & Hsr).
        destruct (sleep (RETRY_DELAY_BASE ^ (rc + 1)) w1) as [[[] | e'] w2];
          cbn [fst snd] in *.
        -- unfold ret at 1.
           specialize (IH (rc + 1) w2).
           destruct (write_csv_loop MAX_RETRIES RETRY_DELAY_BASE fuel (rc + 1)
                       path df w2) as [r w3].
           destruct IH as (Ht & Hr & Hf & Hok & Hno).
           split; [congruence | ]. split; [congruence | ]. split; [ | split].
           ++ destruct Hf as [Hf | (d & Hf)]; rewrite Hf, Hsf.
              ** exact Hf1.
              ** right. destruct Hf1 as [-> | (d1 & ->)]; eauto.
                 exists d. apply dict_set_set.
           ++ intro H. rewrite (Hok H), Hsr, Hr1, Hsf.
              destruct Hf1 as [-> | (d1 & ->)]; [reflexivity | apply dict_set_set].
           ++ intros H Hn. rewrite Hno; auto.
              ** rewrite Hsf. now apply Hn1.
              ** intro e0. rewrite Hst, Ht1. apply Hn.
        -- split; [congruence | ]. split; [congruence | ].
           rewrite Hsf. split; [exact Hf1 | ]. split; [discriminate | ].
           intros _. exact Hn1.
      * cbn. split; [exact Ht1 | ]. split; [exact Hr1 | ].
        split; [exact Hf1 | ]. split; [discriminate | ]. intros _. exact Hn1.
Qed.

(** The table file after [write_csv]. *)
Lemma write_csv_files : forall MAX_RETRIES RETRY_DELAY_BASE path df w,
  let (r, w') := write_csv MAX_RETRIES RETRY_DELAY_BASE path df w in
  w_torn w' = w_torn w
  /\ w_csv_round_trip w' = w_csv_round_trip w
  /\ (w_files w' = w_files w \/ exists d, w_files w' = dict_set path d (w_files w))
  /\ (returned_true r = true ->
      w_files w' = dict_set path (w_csv_round_trip w df) (w_files w))
  /\ (returned_true r = false ->
      (forall e, w_torn w e path df = None) -> w_files w' = w_files w).
Proof.
  intros. unfold write_csv. apply write_csv_loop_files.
Qed.

(** [write_csv] returns a falsy value only when its loop body never runs. *)
Lemma write_csv_loop_not_false :
  forall MAX_RETRIES RETRY_DELAY_BASE path df fuel rc w,
  (0 < fuel)%nat ->
  rc + Z.of_nat fuel = MAX_RETRIES ->
  fst (write_csv_loop MAX_RETRIES RETRY_DELAY_BASE fuel rc path df w) <> Ok false.
Proof.
  intros MAX_RETRIES RETRY_DELAY_BASE path df fuel.
  induction fuel as [ | fuel IH]; intros rc w Hpos Hfuel; [lia | ].
  cbn [write_csv_loop]. unfold bind at 1. unfold try_except.
  unfold bind at 1. unfold emit, modify. unfold bind at 1.
  destruct (to_csv path df _) as [[[] | e] w1]; [cbn; discriminate | ].
  unfold retry_or_raise.
  destruct (Z.ltb_spec (rc + 1) MAX_RETRIES) as [Hlt | Hge]; [ | cbn; discriminate].
  unfold bind at 1.
  destruct (sleep (RETRY_DELAY_BASE ^ (rc + 1)) w1) as [[[] | e'] w2];
    [ | cbn; discriminate].
  unfold ret at 1. apply IH; lia.
Qed.

Lemma write_csv_false : forall MAX_RETRIES RETRY_DELAY_BASE path df w w2,
  write_csv MAX_RETRIES RETRY_DELAY_BASE path df w = (Ok false, w2) -> w2 = w.
Proof.
  intros MAX_RETRIES RETRY_DELAY_BASE path df w w2 H. unfold write_csv in H.
  destruct (Z.to_nat MAX_RETRIES) as [ | fuel] eqn:E.
  - cbn in H. now inversion H.
  - exfalso.
    apply (write_csv_loop_not_false MAX_RETRIES RETRY_DELAY_BASE path df
             (S fuel) 0 w); [lia | lia | ].
    now rewrite H.
Qed.

(** C4 (amended). For a table with a net change the tabular write is
    attempted first.  If it gives up (it raises after the last retry) the
    relational write is not attempted and the pass is counted failed.  If it
    returns, the relational write is attempted whatever it returned, the
    table file stays as the tabular write left it whatever the database
    does, and the pass is counted successful exactly when both writes
    returned [True], failed otherwise. *)
Theorem net_change_both_writes :
  forall MAX_RETRIES RETRY_DELAY_BASE t w original_df df db_updates w1,
  mutate_table MAX_RETRIES RETRY_DELAY_BASE t w
    = (Ok (original_df, df, db_updates), w1) ->
  df_equals original_df df = false ->
  db_updates <> [] ->
  let (csv, w2) := write_csv MAX_RETRIES RETRY_DELAY_BASE t df w1 in
  let (result, w') := simulate_data_changes MAX_RETRIES RETRY_DELAY_BASE t w in
  match csv with
  | Raise _ =>
      result = Ok false
      /\ w_trace w' = w_trace w2
      /\ w_files w' = w_files w2
      /\ w_durable w' = w_durable w1
      /\ updates_attempted (stats w') = updates_attempted (stats w)
      /\ updates_successful (stats w') = updates_successful (stats w)
      /\ updates_failed (stats w') = updates_failed (stats w) + 1
  | Ok csv_result =>
      let (db, w3) := update_sensor_data MAX_RETRIES RETRY_DELAY_BASE t db_updates w2 in
      let both := csv_result && returned_true db in
      (exists evs,
         w_trace w3 = (w_trace w2 ++ EvUpdateSensorData t db_updates :: evs)%list)
      /\ w_trace w' = w_trace w3
      /\ w_files w' = w_files w2
      /\ w_files w'
         = (if csv_result
            then dict_set t (w_csv_round_trip w1 df) (w_files w1)
            else w_files w1)
      /\ w_durable w' = w_durable w3
      /\ result = Ok (returned db)
      /\ updates_successful (stats w')
         = updates_successful (stats w) + (if both then 1 else 0)
      /\ updates_failed (stats w')
         = updates_failed (stats w) + (if both then 0 else 1)
  end.
Proof.
  intros MAX_RETRIES RETRY_DELAY_BASE t w original_df df db_updates w1 Hm Hne Hups.
  pose proof (mutate_table_stats MAX_RETRIES RETRY_DELAY_BASE t w) as Hs.
  rewrite Hm in Hs. simpl in Hs.
  pose proof (write_csv_stats MAX_RETRIES RETRY_DELAY_BASE t df w1) as Hs2.
  pose proof (write_csv_files MAX_RETRIES RETRY_DELAY_BASE t df w1) as Hf2.
  pose proof (write_csv_durable MAX_RETRIES RETRY_DELAY_BASE t df w1) as Hd2.
  pose proof (write_csv_false MAX_RETRIES RETRY_DELAY_BASE t df w1) as Hfalse.
  unfold simulate_data_changes, try_except. unfold bind at 1. rewrite Hm.
  unfold persist. rewrite Hne.
  destruct db_updates as [ | u ups]; [congruence | ].
  cbn [List.length Nat.eqb negb andb].
  unfold bind at 1.
  destruct (write_csv MAX_RETRIES RETRY_DELAY_BASE t df w1) as [[c | e] w2];
    cbn [fst snd returned_true] in *.
  - assert (Hf2' : w_files w2
                   = (if c then dict_set t (w_csv_round_trip w1 df) (w_files w1)
                      else w_files w1)).
    { destruct c.
      - destruct Hf2 as (_ & _ & _ & Hok & _). now apply Hok.
      - now rewrite (Hfalse w2 eq_refl). }
    clear Hf2 Hfalse.
    pose proof (update_sensor_data_stats MAX_RETRIES RETRY_DELAY_BASE t (u :: ups) w2) as Hs3.
    pose proof (update_sensor_data_files MAX_RETRIES RETRY_DELAY_BASE t (u :: ups) w2) as Hf3.
    pose proof (update_sensor_data_announced MAX_RETRIES RETRY_DELAY_BASE t (u :: ups) w2) as Ha.
    unfold bind at 1.
    destruct (update_sensor_data MAX_RETRIES RETRY_DELAY_BASE t (u :: ups) w2)
      as [[d | e] w3]; cbn [fst snd] in *.
    + unfold update_stats. unfold_monad.
      destruct c, d; cbn in *; rewrite ?Hf3, ?Hs3, ?Hs2, ?Hs;
        (split; [exact Ha | ]); repeat split; try reflexivity; try assumption;
        try lia.
    + unfold update_stats. unfold_monad.
      destruct c; cbn in *; rewrite ?Hf3, ?Hs3, ?Hs2, ?Hs;
        (split; [exact Ha | ]); repeat split; try reflexivity; try assumption;
        try lia.
  - unfold update_stats. unfold_monad. cbn in *.
    rewrite ?Hd2, ?Hs2, ?Hs. repeat split; reflexivity.
Qed.

Lemma net_change_both_writes_witness :
  let w := traffic_world in
  let w1 := snd (mutate_table 5 2 "traffic_sensors" traffic_world) in
  let t := "traffic_sensors" in
  let df := traffic_df_mutated in
  let db_updates := [traffic_record] in
  let (csv, w2) := write_csv 5 2 t df w1 in
  let (result, w') := simulate_data_changes 5 2 t w in
  match csv with
  | Raise _ =>
      result = Ok false
      /\ w_trace w' = w_trace w2
      /\ w_files w' = w_files w2
      /\ w_durable w' = w_durable w1
      /\ updates_attempted (stats w') = updates_attempted (stats w)
      /\ updates_successful (stats w') = updates_successful (stats w)
      /\ updates_failed (stats w') = updates_failed (stats w) + 1
  | Ok csv_result =>
      let (db, w3) := update_sensor_data 5 2 t db_updates w2 in
      let both := csv_result && returned_true db in
      (exists evs,
         w_trace w3 = (w_trace w2 ++ EvUpdateSensorData t db_updates :: evs)%list)
      /\ w_trace w' = w_trace w3
      /\ w_files w' = w_files w2
      /\ w_files w'
         = (if csv_result
            then dict_set t (w_csv_round_trip w1 df) (w_files w1)
            else w_files w1)
      /\ w_durable w' = w_durable w3
      /\ result = Ok (returned db)
      /\ updates_successful (stats w')
         = updates_successful (stats w) + (if both then 1 else 0)
      /\ updates_failed (stats w')
         = updates_failed (stats w) + (if both then 0 else 1)
  end.
Proof.
  apply (net_change_both_writes 5 2 "traffic_sensors" traffic_world
           traffic_df traffic_df_mutated [traffic_record]
           (snd (mutate_table 5 2 "traffic_sensors" traffic_world))).
  - vm_compute. reflexivity.
  - vm_compute. reflexivity.
  - discriminate.
Defined.

(** C4, as stated, fails: when every attempt of the tabular write fails,
    the pass is counted failed without the relational write being tried. *)
Lemma failed_tabular_write_skips_database :
  let w := set_w_faults
             ([None; None] ++ repeat (Some (OSError "No space left on device")) 5)
             traffic_world in
  let w' := snd (simulate_data_changes 5 2 "traffic_sensors" w) in
  fst (mutate_table 5 2 "traffic_sensors" w)
    = Ok (traffic_df, traffic_df_mutated, [traffic_record])
  /\ df_equals traffic_df traffic_df_mutated = false
  /\ count_events is_update_call (w_trace w') = O
  /\ existsb (fun e => match e with EvCsvWrite _ _ => true | _ => false end)
       (w_trace w') = true
  /\ updates_failed (stats w') = 1
  /\ updates_attempted (stats w') = 0.
Proof. vm_compute. repeat split; reflexivity. Qed.

(** ** Dictionaries *)

Lemma dict_get_set_other : forall V (k c : string) (v : V) (d : dict V),
  k <> c -> dict_get k (dict_set c v d) = dict_get k d.
Proof.
  intros V k c v d Hk. induction d as [ | [k' v'] d IH]; simpl.
  - destruct (String.eqb_spec k c); [contradiction | reflexivity].
  - destruct (String.eqb_spec c k') as [-> | Hc]; simpl.
    + destruct (String.eqb_spec k k'); [contradiction | reflexivity].
    + destruct (String.eqb_spec k k'); [reflexivity | exact IH].
Qed.

Lemma dict_get_set_eq : forall V (k : string) (v : V) (d : dict V),
  dict_get k (dict_set k v d) = Some v.
Proof.
  intros V k v d. induction d as [ | [k' v'] d IH]; simpl.
  - now rewrite String.eqb_refl.
  - destruct (String.eqb_spec k k') as [-> | Hk]; simpl.
    + now rewrite String.eqb_refl.
    + destruct (String.eqb_spec k k'); [contradiction | exact IH].
Qed.

Lemma dict_get_filter_other : forall (k x : string) (record : dict pyval),
  k <> x ->
  dict_get k (filter (fun kv => negb (String.eqb (fst kv) x)) record)
  = dict_get k record.
Proof.
  intros k x record Hk. induction record as [ | [k' v'] record IH]; simpl; auto.
  destruct (String.eqb_spec k' x) as [-> | Hx]; simpl.
  - destruct (String.eqb_spec k x); [contradiction | exact IH].
  - destruct (String.eqb k k'); [reflexivity | exact IH].
Qed.

Lemma dict_get_absent : forall V (k : string) (d : dict V),
  ~ In k (map fst d) -> dict_get k d = None.
Proof.
  intros V k d. induction d as [ | [k' v'] d IH]; simpl; intro H; auto.
  destruct (String.eqb_spec k k') as [-> | Hk]; [tauto | apply IH; tauto].
Qed.

Lemma bound_values : forall (l : dict pyval) (acc : dict param) (k : string),
  NoDup (map fst l) ->
  dict_get k (fold_left (fun ps kv => dict_set (fst kv) (PVal (snd kv)) ps) l acc)
  = match dict_get k l with
    | Some v => Some (PVal v)
    | None => dict_get k acc
    end.
Proof.
  induction l as [ | [k' v'] l IH]; intros acc k Hnd; [reflexivity | ].
  inversion Hnd as [ | x xs Hnotin Hnd']; subst.
  cbn [fold_left fst snd]. rewrite IH by exact Hnd'.
  cbn [dict_get]. destruct (String.eqb_spec k k') as [-> | Hk].
  - rewrite dict_get_absent by exact Hnotin. apply dict_get_set_eq.
  - destruct (dict_get k l); [reflexivity | now apply dict_get_set_other].
Qed.

Lemma NoDup_filter_keys : forall (p : string * pyval -> bool) (l : dict pyval),
  NoDup (map fst l) -> NoDup (map fst (filter p l)).
Proof.
  intros p l. induction l as [ | [k v] l IH]; simpl; intro H; [constructor | ].
  inversion H as [ | x xs Hnotin Hnd]; subst.
  destruct (p (k, v)); simpl; [ | now apply IH].
  constructor; [ | now apply IH].
  intro Hin. apply Hnotin. apply in_map_iff in Hin as ([k0 v0] & E & Hin).
  apply filter_In in Hin as [Hin _]. apply in_map_iff. now exists (k0, v0).
Qed.

(** ** The relational update is one transaction *)

Lemma py_str_pure : forall v w, exists s, py_str v w = (Ok s, w).
Proof. intros [n | x | b | s] w; unfold py_str; unfold_monad; eauto. Qed.








Lemma ensure_connected_durable : forall MAX_RETRIES RETRY_DELAY_BASE w,
  w_durable (snd (ensure_connected MAX_RETRIES RETRY_DELAY_BASE w)) = w_durable w.
Proof.
  intros MAX_RETRIES RETRY_DELAY_BASE.
  change (respects (same w_durable) (ensure_connected MAX_RETRIES RETRY_DELAY_BASE)).
  frame_by respects_ensure_connected.
Qed.







(** ** Connecting when every probe fails *)

Lemma connect_loop_exhausted : forall RETRY_DELAY_BASE fuel rc w,
  0 <= RETRY_DELAY_BASE ->
  RETRY_DELAY_BASE ^ (rc + Z.of_nat fuel) <= MAX_SLEEP ->
  0 <= rc ->
  all_probes_fail fuel (w_faults w) = true ->
  let (r, w') := connect_loop RETRY_DELAY_BASE fuel rc w in
  r = Ok false
  /\ connection_healthy w' = false
  /\ last_reconnect_attempt w' = last_reconnect_attempt w
  /\ w_trace w' = (w_trace w ++ retry_events RETRY_DELAY_BASE fuel rc)%list.
Proof.
  intros RETRY_DELAY_BASE fuel.
  induction fuel as [ | fuel IH]; intros rc w Hb Htop Hrc Hf.
  - cbn. rewrite app_nil_r. repeat split.
  - cbn [connect_loop all_probes_fail retry_events] in *.
    destruct (w_faults w) as [ | [[ | | | | | | msg] | ] fs] eqn:Ef; try discriminate.
    unfold probe, sleep.
    rewrite (backoff_accepted RETRY_DELAY_BASE (rc + Z.of_nat (S fuel)) (rc + 1))
      by (assumption || lia).
    unfold_monad. unfold attempt. cbn [w_faults set_w_trace set_engine].
    rewrite Ef. cbn [fst snd].
    match goal with |- context [connect_loop _ fuel _ ?w0] =>
      specialize (IH (rc + 1) w0 Hb);
      destruct (connect_loop RETRY_DELAY_BASE fuel (rc + 1) w0) as [r w']
    end.
    destruct IH as (Hr & Hh & Hl & Ht); try assumption; try lia.
    { replace (rc + 1 + Z.of_nat fuel) with (rc + Z.of_nat (S fuel)) by lia.
      exact Htop. }
    subst r. cbn in Hl, Ht.
    repeat split; try assumption.
    rewrite Ht. rewrite <- !app_assoc. reflexivity.
Qed.

(** C7 (amended). Within ten seconds of the previous attempt [connect]
    does not probe: it answers with the [connection_healthy] flag it finds
    and changes nothing.  Otherwise, when the backoff base is not negative,
    the longest wait [RETRY_DELAY_BASE ** MAX_RETRIES] is one [time.sleep]
    accepts and each of the [MAX_RETRIES] probes fails with a database
    error, [connect] probes [MAX_RETRIES] times, waits
    [RETRY_DELAY_BASE ** k] seconds after the [k]-th failure, then returns
    [False] with [connection_healthy] false; it raises nothing. *)
Theorem connect_exhausts_retries : forall MAX_RETRIES RETRY_DELAY_BASE w,
  0 <= RETRY_DELAY_BASE ->
  RETRY_DELAY_BASE ^ MAX_RETRIES <= MAX_SLEEP ->
  let (r, w') := connect MAX_RETRIES RETRY_DELAY_BASE w in
  if F64.ltb (F64.sub (w_time w) (last_reconnect_attempt w)) (F64.of_Z 10)
  then r = Ok (connection_healthy w) /\ w' = w
  else
    all_probes_fail (Z.to_nat MAX_RETRIES) (w_faults w) = true ->
    r = Ok false
    /\ connection_healthy w' = false
    /\ last_reconnect_attempt w' = w_time w
    /\ w_trace w'
       = (w_trace w ++ retry_events RETRY_DELAY_BASE (Z.to_nat MAX_RETRIES) 0)%list.
Proof.
  intros MAX_RETRIES RETRY_DELAY_BASE w Hb Htop.
  unfold connect. unfold_monad.
  destruct (F64.ltb (F64.sub (w_time w) (last_reconnect_attempt w)) (F64.of_Z 10)).
  - split; reflexivity.
  - destruct (Z.to_nat MAX_RETRIES) as [ | fuel] eqn:Efuel.
    + cbn. intros _. rewrite app_nil_r. repeat split.
    + pose proof (connect_loop_exhausted RETRY_DELAY_BASE (S fuel) 0
                    (set_last_reconnect_attempt (w_time w) w) Hb) as H.
      destruct (connect_loop RETRY_DELAY_BASE (S fuel) 0
                  (set_last_reconnect_attempt (w_time w) w)) as [r w'].
      intro Hf. apply H; try assumption; try lia.
      replace (0 + Z.of_nat (S fuel)) with MAX_RETRIES by lia. exact Htop.
Qed.

Lemma connect_exhausts_retries_witness :
  F64.ltb (F64.sub (w_time (refusing_world 60))
             (last_reconnect_attempt (refusing_world 60))) (F64.of_Z 10) = false
  /\ all_probes_fail (Z.to_nat 5) (w_faults (refusing_world 60)) = true
  /\ let (r, w') := connect 5 2 (refusing_world 60) in
     if F64.ltb (F64.sub (w_time (refusing_world 60))
                   (last_reconnect_attempt (refusing_world 60))) (F64.of_Z 10)
     then r = Ok (connection_healthy (refusing_world 60)) /\ w' = refusing_world 60
     else
       all_probes_fail (Z.to_nat 5) (w_faults (refusing_world 60)) = true ->
       r = Ok false
       /\ connection_healthy w' = false
       /\ last_reconnect_attempt w' = w_time (refusing_world 60)
       /\ w_trace w'
          = (w_trace (refusing_world 60) ++ retry_events 2 (Z.to_nat 5) 0)%list.
Proof.
  split; [vm_compute; reflexivity | ].
  split; [vm_compute; reflexivity | ].
  apply (connect_exhausts_retries 5 2 (refusing_world 60)).
  - lia.
  - unfold MAX_SLEEP. cbn. lia.
Defined.

(** C7, as stated, fails: within ten seconds of the previous attempt
    [connect] does not probe at all and answers with the flag it finds,
    here [True], although every probe would fail. *)
Lemma connect_within_cooldown :
  all_probes_fail 5 (w_faults (refusing_world 5)) = true
  /\ connect 5 2 (refusing_world 5) = (Ok true, refusing_world 5)
  /\ connection_healthy (refusing_world 5) = true
  /\ w_trace (refusing_world 5) = [].
Proof. vm_compute. repeat split; reflexivity. Qed.

(** ** The scheduler tick *)

(** C9. After a tick: without a newer signal, the state is asleep whenever
    more than 900 seconds have passed since the recorded activity instant,
    and the instant is kept; a signal strictly newer than the recorded
    instant becomes the recorded instant and leaves the state awake, on that
    very tick; a missing file, an unreadable one, an empty or a non-numeric
    text change nothing but what the sleep-timeout check changes. *)
Theorem activity_tick : forall py_float file now st,
  let (detected, st') := check_for_activity_signal py_float file now st in
  (newer_signal py_float file st = false ->
     detected = false
     /\ last_activity_time st' = last_activity_time st
     /\ is_sleeping st' = is_sleeping st || timed_out now st)
  /\ (forall ts, signal_value py_float file = Some ts ->
      F64.ltb (last_activity_time st) ts = true ->
      detected = true /\ last_activity_time st' = ts /\ is_sleeping st' = false)
  /\ (signal_value py_float file = None -> st' = sleep_check now st).
Proof.
  intros py_float file now st.
  assert (Hsc : last_activity_time (sleep_check now st) = last_activity_time st
                /\ is_sleeping (sleep_check now st)
                   = is_sleeping st || timed_out now st).
  { unfold sleep_check, timed_out. change (15 * 60) with 900.
    destruct (is_sleeping st) eqn:Es; cbn [negb andb orb].
    - split; [reflexivity | exact Es].
    - destruct (F64.ltb _ _); cbn; split; auto. }
  destruct Hsc as (Hl & Hs).
  unfold check_for_activity_signal, newer_signal, signal_value.
  assert (Hquiet :
            (false = false ->
             false = false
             /\ last_activity_time (sleep_check now st) = last_activity_time st
             /\ is_sleeping (sleep_check now st)
                = is_sleeping st || timed_out now st)
            /\ (forall ts, @None float = Some ts ->
                F64.ltb (last_activity_time st) ts = true ->
                false = true
                /\ last_activity_time (sleep_check now st) = ts
                /\ is_sleeping (sleep_check now st) = false)
            /\ (@None float = None -> sleep_check now st = sleep_check now st)).
  { split; [intros _; repeat split; assumption | ].
    split; [intros ts H; discriminate | reflexivity]. }
  destruct file as [ | | text]; try exact Hquiet.
  destruct (String.eqb (str_strip text) ""); [exact Hquiet | ].
  destruct (py_float (str_strip text)) as [ts | ]; [ | exact Hquiet].
  destruct (F64.ltb (last_activity_time st) ts) eqn:En.
  - split; [discriminate | ]. split; [ | discriminate].
    intros ts' H _. inversion H; subst. repeat split.
  - split; [intros _; repeat split; assumption | ].
    split; [ | discriminate].
    intros ts' H H'. inversion H; subst. congruence.
Qed.

(** ** Protected columns *)

Lemma dict_get_set_same : forall V (k c : string) (v : V) (d : dict V),
  dict_get c d = Some v -> dict_get k (dict_set c v d) = dict_get k d.
Proof.
  intros V k c v d. induction d as [ | [k' v'] d IH]; simpl; intro H.
  - discriminate.
  - destruct (String.eqb_spec c k') as [-> | Hc]; simpl.
    + inversion H; subst. reflexivity.
    + destruct (String.eqb_spec k k'); [reflexivity | now apply IH].
Qed.

Lemma protected_row_set_other : forall c v row,
  str_in c PROTECTED_COLUMNS = false ->
  protected_row (dict_set c v row) = protected_row row.
Proof.
  intros c v row Hc. unfold protected_row.
  apply map_ext_in. intros p Hp. apply dict_get_set_other.
  intros ->. unfold str_in in Hc.
  assert (H : existsb (String.eqb c) PROTECTED_COLUMNS = true).
  { apply existsb_exists. exists c. split; [exact Hp | apply String.eqb_refl]. }
  congruence.
Qed.

Lemma protected_row_set_same : forall c v row,
  dict_get c row = Some v ->
  protected_row (dict_set c v row) = protected_row row.
Proof.
  intros c v row H. unfold protected_row.
  apply map_ext. intro p. now apply dict_get_set_same.
Qed.

Lemma protected_row_get : forall c r1 r2,
  str_in c PROTECTED_COLUMNS = true ->
  protected_row r1 = protected_row r2 ->
  dict_get c r1 = dict_get c r2.
Proof.
  intros c r1 r2 Hc H. unfold str_in in Hc.
  apply existsb_exists in Hc as (p & Hp & Heq). apply String.eqb_eq in Heq. subst p.
  unfold protected_row in H.
  assert (Hall : forall q, In q PROTECTED_COLUMNS -> dict_get q r1 = dict_get q r2).
  { revert H. generalize PROTECTED_COLUMNS as l. induction l as [ | a l IH]; simpl.
    - intros _ q [].
    - intros H q [-> | Hq]; inversion H; auto. }
  now apply Hall.
Qed.

Lemma map_set_nth : forall A B (f : A -> B) (g : A -> A) i l,
  (forall x, nth_error l i = Some x -> f (g x) = f x) ->
  map f (set_nth i g l) = map f l.
Proof.
  intros A B f g i l. revert i. induction l as [ | a l IH]; intros i H.
  - destruct i; reflexivity.
  - destruct i as [ | i]; simpl.
    + rewrite (H a eq_refl). reflexivity.
    + rewrite IH; [reflexivity | ]. intros x Hx. apply H. exact Hx.
Qed.

Lemma nth_error_set_nth : forall A (g : A -> A) i l,
  nth_error (set_nth i g l) i = option_map g (nth_error l i).
Proof.
  intros A g i l. revert i. induction l as [ | a l IH]; intros [ | i]; simpl; auto.
Qed.

Lemma lookup_ok : forall c row w v w',
  lookup c row w = (Ok v, w') -> dict_get c row = Some v /\ w' = w.
Proof.
  intros c row w v w' H. unfold lookup in H.
  destruct (dict_get c row); inversion H; auto.
Qed.

(** Writing back the fluctuation of a cell keeps the protected part of its
    row, when the cell held the value that was fluctuated. *)
Lemma fluctuated_cell_protected : forall v ty c w v' w' r,
  generate_fluctuation v ty c w = (Ok v', w') ->
  (str_in c PROTECTED_COLUMNS = true -> dict_get c r = Some v) ->
  protected_row (dict_set c v' r) = protected_row r.
Proof.
  intros v ty c w v' w' r H Hr.
  destruct (str_in c PROTECTED_COLUMNS) eqn:Hc.
  - rewrite (protected_unchanged c v ty w Hc) in H. inversion H; subst.
    apply protected_row_set_same. now apply Hr.
  - now apply protected_row_set_other.
Qed.

Lemma df_at_set_view : forall idx c v df,
  (forall r, nth_error (df_rows df) idx = Some r ->
             protected_row (dict_set c v r) = protected_row r) ->
  protected_view (df_at_set idx c v df) = protected_view df.
Proof.
  intros idx c v df H. unfold protected_view, df_at_set. simpl.
  now apply map_set_nth.
Qed.

Lemma fluctuate_columns_view : forall cols types row idx df rec w df' rec' w',
  fluctuate_columns cols types row idx df rec w = (Ok (df', rec'), w') ->
  (forall r, nth_error (df_rows df) idx = Some r ->
             protected_row r = protected_row row) ->
  protected_view df' = protected_view df
  /\ df_columns df' = df_columns df.
Proof.
  intros cols types row idx.
  induction cols as [ | c cols IH]; intros df rec w df' rec' w' H Hinv.
  - simpl in H. inversion H; subst. auto.
  - cbn [fluctuate_columns] in H.
    destruct (dict_get c types) as [ty | ]; [ | now apply IH in H].
    apply bind_ok in H as (v & w1 & H1 & H).
    apply lookup_ok in H1 as (Hv & ->).
    apply bind_ok in H as (v' & w2 & H2 & H).
    assert (Hcell : forall r, nth_error (df_rows df) idx = Some r ->
                      protected_row (dict_set c v' r) = protected_row r).
    { intros r Hr. eapply fluctuated_cell_protected; [exact H2 | ].
      intro Hc. rewrite (protected_row_get c r row Hc (Hinv r Hr)). exact Hv. }
    apply IH in H.
    + destruct H as (Hview & Hcols). split.
      * rewrite Hview. now apply df_at_set_view.
      * rewrite Hcols. reflexivity.
    + intros r Hr. unfold df_at_set in Hr. simpl in Hr.
      rewrite nth_error_set_nth in Hr.
      destruct (nth_error (df_rows df) idx) as [r0 | ] eqn:E; [ | discriminate].
      inversion Hr; subst. rewrite (Hcell r0 eq_refl). now apply Hinv.
Qed.

Lemma mutate_rows_view : forall t types rows df ups w df' ups' w',
  mutate_rows t types rows df ups w = (Ok (df', ups'), w') ->
  protected_view df' = protected_view df.
Proof.
  intros t types rows.
  induction rows as [ | idx rows IH]; intros df ups w df' ups' w' H.
  - simpl in H. inversion H; subst. reflexivity.
  - cbn [mutate_rows] in H.
    apply bind_ok in H as (row & w1 & H1 & H).
    assert (Hrow : nth_error (df_rows df) idx = Some row).
    { destruct (nth_error (df_rows df) idx); inversion H1; reflexivity. }
    clear H1.
    apply bind_ok in H as ([df1 rec1] & w2 & H2 & H).
    apply fluctuate_columns_view in H2 as (Hv1 & Hc1).
    2:{ intros r Hr. congruence. }
    apply bind_ok in H as (id & w3 & _ & H).
    apply bind_ok in H as (ids & w4 & _ & H).
    apply bind_ok in H as (df2 & w5 & H5 & H).
    assert (Hv2 : protected_view df2 = protected_view df1).
    { destruct (str_in "timestamp" (df_columns df1)).
      - unfold bind, get, ret in H5. inversion H5; subst.
        apply df_at_set_view. intros r _.
        now apply protected_row_set_other.
      - inversion H5; subst. reflexivity. }
    apply bind_ok in H as (b & w6 & _ & H).
    apply IH in H. congruence.
Qed.

Lemma dict_get_rename : forall (p old new : string) (row : dict pyval),
  p <> old -> p <> new ->
  dict_get p (map (fun kv : string * pyval =>
                     (rename_label old new (fst kv), snd kv)) row)
  = dict_get p row.
Proof.
  intros p old new row Ho Hn. induction row as [ | [k v] row IH]; simpl; auto.
  unfold rename_label at 1.
  destruct (String.eqb_spec k old) as [-> | Hk].
  - destruct (String.eqb_spec p new); [contradiction | ].
    destruct (String.eqb_spec p old); [contradiction | exact IH].
  - destruct (String.eqb_spec p k); [reflexivity | exact IH].
Qed.

Lemma df_rename_view : forall old new df,
  str_in old PROTECTED_COLUMNS = false ->
  str_in new PROTECTED_COLUMNS = false ->
  protected_view (df_rename old new df) = protected_view df.
Proof.
  intros old new df Ho Hn. unfold protected_view, df_rename. simpl.
  rewrite map_map. apply map_ext. intro row. unfold protected_row.
  apply map_ext_in. intros p Hp.
  assert (Hin : str_in p PROTECTED_COLUMNS = true).
  { apply existsb_exists. exists p. split; [exact Hp | apply String.eqb_refl]. }
  apply dict_get_rename; intros ->; congruence.
Qed.

Lemma apply_mappings_view : forall t df,
  protected_view (apply_mappings t df) = protected_view df.
Proof.
  intros t df. unfold apply_mappings.
  generalize (base_name t) as k. intro k.
  unfold COLUMN_MAPPINGS. cbn [dict_get].
  destruct (String.eqb k "water_quality_sensors").
  - cbn [fold_left fst snd].
    destruct (str_in "ph_level" (df_columns df)).
    + destruct (str_in "chlorine" (df_columns (df_rename "ph_level" "ph" df)));
        rewrite ?df_rename_view; reflexivity.
    + destruct (str_in "chlorine" (df_columns df));
        rewrite ?df_rename_view; reflexivity.
  - destruct (String.eqb k "surveillance_cameras"); [ | reflexivity].
    cbn [fold_left fst snd].
    destruct (str_in "people_count" (df_columns df));
      rewrite ?df_rename_view; reflexivity.
Qed.

Lemma read_csv_files : forall MAX_RETRIES RETRY_DELAY_BASE path w,
  w_files (snd (read_csv MAX_RETRIES RETRY_DELAY_BASE path w)) = w_files w.
Proof.
  intros MAX_RETRIES RETRY_DELAY_BASE path.
  change (respects (same w_files) (read_csv MAX_RETRIES RETRY_DELAY_BASE path)).
  frame_by respects_read_csv.
Qed.

Lemma read_csv_result : forall MAX_RETRIES RETRY_DELAY_BASE path w df w',
  read_csv MAX_RETRIES RETRY_DELAY_BASE path w = (Ok (Some df), w') ->
  dict_get path (w_files w) = Some df.
Proof.
  intros MAX_RETRIES RETRY_DELAY_BASE path. unfold read_csv. generalize 0.
  induction (Z.to_nat MAX_RETRIES) as [ | fuel IH]; intros rc w df w' H.
  - discriminate.
  - cbn [read_csv_loop] in H.
    unfold retry_or_raise, sleep in H. unfold_monad. unfold attempt in H.
    cbn [w_faults set_w_trace] in H.
    destruct (w_faults w) as [ | [e | ] fs]; cbn in H.
    + destruct (dict_get path (w_files w)) as [f | ] eqn:Ef.
      * inversion H; subst. reflexivity.
      * destruct (rc + 1 <? MAX_RETRIES); [ | discriminate].
        destruct (sleep_error (RETRY_DELAY_BASE ^ (rc + 1))); [discriminate | ].
        cbn in H. apply IH in H. cbn in H. congruence.
    + destruct (rc + 1 <? MAX_RETRIES); [ | discriminate].
      destruct (sleep_error (RETRY_DELAY_BASE ^ (rc + 1))); [discriminate | ].
      cbn in H. apply IH in H. cbn in H. congruence.
    + destruct (dict_get path (w_files w)) as [f | ] eqn:Ef.
      * inversion H; subst. reflexivity.
      * destruct (rc + 1 <? MAX_RETRIES); [ | discriminate].
        destruct (sleep_error (RETRY_DELAY_BASE ^ (rc + 1))); [discriminate | ].
        cbn in H. apply IH in H. cbn in H. congruence.
Qed.

Lemma mutate_table_files : forall MAX_RETRIES RETRY_DELAY_BASE t w,
  w_files (snd (mutate_table MAX_RETRIES RETRY_DELAY_BASE t w)) = w_files w.
Proof.
  intros MAX_RETRIES RETRY_DELAY_BASE t.
  change (respects (same w_files) (mutate_table MAX_RETRIES RETRY_DELAY_BASE t)).
  frame_by respects_mutate_table.
Qed.

(** The frame a table's mutation ends with agrees, on the protected columns,
    with the table's file. *)
Lemma mutate_table_protected : forall MAX_RETRIES RETRY_DELAY_BASE t w o df ups w1,
  mutate_table MAX_RETRIES RETRY_DELAY_BASE t w = (Ok (o, df, ups), w1) ->
  exists f,
    dict_get t (w_files w1) = Some f /\ protected_view df = protected_view f.
Proof.
  intros MAX_RETRIES RETRY_DELAY_BASE t w o df ups w1 H.
  pose proof (mutate_table_files MAX_RETRIES RETRY_DELAY_BASE t w) as Hf.
  rewrite H in Hf. simpl in Hf.
  unfold mutate_table in H.
  apply bind_ok in H as ([] & w2 & H2 & H).
  assert (F2 : w_files w2 = w_files w) by (inversion H2; reflexivity).
  apply bind_ok in H as (odf & w3 & H3 & H).
  apply bind_ok in H as (df0 & w4 & H4 & H).
  destruct odf as [f | ]; [ | discriminate].
  inversion H4; subst df0 w4. clear H4.
  apply read_csv_result in H3.
  apply bind_ok in H as (rows & w5 & _ & H).
  apply bind_ok in H as ([df1 ups1] & w6 & H6 & H).
  inversion H; subst. clear H.
  apply mutate_rows_view in H6.
  exists f. split.
  - rewrite Hf, <- F2. exact H3.
  - rewrite H6. apply apply_mappings_view.
Qed.

Lemma files_view_unchanged : forall w w',
  w_files w' = w_files w -> files_view w' = files_view w.
Proof. intros w w' H. unfold files_view. now rewrite H. Qed.

Lemma files_view_set : forall t df f (files : dict DataFrame),
  dict_get t files = Some f ->
  protected_view df = protected_view f ->
  map (fun kv => (fst kv, protected_view (snd kv))) (dict_set t df files)
  = map (fun kv => (fst kv, protected_view (snd kv))) files.
Proof.
  intros t df f files. induction files as [ | [k v] files IH]; simpl; intros H Hv.
  - discriminate.
  - destruct (String.eqb t k); simpl.
    + inversion H; subst. now rewrite Hv.
    + now rewrite IH.
Qed.

(** The environment of the table files: what a failed write leaves and how
    a frame reads back from its text.  No step of a run changes it. *)
Lemma mutate_table_env : forall MAX_RETRIES RETRY_DELAY_BASE t w,
  csv_env (snd (mutate_table MAX_RETRIES RETRY_DELAY_BASE t w)) = csv_env w.
Proof.
  intros MAX_RETRIES RETRY_DELAY_BASE t.
  change (respects (same csv_env) (mutate_table MAX_RETRIES RETRY_DELAY_BASE t)).
  frame_by respects_mutate_table.
Qed.

Lemma write_csv_env : forall MAX_RETRIES RETRY_DELAY_BASE path df w,
  csv_env (snd (write_csv MAX_RETRIES RETRY_DELAY_BASE path df w)) = csv_env w.
Proof.
  intros MAX_RETRIES RETRY_DELAY_BASE path df.
  change (respects (same csv_env) (write_csv MAX_RETRIES RETRY_DELAY_BASE path df)).
  frame_by respects_write_csv.
Qed.

Lemma update_sensor_data_env : forall MAX_RETRIES RETRY_DELAY_BASE t data w,
  csv_env (snd (update_sensor_data MAX_RETRIES RETRY_DELAY_BASE t data w))
  = csv_env w.
Proof.
  intros MAX_RETRIES RETRY_DELAY_BASE t data.
  change (respects (same csv_env)
            (update_sensor_data MAX_RETRIES RETRY_DELAY_BASE t data)).
  frame_by respects_update_sensor_data.
Qed.

Lemma whole_files_env : forall w w',
  csv_env w' = csv_env w -> whole_files w -> whole_files w'.
Proof.
  unfold whole_files, csv_env. intros w w' H (Hr & Ht).
  inversion H as [[H1 H2]]. rewrite H1, H2. auto.
Qed.

Section Cycles.

Variables MAX_RETRIES RETRY_DELAY_BASE : Z.
Variable CSV_FILE_PATH : option string.

Lemma persist_env : forall t o df ups w,
  csv_env (snd (persist MAX_RETRIES RETRY_DELAY_BASE t o df ups w)) = csv_env w.
Proof.
  intros t o df ups w. unfold persist.
  destruct (negb (df_equals o df) && negb (List.length ups =? 0)%nat);
    [ | reflexivity].
  pose proof (write_csv_env MAX_RETRIES RETRY_DELAY_BASE t df w) as Hw.
  unfold bind at 1.
  destruct (write_csv MAX_RETRIES RETRY_DELAY_BASE t df w) as [[c | e] w2];
    cbn [snd] in Hw; [ | exact Hw].
  pose proof (update_sensor_data_env MAX_RETRIES RETRY_DELAY_BASE t ups w2) as Hu.
  unfold bind at 1.
  destruct (update_sensor_data MAX_RETRIES RETRY_DELAY_BASE t ups w2)
    as [[d | e] w3]; cbn [snd] in *; [ | congruence].
  unfold update_stats. unfold_monad.
  destruct (c && d); cbn; unfold csv_env in *; cbn; congruence.
Qed.

Lemma persist_view : forall t o df ups w f,
  whole_files w ->
  dict_get t (w_files w) = Some f ->
  protected_view df = protected_view f ->
  files_view (snd (persist MAX_RETRIES RETRY_DELAY_BASE t o df ups w)) = files_view w.
Proof.
  intros t o df ups w f (Hrt & Htorn) Hf Hv. unfold persist.
  destruct (negb (df_equals o df) && negb (List.length ups =? 0)%nat);
    [ | reflexivity].
  pose proof (write_csv_files MAX_RETRIES RETRY_DELAY_BASE t df w) as Hw.
  unfold bind at 1.
  destruct (write_csv MAX_RETRIES RETRY_DELAY_BASE t df w) as [[c | e] w2];
    cbn [fst snd returned_true] in Hw; destruct Hw as (_ & _ & _ & Hok & Hno).
  - assert (Hv2 : files_view w2 = files_view w).
    { unfold files_view. destruct c.
      - rewrite (Hok eq_refl). apply files_view_set with (f := f); [exact Hf | ].
        now rewrite Hrt.
      - rewrite (Hno eq_refl); [reflexivity | ]. intro e. apply Htorn. }
    pose proof (update_sensor_data_files MAX_RETRIES RETRY_DELAY_BASE t ups w2) as Hu.
    unfold bind at 1.
    destruct (update_sensor_data MAX_RETRIES RETRY_DELAY_BASE t ups w2)
      as [[d | e] w3]; cbn [snd] in *.
    + unfold update_stats. unfold_monad.
      destruct (c && d); cbn; unfold files_view in *; cbn; rewrite Hu; exact Hv2.
    + unfold files_view in *. rewrite Hu. exact Hv2.
  - cbn. unfold files_view. rewrite (Hno eq_refl); [reflexivity | ].
    intro e0. apply Htorn.
Qed.

Lemma simulate_data_changes_env : forall t w,
  csv_env (snd (simulate_data_changes MAX_RETRIES RETRY_DELAY_BASE t w))
  = csv_env w.
Proof.
  intros t w. unfold simulate_data_changes, try_except. unfold bind at 1.
  pose proof (mutate_table_env MAX_RETRIES RETRY_DELAY_BASE t w) as Hm.
  destruct (mutate_table MAX_RETRIES RETRY_DELAY_BASE t w)
    as [[[[o df] ups] | e] w1]; cbn [snd] in Hm.
  - pose proof (persist_env t o df ups w1) as Hp.
    destruct (persist MAX_RETRIES RETRY_DELAY_BASE t o df ups w1) as [[b | e] w2];
      cbn [snd] in *; [congruence | ].
    unfold update_stats. unfold_monad. cbn. unfold csv_env in *. cbn. congruence.
  - unfold update_stats. unfold_monad. cbn. unfold csv_env in *. cbn. congruence.
Qed.

Lemma simulate_data_changes_view : forall t w,
  whole_files w ->
  files_view (snd (simulate_data_changes MAX_RETRIES RETRY_DELAY_BASE t w))
  = files_view w.
Proof.
  intros t w Hwhole. unfold simulate_data_changes, try_except. unfold bind at 1.
  pose proof (mutate_table_files MAX_RETRIES RETRY_DELAY_BASE t w) as Hf.
  pose proof (mutate_table_env MAX_RETRIES RETRY_DELAY_BASE t w) as He.
  destruct (mutate_table MAX_RETRIES RETRY_DELAY_BASE t w)
    as [[[[o df] ups] | e] w1] eqn:Hm; cbn [snd] in Hf, He.
  - destruct (mutate_table_protected _ _ _ _ _ _ _ _ Hm) as (f & Hg & Hv).
    pose proof (persist_view t o df ups w1 f (whole_files_env _ _ He Hwhole) Hg Hv)
      as Hp.
    destruct (persist MAX_RETRIES RETRY_DELAY_BASE t o df ups w1) as [[b | e] w2];
      cbn [snd] in *.
    + rewrite Hp. now apply files_view_unchanged.
    + unfold update_stats. unfold_monad. cbn.
      unfold files_view in *. cbn. rewrite Hp. now rewrite Hf.
  - unfold update_stats. unfold_monad. cbn. unfold files_view. cbn. now rewrite Hf.
Qed.

Lemma simulate_files_view : forall files w,
  whole_files w ->
  let w' := snd (simulate_files MAX_RETRIES RETRY_DELAY_BASE files w) in
  files_view w' = files_view w /\ csv_env w' = csv_env w.
Proof.
  induction files as [ | t files IH]; intros w Hwhole; cbv zeta;
    [split; reflexivity | ].
  cbn [simulate_files]. unfold bind, get.
  destruct (running w); cbn [negb]; [ | split; reflexivity].
  pose proof (simulate_data_changes_view t w Hwhole) as Hs.
  pose proof (simulate_data_changes_env t w) as He.
  destruct (simulate_data_changes MAX_RETRIES RETRY_DELAY_BASE t w) as [[b | e] w1];
    cbn [snd] in *.
  - destruct (IH w1 (whole_files_env _ _ He Hwhole)) as (H1 & H2).
    split; congruence.
  - split; assumption.
Qed.

Lemma choose_files_files : forall w,
  w_files (snd (choose_files CSV_FILE_PATH w)) = w_files w.
Proof.
  change (respects (same w_files) (choose_files CSV_FILE_PATH)).
  assert (Hrefl := @same_refl _ w_files).
  assert (Htrans := @same_trans _ w_files).
  unfold choose_files, get_csv_files.
  repeat (respects_step; try assumption);
    first [ apply respects_random_shuffle | apply respects_choose_count
          | apply respects_random_sample ];
    intros; try reflexivity; try assumption;
    eapply same_trans; eassumption.
Qed.

Lemma choose_files_env : forall w,
  csv_env (snd (choose_files CSV_FILE_PATH w)) = csv_env w.
Proof.
  change (respects (same csv_env) (choose_files CSV_FILE_PATH)).
  assert (Hrefl := @same_refl _ csv_env).
  assert (Htrans := @same_trans _ csv_env).
  unfold choose_files, get_csv_files.
  repeat (respects_step; try assumption);
    first [ apply respects_random_shuffle | apply respects_choose_count
          | apply respects_random_sample ];
    intros; try reflexivity; try assumption;
    eapply same_trans; eassumption.
Qed.

Lemma run_simulation_cycle_view : forall w,
  whole_files w ->
  let w' := snd (run_simulation_cycle MAX_RETRIES RETRY_DELAY_BASE
                   CSV_FILE_PATH w) in
  files_view w' = files_view w /\ csv_env w' = csv_env w.
Proof.
  intros w Hwhole. cbv zeta. unfold run_simulation_cycle. unfold bind.
  pose proof (choose_files_files w) as Hc.
  pose proof (choose_files_env w) as He.
  destruct (choose_files CSV_FILE_PATH w) as [[files | e] w1]; cbn [snd] in *.
  - destruct (simulate_files_view files w1 (whole_files_env _ _ He Hwhole))
      as (H1 & H2).
    split; [ | congruence]. rewrite H1. now apply files_view_unchanged.
  - split; [now apply files_view_unchanged | exact He].
Qed.

Lemma run_cycles_view : forall n w,
  whole_files w ->
  files_view (run_cycles MAX_RETRIES RETRY_DELAY_BASE CSV_FILE_PATH n w)
  = files_view w.
Proof.
  induction n as [ | n IH]; intros w Hwhole; [reflexivity | ].
  cbn [run_cycles].
  destruct (run_simulation_cycle_view w Hwhole) as (H1 & H2).
  rewrite IH; [exact H1 | ]. exact (whole_files_env _ _ H2 Hwhole).
Qed.

End Cycles.

(** C3 (amended). For a protected column ([id], [location], [latitude],
    [longitude], [bus_id]) the fluctuation returns the value it was given,
    whatever the value, the declared type and the state of the random
    source, and draws nothing.  Whatever the number of simulation cycles and
    the configuration, every table file holds in its protected columns what
    it held before, provided that a frame keeps its protected cells when it
    is printed and read back and that no failed write leaves a partly
    written file. *)
Theorem protected_columns_preserved :
  (forall c value column_type w,
     str_in c PROTECTED_COLUMNS = true ->
     generate_fluctuation value column_type c w = (Ok value, w))
  /\ (forall MAX_RETRIES RETRY_DELAY_BASE CSV_FILE_PATH n w,
        whole_files w ->
        files_view (run_cycles MAX_RETRIES RETRY_DELAY_BASE CSV_FILE_PATH n w)
        = files_view w).
Proof.
  split.
  - intros c value column_type w Hc. now apply protected_unchanged.
  - intros. now apply run_cycles_view.
Qed.

Lemma protected_columns_preserved_witness :
  whole_files traffic_world
  /\ dict_get "traffic_sensors" (w_files (run_cycles 5 2 None 1 traffic_world))
     = Some traffic_df_mutated
  /\ files_view (run_cycles 5 2 None 1 traffic_world) = files_view traffic_world.
Proof.
  assert (H : whole_files traffic_world).
  { split; [intro df; reflexivity | intros e path df; reflexivity]. }
  split; [exact H | ]. split; [vm_compute; reflexivity | ].
  exact (proj2 protected_columns_preserved 5 2 None 1%nat traffic_world H).
Defined.

(** C3, as stated, fails: the table file is rewritten in place, and a write
    that fails when the disk is full leaves the table cut short; here the
    only row is lost, its [id] and [location] with it. *)
Lemma partial_write_loses_protected_cells :
  let w := full_disk_after_header in
  let w' := run_cycles 1 2 None 1 w in
  files_view w
    = [("traffic_sensors",
        [[Some (VStr "t1"); Some (VStr "Main St"); None; None; None]])]
  /\ files_view w' = [("traffic_sensors", [])]
  /\ existsb (fun e => match e with EvCsvWrite _ _ => true | _ => false end)
       (w_trace w') = true
  /\ updates_failed (stats w') = 1.
Proof. vm_compute. repeat split; reflexivity. Qed.

(** ** Rounding in binary64

    What the proofs below need of [binary_round_aux]: the shift it applies,
    the two mantissas it can end with, and the sizes of its results. *)

Lemma fexp64_eq : forall e, fexp64 e = Z.max (e - 53) (-1074).
Proof. reflexivity. Qed.

Lemma digits2_size : forall p, digits2_pos p = Pos.size p.
Proof. induction p; simpl; congruence. Qed.

Lemma Zdigits2_log2 : forall m, 0 < m -> Zdigits2 m = Z.log2 m + 1.
Proof.
  intros [ | p | p] H; try lia. simpl. rewrite digits2_size.
  destruct p; simpl; rewrite ?Pos2Z.inj_succ; lia.
Qed.

Lemma Zdigits2_bounds : forall m,
  0 < m -> 2 ^ (Zdigits2 m - 1) <= m < 2 ^ Zdigits2 m.
Proof.
  intros m H. rewrite (Zdigits2_log2 m H).
  replace (Z.log2 m + 1 - 1) with (Z.log2 m) by lia.
  replace (Z.log2 m + 1) with (Z.succ (Z.log2 m)) by lia.
  now apply Z.log2_spec.
Qed.

Lemma Zdigits2_unique : forall m d,
  0 < d -> 2 ^ (d - 1) <= m < 2 ^ d -> Zdigits2 m = d.
Proof.
  intros m d Hd H.
  assert (Hm : 0 < m).
  { assert (0 < 2 ^ (d - 1)) by (apply Z.pow_pos_nonneg; lia). lia. }
  rewrite (Zdigits2_log2 m Hm).
  assert (Z.log2 m = d - 1); [ | lia].
  apply Z.log2_unique; [lia | ]. replace (Z.succ (d - 1)) with d by lia. exact H.
Qed.

Lemma Zdigits2_nonneg : forall m, 0 <= Zdigits2 m.
Proof. intros [ | p | p]; simpl; lia. Qed.

Lemma Zdigits2_pos : forall m, 0 < m -> 0 < Zdigits2 m.
Proof. intros [ | p | p] H; simpl; lia. Qed.

(** Fewer digits for a smaller number. *)
Lemma Zdigits2_le : forall m d, 0 <= m -> 0 <= d -> m < 2 ^ d -> Zdigits2 m <= d.
Proof.
  intros m d Hm Hd H.
  destruct (Z.eq_dec m 0) as [-> | Hne]; [simpl; lia | ].
  destruct (Z.le_gt_cases (Zdigits2 m) d) as [ | Hgt]; [assumption | exfalso].
  pose proof (Zdigits2_bounds m ltac:(lia)) as [Hlo _].
  assert (2 ^ d <= 2 ^ (Zdigits2 m - 1)) by (apply Z.pow_le_mono_r; lia).
  lia.
Qed.

Lemma Zdigits2_mono : forall a b, 0 <= a <= b -> Zdigits2 a <= Zdigits2 b.
Proof.
  intros a b H.
  destruct (Z.eq_dec b 0) as [-> | Hb].
  - assert (a = 0) by lia. subst. lia.
  - apply Zdigits2_le; [lia | apply Zdigits2_nonneg | ].
    pose proof (Zdigits2_bounds b ltac:(lia)). lia.
Qed.

(** The digits of a quotient by a power of two. *)
Lemma Zdigits2_div_pow2 : forall m k,
  0 < m -> 0 <= k -> Zdigits2 (m / 2 ^ k) = Z.max 0 (Zdigits2 m - k).
Proof.
  intros m k Hm Hk.
  pose proof (Zdigits2_bounds m Hm) as [Hlo Hhi].
  pose proof (Zdigits2_pos m Hm) as Hd.
  assert (Hp : 0 < 2 ^ k) by (apply Z.pow_pos_nonneg; lia).
  destruct (Z.le_gt_cases (Zdigits2 m) k) as [Hle | Hgt].
  - assert (m < 2 ^ k).
    { assert (2 ^ Zdigits2 m <= 2 ^ k) by (apply Z.pow_le_mono_r; lia). lia. }
    rewrite Z.div_small by lia. simpl. lia.
  - rewrite Z.max_r by lia.
    apply Zdigits2_unique; [lia | ].
    split.
    + apply Z.div_le_lower_bound; [lia | ].
      rewrite <- Z.pow_add_r by lia.
      replace (k + (Zdigits2 m - k - 1)) with (Zdigits2 m - 1) by lia. exact Hlo.
    + apply Z.div_lt_upper_bound; [lia | ].
      rewrite <- Z.pow_add_r by lia.
      replace (k + (Zdigits2 m - k)) with (Zdigits2 m) by lia. exact Hhi.
Qed.

(** One more can add at most one digit, and only by reaching a power of two. *)
Lemma Zdigits2_succ : forall q,
  0 <= q ->
  Zdigits2 (q + 1) = Zdigits2 q
  \/ (Zdigits2 (q + 1) = Zdigits2 q + 1 /\ q + 1 = 2 ^ Zdigits2 q).
Proof.
  intros q Hq.
  destruct (Z.eq_dec q 0) as [-> | Hne]; [right; split; reflexivity | ].
  pose proof (Zdigits2_bounds q ltac:(lia)) as [Hlo Hhi].
  pose proof (Zdigits2_pos q ltac:(lia)) as Hd.
  destruct (Z.eq_dec (q + 1) (2 ^ Zdigits2 q)) as [He | Hn].
  - right. split; [ | exact He].
    apply Zdigits2_unique; [lia | ].
    replace (Zdigits2 q + 1 - 1) with (Zdigits2 q) by lia.
    rewrite Z.pow_add_r by lia. lia.
  - left. apply Zdigits2_unique; [lia | ]. lia.
Qed.

Lemma iter_pos_nat : forall A (f : A -> A) p x,
  iter_pos f p x = Nat.iter (Pos.to_nat p) f x.
Proof.
  intros A f p. induction p as [p IH | p IH | ]; intro x; cbn [iter_pos].
  - rewrite !IH. rewrite Pos2Nat.inj_xI.
    rewrite <- Nat.iter_add. rewrite <- Nat.iter_succ_r. f_equal. lia.
  - rewrite !IH. rewrite Pos2Nat.inj_xO. rewrite <- Nat.iter_add. f_equal. lia.
  - reflexivity.
Qed.

Lemma shr_1_m : forall x, 0 <= shr_m x -> shr_m (shr_1 x) = shr_m x / 2.
Proof.
  intros [m r s] H. simpl in H. unfold shr_1.
  destruct m as [ | [p | p | ] | p]; try lia; cbn [shr_m].
  - reflexivity.
  - change (Z.pos p~1) with (2 * Z.pos p + 1).
    apply Z.div_unique with (r := 1); lia.
  - change (Z.pos p~0) with (2 * Z.pos p).
    apply Z.div_unique with (r := 0); lia.
  - reflexivity.
Qed.

Lemma shr_iter_m : forall n x,
  0 <= shr_m x -> shr_m (Nat.iter n shr_1 x) = shr_m x / 2 ^ Z.of_nat n.
Proof.
  induction n as [ | n IH]; intros x H.
  - simpl. now rewrite Z.div_1_r.
  - rewrite Nat.iter_succ. rewrite shr_1_m.
    + rewrite IH by exact H. rewrite Nat2Z.inj_succ, Z.pow_succ_r by lia.
      rewrite Z.div_div by (try apply Z.pow_pos_nonneg; lia).
      f_equal. lia.
    + rewrite IH by exact H. apply Z.div_pos; [exact H | apply Z.pow_pos_nonneg; lia].
Qed.

(** The first component of [shr_fexp]: the mantissa divided by the power of
    two that brings the exponent to [fexp]. *)
Lemma shr_fexp_spec : forall m e l,
  0 <= m ->
  let k := Z.max 0 (fexp64 (Zdigits2 m + e) - e) in
  shr_m (fst (shr_fexp F64.prec F64.emax m e l)) = m / 2 ^ k
  /\ snd (shr_fexp F64.prec F64.emax m e l) = e + k.
Proof.
  intros m e l Hm k. unfold shr_fexp, shr. fold (fexp64 (Zdigits2 m + e)).
  assert (Hrec : shr_m (shr_record_of_loc m l) = m).
  { destruct l as [ | [ | | ]]; reflexivity. }
  subst k. destruct (fexp64 (Zdigits2 m + e) - e) as [ | p | p] eqn:E.
  - simpl. rewrite Z.div_1_r. split; [exact Hrec | lia].
  - rewrite Z.max_r by lia. cbn [fst snd]. split; [ | reflexivity].
    rewrite iter_pos_nat, shr_iter_m by (rewrite Hrec; exact Hm).
    rewrite Hrec, positive_nat_Z. reflexivity.
  - rewrite Z.max_l by lia. simpl. rewrite Z.div_1_r. split; [exact Hrec | lia].
Qed.

Lemma round_nearest_even_cases : forall q l,
  round_nearest_even q l = q \/ round_nearest_even q l = q + 1.
Proof.
  intros q [ | [ | | ]]; simpl; auto. destruct (Z.even q); auto.
Qed.

Lemma shr_fexp_exact : forall m e,
  fexp64 (Zdigits2 m + e) - e <= 0 ->
  shr_fexp F64.prec F64.emax m e loc_Exact
  = ({| shr_m := m; shr_r := false; shr_s := false |}, e).
Proof.
  intros m e H. unfold shr_fexp, shr. fold (fexp64 (Zdigits2 m + e)).
  destruct (fexp64 (Zdigits2 m + e) - e); try reflexivity. lia.
Qed.

(** The second shift of [binary_round_aux] loses nothing: it is by zero or
    one place, and by one only for a power of two. *)
Lemma second_shift_exact : forall mx ex m1,
  0 < mx ->
  let k := Z.max 0 (fexp64 (Zdigits2 mx + ex) - ex) in
  let q := mx / 2 ^ k in
  (m1 = q \/ m1 = q + 1) ->
  (k = 0 -> m1 = mx) ->
  let k2 := Z.max 0 (fexp64 (Zdigits2 m1 + (ex + k)) - (ex + k)) in
  0 <= k2 <= 1
  /\ (k = 0 -> k2 = 0)
  /\ m1 / 2 ^ k2 * 2 ^ k2 = m1
  /\ ex + k + k2 <= Z.max ex (fexp64 (Zdigits2 mx + ex + 1))
  /\ Zdigits2 m1 + (ex + k) <= Z.max (Zdigits2 mx + ex + 1) (-1073).
Proof.
  intros mx ex m1 Hmx k q Hm1 Hk0 k2.
  assert (Hkdef : k = Z.max 0 (fexp64 (Zdigits2 mx + ex) - ex)) by reflexivity.
  assert (Hqdef : q = mx / 2 ^ k) by reflexivity.
  assert (Hk2def : k2 = Z.max 0 (fexp64 (Zdigits2 m1 + (ex + k)) - (ex + k)))
    by reflexivity.
  clearbody k2 q k.
  pose proof (Zdigits2_pos mx Hmx) as Hd.
  assert (Hkn : 0 <= k) by lia.
  assert (Hq : 0 <= q)
    by (subst q; apply Z.div_pos; [lia | apply Z.pow_pos_nonneg; lia]).
  assert (Hdq : Zdigits2 q = Z.max 0 (Zdigits2 mx - k))
    by (subst q; apply Zdigits2_div_pow2; lia).
  assert (Hfe : forall z, fexp64 z <= fexp64 (z + 1) <= fexp64 z + 1).
  { intro z. rewrite !fexp64_eq. lia. }
  specialize (Hfe (Zdigits2 mx + ex)).
  destruct (Z.eq_dec k 0) as [Hk | Hk].
  - (* no first shift: the mantissa is kept *)
    rewrite (Hk0 Hk) in *.
    assert (Hz : k2 = 0).
    { rewrite Hk2def, Hk, Z.add_0_r. lia. }
    rewrite Hz. rewrite Z.pow_0_r, Z.div_1_r. lia.
  - assert (He' : ex + k = fexp64 (Zdigits2 mx + ex)) by lia.
    assert (Hm1d : Zdigits2 m1 = Zdigits2 q
                   \/ (Zdigits2 m1 = Zdigits2 q + 1 /\ m1 = 2 ^ Zdigits2 q)).
    { destruct Hm1 as [-> | ->]; [left; reflexivity | ].
      destruct (Zdigits2_succ q Hq) as [H | [H H']]; [left | right]; auto. }
    destruct (Z.le_gt_cases (Zdigits2 mx) k) as [Hsmall | Hbig].
    + (* everything is shifted out: the exponent is the least one *)
      assert (Hdq0 : Zdigits2 q = 0) by lia.
      assert (Hemin : ex + k = -1074).
      { rewrite fexp64_eq in He'. lia. }
      assert (Hk2 : k2 = 0).
      { rewrite Hk2def, Hemin, fexp64_eq. lia. }
      rewrite Hk2, Z.pow_0_r, Z.div_1_r. lia.
    + assert (Hdq1 : Zdigits2 q = Zdigits2 mx - k) by lia.
      destruct Hm1d as [Hsame | [Hmore Hpow]].
      * assert (Hk2 : k2 = 0).
        { rewrite Hk2def, Hsame, Hdq1.
          replace (Zdigits2 mx - k + (ex + k)) with (Zdigits2 mx + ex) by lia.
          lia. }
        rewrite Hk2, Z.pow_0_r, Z.div_1_r. lia.
      * assert (Hk2 : k2 = fexp64 (Zdigits2 mx + ex + 1) - fexp64 (Zdigits2 mx + ex)).
        { rewrite Hk2def, Hmore, Hdq1.
          replace (Zdigits2 mx - k + 1 + (ex + k)) with (Zdigits2 mx + ex + 1) by lia.
          lia. }
        split; [lia | ]. split; [lia | ]. split; [ | split; lia].
        assert (Hcases : k2 = 0 \/ k2 = 1) by lia.
        clear Hk2def. destruct Hcases as [-> | ->].
        -- rewrite Z.pow_0_r, Z.div_1_r. lia.
        -- rewrite Hpow. rewrite Hdq1.
           replace (Zdigits2 mx - k) with (Z.succ (Zdigits2 mx - k - 1)) by lia.
           rewrite Z.pow_succ_r by lia. rewrite Z.pow_1_r.
           generalize (2 ^ (Zdigits2 mx - k - 1)). intro t.
           rewrite (Z.mul_comm 2 t), Z.div_mul by lia. lia.
Qed.

(** What [binary_round_aux] makes of the exact number [mx * 2 ^ ex]: with
    [k] the shift and [q] the quotient of [mx] by [2 ^ k], a zero when [q]
    is zero, else a number of the same sign between [q * 2 ^ (ex + k)] and
    [(q + 1) * 2 ^ (ex + k)], equal to the exact one when nothing is shifted
    out, or an infinity when the exponent passes the largest one. *)
Lemma binary_round_aux_spec : forall sx mx ex,
  0 < mx ->
  let k := round_shift mx ex in
  let q := mx / 2 ^ k in
  match binary_round_aux F64.prec F64.emax sx mx ex loc_Exact with
  | S754_zero s => s = sx /\ q = 0
  | S754_finite s m e =>
      s = sx
      /\ ex + k <= e <= 971
      /\ q * 2 ^ k <= Z.pos m * 2 ^ (e - ex) <= (q + 1) * 2 ^ k
      /\ (k = 0 -> Z.pos m = mx /\ e = ex)
      /\ Zdigits2 (Z.pos m) + e <= Z.max (Zdigits2 mx + ex + 1) (-1073)
      /\ e <= Z.max ex (fexp64 (Zdigits2 mx + ex + 1))
  | S754_infinity s =>
      s = sx /\ 971 < Z.max ex (fexp64 (Zdigits2 mx + ex + 1))
  | S754_nan => False
  end.
Proof.
  intros sx mx ex Hmx k q.
  assert (Hkdef : k = Z.max 0 (fexp64 (Zdigits2 mx + ex) - ex)) by reflexivity.
  assert (Hqdef : q = mx / 2 ^ k) by reflexivity.
  clearbody q k.
  assert (Hkn : 0 <= k) by lia.
  assert (Hpk : 0 < 2 ^ k) by (apply Z.pow_pos_nonneg; lia).
  assert (Hq : 0 <= q) by (subst q; apply Z.div_pos; lia).
  unfold binary_round_aux.
  pose proof (shr_fexp_spec mx ex loc_Exact ltac:(lia)) as [H1m H1e].
  rewrite <- Hkdef, <- Hqdef in H1m. rewrite <- Hkdef in H1e.
  assert (H1x : k = 0 ->
                round_nearest_even
                  (shr_m (fst (shr_fexp F64.prec F64.emax mx ex loc_Exact)))
                  (loc_of_shr_record
                     (fst (shr_fexp F64.prec F64.emax mx ex loc_Exact))) = mx).
  { intro Hk0. rewrite shr_fexp_exact by lia. reflexivity. }
  destruct (shr_fexp F64.prec F64.emax mx ex loc_Exact) as [mrs1 e1].
  cbn [fst snd] in H1m, H1e, H1x. subst e1.
  set (m1 := round_nearest_even (shr_m mrs1) (loc_of_shr_record mrs1)) in *.
  assert (Hm1 : m1 = q \/ m1 = q + 1).
  { subst m1. rewrite <- H1m. apply round_nearest_even_cases. }
  clearbody m1.
  assert (Hm1n : 0 <= m1) by lia.
  pose proof (second_shift_exact mx ex m1 Hmx) as H2.
  cbv zeta in H2. rewrite <- Hkdef, <- Hqdef in H2.
  specialize (H2 Hm1 H1x).
  pose proof (shr_fexp_spec m1 (ex + k) loc_Exact Hm1n) as [H2m H2e].
  set (k2 := Z.max 0 (fexp64 (Zdigits2 m1 + (ex + k)) - (ex + k))) in *.
  clearbody k2.
  destruct H2 as (Hk2 & Hk20 & Hexact & Hexp & Hmag).
  destruct (shr_fexp F64.prec F64.emax m1 (ex + k) loc_Exact) as [mrs2 e2].
  cbn [fst snd] in H2m, H2e. subst e2.
  assert (Hpk2 : 0 < 2 ^ k2) by (apply Z.pow_pos_nonneg; lia).
  destruct (shr_m mrs2) as [ | m | m] eqn:Em2.
  - (* zero *)
    split; [reflexivity | ].
    rewrite <- H2m in Hexact. lia.
  - change (Z.sub F64.emax F64.prec) with 971.
    destruct (Z.leb_spec (ex + k + k2) 971) as [Hle | Hgt].
    + split; [reflexivity | ]. split; [lia | ].
      assert (Hval : Z.pos m * 2 ^ (ex + k + k2 - ex) = m1 * 2 ^ k).
      { replace (ex + k + k2 - ex) with (k2 + k) by lia.
        rewrite Z.pow_add_r by lia. rewrite Z.mul_assoc.
        rewrite H2m. rewrite Hexact. reflexivity. }
      split; [rewrite Hval; nia | ].
      split.
      * intro Hk0. specialize (Hk20 Hk0). specialize (H1x Hk0).
        rewrite Hk20, Z.pow_0_r, Z.div_1_r in H2m. split; lia.
      * assert (Hd2 : Zdigits2 (m1 / 2 ^ k2) = Z.max 0 (Zdigits2 m1 - k2)).
        { apply Zdigits2_div_pow2; [ | lia].
          rewrite <- H2m in Hexact. lia. }
        rewrite <- H2m in Hd2.
        pose proof (Zdigits2_pos (Z.pos m) ltac:(lia)). split; lia.
    + split; [reflexivity | lia].
  - exfalso. assert (0 <= m1 / 2 ^ k2) by (apply Z.div_pos; lia). lia.
Qed.

Lemma iter_xO_pow2 : forall m d, Z.pos (Pos.iter xO m d) = Z.pos m * 2 ^ Z.pos d.
Proof.
  intros m d. induction d as [ | d IH] using Pos.peano_ind.
  - simpl. lia.
  - rewrite Pos.iter_succ. rewrite Pos2Z.inj_xO, IH.
    rewrite Pos2Z.inj_succ, Z.pow_succ_r by lia. lia.
Qed.

Lemma Zdigits2_mul_pow2 : forall m k,
  0 < m -> 0 <= k -> Zdigits2 (m * 2 ^ k) = Zdigits2 m + k.
Proof.
  intros m k Hm Hk.
  pose proof (Zdigits2_bounds m Hm) as [Hlo Hhi].
  pose proof (Zdigits2_pos m Hm) as Hd.
  assert (Hp : 0 < 2 ^ k) by (apply Z.pow_pos_nonneg; lia).
  apply Zdigits2_unique; [lia | ].
  replace (Zdigits2 m + k - 1) with (Zdigits2 m - 1 + k) by lia.
  rewrite !Z.pow_add_r by lia. nia.
Qed.

(** What [binary_round] makes of [mx * 2 ^ ex]: the exact number when its
    digits fit, and what [binary_round_aux] makes of it otherwise. *)
Lemma binary_round_spec : forall sx mx ex,
  let d := Zdigits2 (Z.pos mx) in
  let e1 := fexp64 (d + ex) in
  match binary_round F64.prec F64.emax sx mx ex with
  | S754_zero s => s = sx /\ ex < e1 /\ Z.pos mx < 2 ^ (e1 - ex)
  | S754_finite s m e =>
      s = sx
      /\ e1 <= e <= 971
      /\ Zdigits2 (Z.pos m) + e <= Z.max (d + ex + 1) (-1073)
      /\ (e1 <= ex -> e = e1 /\ Z.pos m = Z.pos mx * 2 ^ (ex - e1))
      /\ (ex < e1 ->
          Z.pos mx / 2 ^ (e1 - ex) * 2 ^ (e1 - ex)
          <= Z.pos m * 2 ^ (e - ex)
          <= (Z.pos mx / 2 ^ (e1 - ex) + 1) * 2 ^ (e1 - ex))
      /\ e <= fexp64 (d + ex + 1)
  | S754_infinity s => s = sx /\ 971 < fexp64 (d + ex + 1)
  | S754_nan => False
  end.
Proof.
  intros sx mx ex d e1.
  assert (Hddef : d = Zdigits2 (Z.pos mx)) by reflexivity.
  assert (He1def : e1 = fexp64 (d + ex)) by reflexivity.
  clearbody e1 d.
  assert (Hfe : fexp64 (d + ex) <= fexp64 (d + ex + 1) <= fexp64 (d + ex) + 1).
  { rewrite !fexp64_eq. lia. }
  unfold binary_round, shl_align.
  change (Z.pos (digits2_pos mx)) with (Zdigits2 (Z.pos mx)).
  rewrite <- Hddef.
  change (fexp F64.prec F64.emax (d + ex)) with (fexp64 (d + ex)).
  rewrite <- He1def.
  destruct (e1 - ex) as [ | p | p] eqn:Ediff.
  - pose proof (binary_round_aux_spec sx (Z.pos mx) ex ltac:(lia)) as H.
    cbv zeta in H. unfold round_shift in H. rewrite <- Hddef, <- He1def in H.
    replace (e1 - ex) with 0 in H by lia. rewrite Z.max_id in H.
    destruct (binary_round_aux F64.prec F64.emax sx (Z.pos mx) ex loc_Exact)
      as [s | s | | s m e].
    + destruct H as (_ & H). rewrite Z.pow_0_r, Z.div_1_r in H. lia.
    + destruct H as (Hs & H). split; [exact Hs | ]. lia.
    + exact H.
    + destruct H as (Hs & He & _ & Hex & Hmag). destruct (Hex eq_refl) as (Hm & Hee).
      split; [exact Hs | ]. split; [lia | ]. split; [rewrite <- ?Hddef in *; lia | ].
      split; [ | split; lia]. intros _. replace (ex - e1) with 0 by lia.
      rewrite Z.pow_0_r. lia.
  - pose proof (binary_round_aux_spec sx (Z.pos mx) ex ltac:(lia)) as H.
    cbv zeta in H. unfold round_shift in H. rewrite <- Hddef, <- He1def in H.
    rewrite Ediff in H. rewrite Z.max_r in H by lia.
    assert (Hk : Z.pos p = e1 - ex) by lia. rewrite Hk in H. rewrite ?Hk.
    destruct (binary_round_aux F64.prec F64.emax sx (Z.pos mx) ex loc_Exact)
      as [s | s | | s m e].
    + destruct H as (Hs & H). split; [exact Hs | ]. split; [lia | ].
      assert (0 < 2 ^ (e1 - ex)) by (apply Z.pow_pos_nonneg; lia).
      destruct (Z.lt_ge_cases (Z.pos mx) (2 ^ (e1 - ex))) as [ | Hge]; [assumption | ].
      assert (1 <= Z.pos mx / 2 ^ (e1 - ex)); [ | lia].
      apply Z.div_le_lower_bound; lia.
    + destruct H as (Hs & H). split; [exact Hs | ]. lia.
    + exact H.
    + destruct H as (Hs & He & Hval & _ & Hmag).
      split; [exact Hs | ]. split; [lia | ]. split; [lia | ].
      split; [lia | ]. split; [intros _; exact Hval | lia].
  - assert (Hz : Z.pos (Pos.iter xO mx p) = Z.pos mx * 2 ^ (ex - e1)).
    { rewrite iter_xO_pow2. f_equal. f_equal. lia. }
    pose proof (binary_round_aux_spec sx (Z.pos (Pos.iter xO mx p)) e1 ltac:(lia)) as H.
    cbv zeta in H. unfold round_shift in H.
    assert (Hdz : Zdigits2 (Z.pos (Pos.iter xO mx p)) = d + (ex - e1)).
    { rewrite Hz, Zdigits2_mul_pow2 by lia. lia. }
    rewrite Hdz in H.
    replace (d + (ex - e1) + e1) with (d + ex) in H by lia.
    rewrite <- He1def in H.
    replace (e1 - e1) with 0 in H by lia. rewrite Z.max_id in H.
    destruct (binary_round_aux F64.prec F64.emax sx (Z.pos (Pos.iter xO mx p)) e1
                loc_Exact) as [s | s | | s m e].
    + destruct H as (_ & H). rewrite Z.pow_0_r, Z.div_1_r in H. lia.
    + destruct H as (Hs & H). split; [exact Hs | ]. lia.
    + exact H.
    + destruct H as (Hs & He & _ & Hex & Hmag). destruct (Hex eq_refl) as (Hm & Hee).
      split; [exact Hs | ]. split; [lia | ]. split; [lia | ].
      split; [ | split; lia]. intros _. split; [lia | ]. rewrite Hm. exact Hz.
Qed.

(** ** Sizes of sums and products *)

(** Normalising [z * 2 ^ e], a number below [2 ^ j] in absolute value: the
    result has the sign of [z] and is below [2 ^ (j + 1)]. *)
Lemma binary_normalize_below : forall z e j,
  Zdigits2 z + e <= j -> -1074 <= j <= 1023 ->
  match binary_normalize F64.prec F64.emax z e false with
  | S754_zero s => s = (z <? 0)
  | S754_finite s m e' => s = (z <? 0) /\ Zdigits2 (Z.pos m) + e' <= j + 1
  | _ => False
  end.
Proof.
  intros z e j Hz Hj. unfold binary_normalize.
  destruct z as [ | p | p]; [reflexivity | | ].
  - pose proof (binary_round_spec false p e) as H. cbv zeta in H.
    destruct (binary_round F64.prec F64.emax false p e) as [s | s | | s m e'].
    + tauto.
    + rewrite fexp64_eq in H. simpl Zdigits2 in *. lia.
    + exact H.
    + destruct H as (Hs & _ & Hmag & _). split; [exact Hs | ].
      simpl Zdigits2 in *. lia.
  - pose proof (binary_round_spec true p e) as H. cbv zeta in H.
    destruct (binary_round F64.prec F64.emax true p e) as [s | s | | s m e'].
    + tauto.
    + rewrite fexp64_eq in H. simpl Zdigits2 in *. lia.
    + exact H.
    + destruct H as (Hs & _ & Hmag & _). split; [exact Hs | ].
      simpl Zdigits2 in *. lia.
Qed.

Lemma shl_align_fst : forall m e ez,
  ez <= e ->
  Z.pos (fst (shl_align m e ez)) = Z.pos m * 2 ^ (e - ez).
Proof.
  intros m e ez H. unfold shl_align.
  destruct (ez - e) as [ | p | p] eqn:E; cbn [fst].
  - replace (e - ez) with 0 by lia. lia.
  - lia.
  - rewrite iter_xO_pow2. f_equal. f_equal. lia.
Qed.

(** The sum of two finite numbers, as a normalised integer multiple of the
    smaller unit. *)
Lemma SFadd_finite : forall sx mx ex sy my ey,
  let ez := Z.min ex ey in
  F64.add (S754_finite sx mx ex) (S754_finite sy my ey)
  = binary_normalize F64.prec F64.emax
      (cond_Zopp sx (Z.pos mx * 2 ^ (ex - ez))
       + cond_Zopp sy (Z.pos my * 2 ^ (ey - ez))) ez false.
Proof.
  intros sx mx ex sy my ey ez. unfold F64.add, SFadd. fold ez.
  rewrite !shl_align_fst by (subst ez; lia). reflexivity.
Qed.

Lemma Zdigits2_opp : forall z, Zdigits2 (- z) = Zdigits2 z.
Proof. intros [ | p | p]; reflexivity. Qed.

Lemma Zdigits2_abs : forall z, Zdigits2 (Z.abs z) = Zdigits2 z.
Proof. intros [ | p | p]; reflexivity. Qed.

(** The digits of a difference of positive numbers. *)
Lemma Zdigits2_diff : forall a b,
  0 < a -> 0 < b -> Zdigits2 (b - a) <= Z.max (Zdigits2 a) (Zdigits2 b).
Proof.
  intros a b Ha Hb. rewrite <- Zdigits2_abs.
  destruct (Z.le_ge_cases a b).
  - etransitivity; [apply (Zdigits2_mono _ b); lia | lia].
  - etransitivity; [apply (Zdigits2_mono _ a); lia | lia].
Qed.

(** A negative and a positive number, both below [2 ^ j]: their sum is
    finite and below [2 ^ (j + 1)]. *)
Lemma add_opposite_below : forall ma ea mp ep j,
  Zdigits2 (Z.pos ma) + ea <= j ->
  Zdigits2 (Z.pos mp) + ep <= j ->
  -1074 <= j <= 1023 ->
  below_pow2 (j + 1) (F64.add (S754_finite true ma ea) (S754_finite false mp ep)).
Proof.
  intros ma ea mp ep j Ha Hp Hj. rewrite SFadd_finite. cbv zeta.
  set (ez := Z.min ea ep).
  set (a := Z.pos ma * 2 ^ (ea - ez)). set (b := Z.pos mp * 2 ^ (ep - ez)).
  assert (Hda : Zdigits2 a = Zdigits2 (Z.pos ma) + (ea - ez))
    by (subst a; apply Zdigits2_mul_pow2; subst ez; lia).
  assert (Hdb : Zdigits2 b = Zdigits2 (Z.pos mp) + (ep - ez))
    by (subst b; apply Zdigits2_mul_pow2; subst ez; lia).
  assert (Hpa : 0 < a).
  { subst a. apply Z.mul_pos_pos; [lia | apply Z.pow_pos_nonneg; subst ez; lia]. }
  assert (Hpb : 0 < b).
  { subst b. apply Z.mul_pos_pos; [lia | apply Z.pow_pos_nonneg; subst ez; lia]. }
  cbn [cond_Zopp].
  pose proof (Zdigits2_diff a b Hpa Hpb) as Hd.
  replace (- a + b) with (b - a) by lia.
  pose proof (binary_normalize_below (b - a) ez j ltac:(lia) Hj) as H.
  unfold below_pow2.
  destruct (binary_normalize F64.prec F64.emax (b - a) ez false); tauto.
Qed.

Lemma Zdigits2_mul : forall a b,
  0 < a -> 0 < b -> Zdigits2 (a * b) <= Zdigits2 a + Zdigits2 b.
Proof.
  intros a b Ha Hb.
  pose proof (Zdigits2_bounds a Ha) as [_ Ha'].
  pose proof (Zdigits2_bounds b Hb) as [_ Hb'].
  pose proof (Zdigits2_pos a Ha). pose proof (Zdigits2_pos b Hb).
  apply Zdigits2_le; [nia | lia | ].
  rewrite Z.pow_add_r by lia. nia.
Qed.

(** The product of two non-negative finite numbers below [2 ^ jx] and
    [2 ^ jy] is a non-negative finite number below [2 ^ (jx + jy + 1)]. *)
Lemma mul_nonneg_below : forall x y jx jy,
  nonneg_finite x -> nonneg_finite y ->
  below_pow2 jx x -> below_pow2 jy y ->
  -1074 <= jx + jy <= 972 ->
  nonneg_finite (F64.mul x y) /\ below_pow2 (jx + jy + 1) (F64.mul x y).
Proof.
  intros [[ | ] | | | [ | ] mx ex] [[ | ] | | | [ | ] my ey] jx jy Hx Hy Bx By Hj;
    try contradiction; try (split; exact I).
  unfold F64.mul, SFmul. cbn [xorb].
  unfold below_pow2 in Bx, By.
  pose proof (Zdigits2_pos (Z.pos mx) ltac:(lia)) as Hdx.
  pose proof (Zdigits2_pos (Z.pos my) ltac:(lia)) as Hdy.
  pose proof (Zdigits2_mul (Z.pos mx) (Z.pos my) ltac:(lia) ltac:(lia)) as Hd.
  pose proof (binary_round_aux_spec false (Z.pos mx * Z.pos my) (ex + ey) ltac:(lia))
    as H.
  cbv zeta in H. change (Z.pos mx * Z.pos my) with (Z.pos (mx * my)) in *.
  destruct (binary_round_aux F64.prec F64.emax false (Z.pos (mx * my)) (ex + ey)
              loc_Exact) as [s | s | | s m e].
  - destruct H as (-> & _). split; exact I.
  - exfalso. destruct H as (_ & H). rewrite fexp64_eq in H. lia.
  - contradiction.
  - destruct H as (-> & _ & _ & _ & Hmag). split; [exact I | ].
    unfold below_pow2. lia.
Qed.

(** [random()] is a non-negative finite number below 1. *)
Lemma random_random_range : forall w,
  exists r w',
    random_random w = (Ok r, w') /\ nonneg_finite r /\ below_pow2 0 r.
Proof.
  intro w. unfold random_random, next_word. unfold_monad.
  eexists. eexists. split; [reflexivity | ].
  set (k := Z.of_N (w_rand w (w_rpos w)) mod 2 ^ 53).
  assert (Hk : 0 <= k < 2 ^ 53) by (subst k; apply Z.mod_pos_bound; lia).
  clearbody k. unfold binary_normalize.
  destruct k as [ | p | p]; [split; exact I | | lia].
  pose proof (binary_round_spec false p (-53)) as H. cbv zeta in H.
  assert (Hd : Zdigits2 (Z.pos p) <= 53) by (apply Zdigits2_le; lia).
  pose proof (Zdigits2_pos (Z.pos p) ltac:(lia)) as Hd0.
  rewrite fexp64_eq in H.
  destruct (binary_round F64.prec F64.emax false p (-53)) as [s | s | | s m e].
  - lia.
  - rewrite fexp64_eq in H. lia.
  - contradiction.
  - destruct H as (-> & _ & _ & Hex & _). split; [exact I | ].
    destruct (Hex ltac:(lia)) as (He & Hm).
    unfold below_pow2. rewrite Hm, Zdigits2_mul_pow2 by lia. lia.
Qed.

(** Adding a finite number below 1 in absolute value to 1 gives a finite
    number that is not negative. *)
Lemma add_one_nonneg : forall u,
  below_pow2 0 u -> nonneg_finite (F64.add F64.one u).
Proof.
  intros [s | s | | s mu eu] Hu; try contradiction.
  - destruct s; exact I.
  - unfold below_pow2 in Hu. unfold F64.one. rewrite SFadd_finite. cbv zeta.
    set (ez := Z.min (-52) eu).
    set (a := 4503599627370496 * 2 ^ (-52 - ez)).
    set (b := Z.pos mu * 2 ^ (eu - ez)).
    assert (Hez : ez <= -52 /\ ez <= eu) by (subst ez; lia).
    assert (Ha : a = 2 ^ (- ez)).
    { subst a. change 4503599627370496 with (2 ^ 52).
      rewrite <- Z.pow_add_r by lia. f_equal. lia. }
    assert (Hpa : 0 < a) by (rewrite Ha; apply Z.pow_pos_nonneg; lia).
    assert (Hb : 0 < b < a).
    { subst b. split.
      - apply Z.mul_pos_pos; [lia | apply Z.pow_pos_nonneg; lia].
      - pose proof (Zdigits2_bounds (Z.pos mu) ltac:(lia)) as [_ Hhi].
        pose proof (Zdigits2_pos (Z.pos mu) ltac:(lia)) as Hd.
        assert (Hle : 2 ^ Zdigits2 (Z.pos mu) * 2 ^ (eu - ez) <= 2 ^ (- ez)).
        { rewrite <- Z.pow_add_r by lia. apply Z.pow_le_mono_r; lia. }
        assert (0 < 2 ^ (eu - ez)) by (apply Z.pow_pos_nonneg; lia).
        rewrite Ha. nia. }
    cbn [cond_Zopp].
    set (sum := a + cond_Zopp s b).
    assert (Hsum : 0 < sum <= 2 * a)
      by (subst sum; destruct s; cbn [cond_Zopp]; lia).
    assert (Hds : Zdigits2 sum + ez <= 2).
    { assert (Zdigits2 sum <= - ez + 2); [ | lia].
      apply Zdigits2_le; [lia | lia | ].
      replace (- ez + 2) with (- ez + 1 + 1) by lia.
      rewrite !Z.pow_add_r by lia. rewrite <- Ha. lia. }
    pose proof (binary_normalize_below sum ez 2 Hds ltac:(lia)) as H.
    assert (Hneg : (sum <? 0) = false) by (apply Z.ltb_ge; lia).
    rewrite Hneg in H.
    destruct (binary_normalize F64.prec F64.emax sum ez false) as [s' | s' | | s' m e];
      try contradiction.
    + subst s'. exact I.
    + destruct H as (-> & _). exact I.
Qed.

(** [1 + random.uniform(-0.07, 0.07)] is a finite number that is not
    negative, whatever the entropy. *)
Lemma jitter_nonneg : forall w,
  exists f w', jitter w = (Ok f, w') /\ nonneg_finite f.
Proof.
  intro w. destruct (random_random_range w) as (r & w' & Hr & Hn & Hb).
  unfold jitter, random_uniform. unfold bind, ret. rewrite Hr.
  eexists. eexists. split; [reflexivity | ].
  apply add_one_nonneg.
  assert (Hc : F64.sub F64.c0_07 (SFopp F64.c0_07)
               = S754_finite false 5044031582654956 (-55))
    by (vm_compute; reflexivity).
  rewrite Hc.
  destruct (mul_nonneg_below (S754_finite false 5044031582654956 (-55)) r (-2) 0)
    as (Hpn & Hpb); try assumption; try exact I.
  { unfold below_pow2. simpl. lia. }
  { lia. }
  cbn [Z.add] in Hpb.
  destruct (F64.mul (S754_finite false 5044031582654956 (-55)) r)
    as [[ | ] | | | [ | ] mp ep]; try contradiction.
  - simpl. lia.
  - change (SFopp F64.c0_07) with (S754_finite true 5044031582654956 (-56)).
    apply (add_opposite_below _ _ _ _ (-1)).
    + simpl. lia.
    + exact Hpb.
    + lia.
Qed.

(** ** Bounds of the clamped fluctuations *)

Lemma of_Z_not_infinity : forall n,
  - 2 ^ 63 <= n < 2 ^ 63 -> F64.is_infinity (F64.of_Z n) = false.
Proof.
  intros n Hn.
  assert (Hd : Zdigits2 n + 0 <= 64).
  { rewrite Z.add_0_r, <- Zdigits2_abs. apply Zdigits2_le; lia. }
  pose proof (binary_normalize_below n 0 64 Hd ltac:(lia)) as H.
  unfold F64.of_Z.
  destruct (binary_normalize F64.prec F64.emax n 0 false); try reflexivity.
  contradiction.
Qed.

Lemma jittered_numeric : forall (value : pyval) (w : World),
  numeric_cell value = true ->
  exists (y : float) (w' : World), jittered value w = (Ok y, w').
Proof.
  intros value w Hnum.
  destruct (jitter_nonneg w) as (f & w' & Hj & _).
  unfold jittered, bind, lift. rewrite Hj.
  destruct value as [n | x | b | s]; cbn [py_mul_float]; eauto; [ | discriminate].
  unfold float_of_int. rewrite of_Z_not_infinity; [eauto | ].
  cbn [numeric_cell] in Hnum. apply andb_true_iff in Hnum as [H1 H2].
  apply Z.leb_le in H1. apply Z.ltb_lt in H2. lia.
Qed.

Lemma percentage_between : forall (value : pyval) (c : string) (w : World),
  numeric_cell value = true ->
  str_in c ["humidity"; "fill_level"] = true ->
  returns_between F64.zero F64.c100 (generate_fluctuation value TFloat c) w.
Proof.
  intros value c w Hnum Hc.
  assert (Hs : String.eqb c "status" = false).
  { simpl in Hc. destruct (String.eqb_spec c "status") as [-> | ]; [discriminate | reflexivity]. }
  assert (Hp : str_in c PROTECTED_COLUMNS = false).
  { simpl in Hc. apply orb_true_iff in Hc as [Hc | Hc].
    - apply String.eqb_eq in Hc. subst. reflexivity.
    - rewrite orb_false_r in Hc. apply String.eqb_eq in Hc. subst. reflexivity. }
  destruct (jittered_numeric value w Hnum) as (y & w' & Hj).
  unfold returns_between, generate_fluctuation.
  unfold bind at 1. unfold get at 1. rewrite Hs. simpl andb.
  rewrite Hp. cbn [pytype_eqb andb]. rewrite Hc.
  unfold bind, ret. rewrite Hj.
  eexists; eexists; split; [reflexivity | ].
  apply py_min_float_bounds; try reflexivity. apply py_max_float_lower.
Qed.

Lemma ph_between : forall (value : pyval) (w : World),
  numeric_cell value = true ->
  returns_between F64.zero F64.c14 (generate_fluctuation value TFloat "ph") w.
Proof.
  intros value w Hnum.
  destruct (jittered_numeric value w Hnum) as (y & w' & Hj).
  unfold returns_between, generate_fluctuation.
  unfold bind at 1. unfold get at 1. cbn [String.eqb Ascii.eqb Bool.eqb andb].
  cbn [str_in existsb PROTECTED_COLUMNS String.eqb Ascii.eqb Bool.eqb orb pytype_eqb andb].
  unfold bind, ret. rewrite Hj.
  eexists; eexists; split; [reflexivity | ].
  apply py_min_float_bounds; try reflexivity. apply py_max_float_lower.
Qed.

Lemma usage_at_least : forall (value : pyval) (c : string) (w : World),
  numeric_cell value = true ->
  str_in c ["rainfall"; "electricity_usage"; "water_usage"; "energy_consumption"]
    = true ->
  returns_at_least F64.zero (generate_fluctuation value TFloat c) w.
Proof.
  intros value c w Hnum Hc.
  assert (Hcases : c = "rainfall" \/ c = "electricity_usage" \/ c = "water_usage"
                   \/ c = "energy_consumption").
  { simpl in Hc. repeat (apply orb_true_iff in Hc as [Hc | Hc];
      [apply String.eqb_eq in Hc; auto | ]). discriminate. }
  destruct (jittered_numeric value w Hnum) as (y & w' & Hj).
  unfold returns_at_least, generate_fluctuation.
  unfold bind at 1. unfold get at 1.
  destruct Hcases as [-> | [-> | [-> | ->]]];
    cbn [str_in existsb PROTECTED_COLUMNS String.eqb Ascii.eqb Bool.eqb orb
         pytype_eqb andb];
    unfold bind, ret; rewrite Hj;
    (eexists; eexists; split; [reflexivity | apply py_max_float_lower]).
Qed.

(** C2. Whatever the number in the cell (a float, NaN and the infinities
    included, a 64-bit integer or a boolean) and whatever the random draw,
    the fluctuation of a percentage column ([humidity], [fill_level]) is a
    float in [0, 100], that of the [ph] column is a float in [0, 14], and
    that of a non-negative multiplicative column ([rainfall],
    [electricity_usage], [water_usage], [energy_consumption]) is a float not
    below 0. *)
Theorem generate_fluctuation_bounds : forall (value : pyval) (w : World),
  numeric_cell value = true ->
  let fluctuate := generate_fluctuation value TFloat in
  returns_between F64.zero F64.c100 (fluctuate "humidity") w
  /\ returns_between F64.zero F64.c100 (fluctuate "fill_level") w
  /\ returns_between F64.zero F64.c14 (fluctuate "ph") w
  /\ returns_at_least F64.zero (fluctuate "rainfall") w
  /\ returns_at_least F64.zero (fluctuate "electricity_usage") w
  /\ returns_at_least F64.zero (fluctuate "water_usage") w
  /\ returns_at_least F64.zero (fluctuate "energy_consumption") w.
Proof.
  intros value w Hnum fluctuate. unfold fluctuate.
  repeat split;
    first [ apply percentage_between; [exact Hnum | reflexivity]
          | apply ph_between; exact Hnum
          | apply usage_at_least; [exact Hnum | reflexivity] ].
Qed.

Lemma generate_fluctuation_bounds_witness :
  let fluctuate :=
    generate_fluctuation (VFloat (S754_infinity false)) TFloat in
  returns_between F64.zero F64.c100 (fluctuate "humidity") parking_world
  /\ returns_between F64.zero F64.c100 (fluctuate "fill_level") parking_world
  /\ returns_between F64.zero F64.c14 (fluctuate "ph") parking_world
  /\ returns_at_least F64.zero (fluctuate "rainfall") parking_world
  /\ returns_at_least F64.zero (fluctuate "electricity_usage") parking_world
  /\ returns_at_least F64.zero (fluctuate "water_usage") parking_world
  /\ returns_at_least F64.zero (fluctuate "energy_consumption") parking_world.
Proof.
  apply (generate_fluctuation_bounds (VFloat (S754_infinity false)) parking_world).
  reflexivity.
Defined.

(** ** Zero under multiplicative jitter *)

Lemma jittered_zero : forall s w,
  exists w', jittered (VFloat (S754_zero s)) w = (Ok (S754_zero s), w').
Proof.
  intros s w. destruct (jitter_nonneg w) as (f & w' & Hj & Hf).
  exists w'. unfold jittered, bind, lift. rewrite Hj. unfold py_mul_float.
  destruct f as [[ | ] | | | [ | ] m e]; try contradiction;
    unfold F64.mul, SFmul; destruct s; reflexivity.
Qed.

Lemma fluctuation_of_zero : forall s c w,
  exists s' w',
    generate_fluctuation (VFloat (S754_zero s)) TFloat c w
    = (Ok (VFloat (S754_zero s')), w')
    /\ (s = false -> s' = false).
Proof.
  intros s c w. destruct (jittered_zero s w) as (w' & Hj).
  unfold generate_fluctuation. unfold bind at 1. unfold get at 1.
  cbn [pytype_eqb andb]. rewrite andb_false_r. cbn [andb].
  destruct (str_in c PROTECTED_COLUMNS).
  { exists s, w. split; [reflexivity | auto]. }
  destruct (str_in c ["humidity"; "fill_level"]).
  { unfold bind, ret. rewrite Hj. exists false, w'.
    split; [destruct s; reflexivity | auto]. }
  destruct (String.eqb c "ph").
  { unfold bind, ret. rewrite Hj. exists false, w'.
    split; [destruct s; reflexivity | auto]. }
  destruct (str_in c ["rainfall"; "electricity_usage"; "water_usage";
                      "energy_consumption"]).
  { unfold bind, ret. rewrite Hj. exists false, w'.
    split; [destruct s; reflexivity | auto]. }
  unfold bind, ret. rewrite Hj. exists s, w'. split; [reflexivity | auto].
Qed.

(** C10. Zero is a fixed point of the multiplicative fluctuation: whatever
    the name of the float column and whatever the entropy, the fluctuation
    of the cell value 0.0 is 0.0, so that a cell that holds 0.0 holds 0.0
    after any number of further fluctuations; and the fluctuation of the
    negative zero is a zero again. *)
Theorem zero_is_fixed_point :
  (forall c w, exists w',
      generate_fluctuation (VFloat F64.zero) TFloat c w = (Ok (VFloat F64.zero), w'))
  /\ (forall c n w,
        fst (fluctuate_n c TFloat n (VFloat F64.zero) w) = Ok (VFloat F64.zero))
  /\ (forall c w, exists s' w',
        generate_fluctuation (VFloat (S754_zero true)) TFloat c w
        = (Ok (VFloat (S754_zero s')), w')).
Proof.
  assert (Hone : forall c w, exists w',
             generate_fluctuation (VFloat F64.zero) TFloat c w
             = (Ok (VFloat F64.zero), w')).
  { intros c w. destruct (fluctuation_of_zero false c w) as (s' & w' & H & Hs).
    rewrite (Hs eq_refl) in H. eauto. }
  split; [exact Hone | split].
  - intros c n. induction n as [ | n IH]; intro w; [reflexivity | ].
    cbn [fluctuate_n]. unfold bind.
    destruct (Hone c w) as (w' & ->). apply IH.
  - intros c w. destruct (fluctuation_of_zero true c w) as (s' & w' & H & _). eauto.
Qed.

(** ** The counts [int(n * 0.3)] and [int(n * 0.7)] *)

(** [float(n)] for a length [n]: a positive finite number, larger than [n]
    by at most one part in [2 ^ 52]. *)
Lemma of_Z_spec : forall n,
  1 <= n < 2 ^ 63 ->
  exists mx ex,
    F64.of_Z n = S754_finite false mx ex
    /\ -52 <= ex <= 11
    /\ Zdigits2 (Z.pos mx) + ex <= 64
    /\ 2 ^ 52 * (Z.pos mx * 2 ^ (ex + 52)) <= (2 ^ 52 + 1) * (n * 2 ^ 52).
Proof.
  intros n Hn. unfold F64.of_Z, binary_normalize.
  destruct n as [ | p | p]; try lia.
  pose proof (binary_round_spec false p 0) as H. cbv zeta in H.
  pose proof (Zdigits2_bounds (Z.pos p) ltac:(lia)) as [Hlo Hhi].
  pose proof (Zdigits2_pos (Z.pos p) ltac:(lia)) as Hd.
  assert (Hd63 : Zdigits2 (Z.pos p) <= 63) by (apply Zdigits2_le; lia).
  set (d := Zdigits2 (Z.pos p)) in *.
  rewrite Z.add_0_r in H. rewrite !fexp64_eq in H.
  rewrite (Z.max_l (d - 53) (-1074)) in H by lia.
  rewrite (Z.max_l (d + 1 - 53) (-1074)) in H by lia.
  destruct (binary_round F64.prec F64.emax false p 0) as [s | s | | s m e].
  - exfalso. destruct H as (_ & He & Hsmall).
    assert (2 ^ (d - 53 - 0) <= 2 ^ (d - 1)) by (apply Z.pow_le_mono_r; lia).
    lia.
  - lia.
  - contradiction.
  - destruct H as (-> & He & Hmag & Hexact & Hround & Hup).
    exists m, e. split; [reflexivity | ]. split; [lia | ]. split; [lia | ].
    destruct (Z.le_gt_cases (d - 53) 0) as [Hsmall | Hbig].
    + destruct (Hexact Hsmall) as (-> & ->).
      replace (0 - (d - 53)) with (53 - d) by lia.
      rewrite <- Z.mul_assoc, <- Z.pow_add_r by lia.
      replace (53 - d + (d - 53 + 52)) with 52 by lia.
      assert (0 < Z.pos p * 2 ^ 52) by lia. lia.
    + specialize (Hround Hbig). rewrite !Z.sub_0_r in Hround.
      assert (Hg : 2 ^ (d - 53) * 2 ^ 52 <= Z.pos p).
      { rewrite <- Z.pow_add_r by lia. replace (d - 53 + 52) with (d - 1) by lia.
        exact Hlo. }
      assert (Hq : Z.pos p / 2 ^ (d - 53) * 2 ^ (d - 53) <= Z.pos p).
      { rewrite Z.mul_comm. apply Z.mul_div_le. apply Z.pow_pos_nonneg; lia. }
      rewrite Z.pow_add_r by lia. rewrite Z.mul_assoc.
      set (v := Z.pos m * 2 ^ e) in *.
      set (g := 2 ^ (d - 53)) in *.
      set (q := Z.pos p / g) in *.
      assert (0 < g) by (subst g; apply Z.pow_pos_nonneg; lia).
      change (2 ^ 52) with 4503599627370496 in *. nia.
Qed.

(** The integer part of a positive finite number, from a multiple of a
    smaller unit. *)
Lemma trunc_scaled : forall m e E,
  E <= e -> E <= 0 ->
  F64.trunc (S754_finite false m e) = Some (Z.pos m * 2 ^ (e - E) / 2 ^ (- E)).
Proof.
  intros m e E He HE. unfold F64.trunc. f_equal.
  assert (Hp : 0 < 2 ^ (- E)) by (apply Z.pow_pos_nonneg; lia).
  destruct (Z.leb_spec 0 e) as [Hpos | Hneg].
  - replace (e - E) with (e + - E) by lia.
    rewrite Z.pow_add_r by lia. rewrite Z.mul_assoc, Z.div_mul by lia. reflexivity.
  - replace (- E) with (e - E + - e) by lia.
    rewrite Z.pow_add_r by lia.
    rewrite (Z.mul_comm (2 ^ (e - E)) (2 ^ (- e))).
    rewrite Z.div_mul_cancel_r; try (apply Z.pow_nonzero; lia).
    reflexivity.
Qed.

(** The product of [float(n)] by a literal between 1/4 and 1: its integer
    part is the quotient of a number [A] within one part in [2 ^ 52] of the
    exact product of the mantissas. *)
Lemma mul_literal_spec : forall mx ex mc ec,
  -52 <= ex <= 11 ->
  Zdigits2 (Z.pos mx) + ex <= 64 ->
  2 ^ 52 <= Z.pos mc < 2 ^ 53 ->
  -54 <= ec <= -53 ->
  exists A,
    F64.trunc (F64.mul (S754_finite false mx ex) (S754_finite false mc ec))
    = Some (A / 2 ^ (- (ex + ec)))
    /\ 2 ^ 52 * A <= (2 ^ 52 + 1) * (Z.pos mx * Z.pos mc)
    /\ (2 ^ 52 - 1) * (Z.pos mx * Z.pos mc) <= 2 ^ 52 * A.
Proof.
  intros mx ex mc ec Hex Hdx Hmc Hec.
  unfold F64.mul, SFmul. cbn [xorb].
  set (P := Z.pos mx * Z.pos mc).
  assert (HP : 2 ^ 52 <= P) by (subst P; nia).
  change (Z.pos (mx * mc)) with P.
  pose proof (binary_round_aux_spec false P (ex + ec) ltac:(lia)) as H.
  cbv zeta in H. unfold round_shift in H.
  pose proof (Zdigits2_bounds P ltac:(lia)) as [Hlo Hhi].
  assert (Hd53 : 53 <= Zdigits2 P).
  { destruct (Z.le_gt_cases 53 (Zdigits2 P)) as [ | Hlt]; [assumption | exfalso].
    assert (2 ^ Zdigits2 P <= 2 ^ 52).
    { apply Z.pow_le_mono_r; [lia | ]. lia. }
    lia. }
  assert (Hdmc : Zdigits2 (Z.pos mc) = 53) by (apply Zdigits2_unique; lia).
  pose proof (Zdigits2_mul (Z.pos mx) (Z.pos mc) ltac:(lia) ltac:(lia)) as HdP.
  fold P in HdP. rewrite Hdmc in HdP.
  set (d := Zdigits2 P) in *.
  rewrite !fexp64_eq in H.
  replace (Z.max 0 (Z.max (d + (ex + ec) - 53) (-1074) - (ex + ec)))
    with (d - 53) in H by lia.
  set (k := d - 53) in *.
  assert (Hk : 0 <= k) by (subst k; lia).
  assert (Hg : 2 ^ k * 2 ^ 52 <= P).
  { rewrite <- Z.pow_add_r by lia. replace (k + 52) with (d - 1) by (subst k; lia).
    exact Hlo. }
  assert (Hpk : 0 < 2 ^ k) by (apply Z.pow_pos_nonneg; lia).
  pose proof (Z.mul_div_le P (2 ^ k) Hpk) as Hq1.
  pose proof (Z.mul_succ_div_gt P (2 ^ k) Hpk) as Hq2.
  set (q := P / 2 ^ k) in *.
  destruct (binary_round_aux F64.prec F64.emax false P (ex + ec) loc_Exact)
    as [s | s | | s m e].
  - exfalso. destruct H as (_ & H0). rewrite H0 in Hq2.
    change (2 ^ 52) with 4503599627370496 in *. lia.
  - exfalso. destruct H as (_ & H). lia.
  - contradiction.
  - destruct H as (-> & He & Hval & _ & _ & _).
    exists (Z.pos m * 2 ^ (e - (ex + ec))).
    split; [apply trunc_scaled; lia | ].
    set (A := Z.pos m * 2 ^ (e - (ex + ec))) in *.
    change (2 ^ 52) with 4503599627370496 in *. nia.
Qed.

(** For a length [n] between 1 and [2 ^ 63], [int(n * 0.3)] and
    [int(n * 0.7)] are defined and ordered, and neither exceeds [n]. *)
Lemma count_bounds : forall n,
  1 <= n < 2 ^ 63 ->
  exists lo hi,
    F64.trunc (F64.mul (F64.of_Z n) F64.c0_3) = Some lo
    /\ F64.trunc (F64.mul (F64.of_Z n) F64.c0_7) = Some hi
    /\ 0 <= lo <= hi /\ hi <= n.
Proof.
  intros n Hn.
  destruct (of_Z_spec n Hn) as (mx & ex & Hx & Hex & Hdx & Hval).
  rewrite Hx. unfold F64.c0_3, F64.c0_7.
  destruct (mul_literal_spec mx ex 5404319552844595 (-54) Hex Hdx)
    as (A3 & Ht3 & Hu3 & Hl3); [lia | lia | ].
  destruct (mul_literal_spec mx ex 6305039478318694 (-53) Hex Hdx)
    as (A7 & Ht7 & Hu7 & Hl7); [lia | lia | ].
  rewrite Ht3, Ht7.
  eexists. eexists. split; [reflexivity | ]. split; [reflexivity | ].
  assert (Hp3 : 0 < 2 ^ (- (ex + -54))) by (apply Z.pow_pos_nonneg; lia).
  assert (Hp7 : 0 < 2 ^ (- (ex + -53))) by (apply Z.pow_pos_nonneg; lia).
  assert (Hsplit : 2 ^ (- (ex + -54)) = 2 * 2 ^ (- (ex + -53))).
  { replace (- (ex + -54)) with (Z.succ (- (ex + -53))) by lia.
    apply Z.pow_succ_r. lia. }
  assert (Hhi : A7 / 2 ^ (- (ex + -53)) = 2 * A7 / 2 ^ (- (ex + -54))).
  { rewrite Hsplit. rewrite Z.div_mul_cancel_l; lia. }
  change (2 ^ 52) with 4503599627370496 in *.
  assert (HA3 : 0 <= A3) by lia.
  split; [split | ].
  - apply Z.div_pos; lia.
  - rewrite Hhi. apply Z.div_le_mono; lia.
  - apply Z.div_le_upper_bound; [lia | ].
    (* compare after scaling both sides by 2 ^ (ex + 52) *)
    assert (Hpu : 0 < 2 ^ (ex + 52)) by (apply Z.pow_pos_nonneg; lia).
    apply (Z.mul_le_mono_pos_r _ _ (2 ^ (ex + 52)) Hpu).
    replace (2 ^ (- (ex + -53)) * n * 2 ^ (ex + 52))
      with (n * (2 ^ (- (ex + -53)) * 2 ^ (ex + 52))) by ring.
    rewrite <- Z.pow_add_r by lia.
    replace (- (ex + -53) + (ex + 52)) with 105 by lia.
    set (U := 2 ^ (ex + 52)) in *.
    assert (HY : 4503599627370496 * (A7 * U)
                 <= 4503599627370497 * (6305039478318694 * (Z.pos mx * U))) by nia.
    change (2 ^ 105) with 40564819207303340847894502572032.
    nia.
Qed.

(** ** How many tables and rows a cycle selects *)

Lemma randbelow_range : forall n w,
  0 < n ->
  exists j w', randbelow n w = (Ok j, w') /\ 0 <= j < n.
Proof.
  intros n w Hn. unfold randbelow, next_word. unfold_monad.
  eexists. eexists. split; [reflexivity | ]. apply Z.mod_pos_bound. exact Hn.
Qed.

Lemma random_randint_range : forall a b w,
  a <= b ->
  exists k w', random_randint a b w = (Ok k, w') /\ a <= k <= b.
Proof.
  intros a b w Hab. unfold random_randint.
  destruct (Z.ltb_spec b a); [lia | ].
  destruct (randbelow_range (b - a + 1) w ltac:(lia)) as (j & w' & Hj & Hr).
  unfold bind, ret. rewrite Hj. eexists. eexists. split; [reflexivity | lia].
Qed.

Lemma choose_count_spec : forall n w,
  1 <= n < 2 ^ 63 ->
  exists k w',
    choose_count n w = (Ok k, w')
    /\ Z.max 1 (int_scaled n F64.c0_3) <= k <= Z.max 1 (int_scaled n F64.c0_7)
    /\ 1 <= k <= n.
Proof.
  intros n w Hn.
  destruct (count_bounds n Hn) as (lo & hi & Hlo & Hhi & Hle & Hhn).
  destruct (of_Z_spec n Hn) as (mx & ex & Hx & _).
  unfold int_scaled. rewrite Hlo, Hhi.
  destruct (random_randint_range (Z.max 1 lo) (Z.max 1 hi) w ltac:(lia))
    as (k & w' & Hk & Hr).
  exists k, w'. split; [ | lia].
  unfold choose_count, scaled_count, float_of_int.
  rewrite Hx in *. cbn [F64.is_infinity]. unfold bind, lift, ret.
  rewrite Hlo, Hhi. exact Hk.
Qed.

Lemma set_nth_length : forall A (f : A -> A) i l,
  List.length (set_nth i f l) = List.length l.
Proof.
  intros A f i l. revert i. induction l as [ | a l IH]; intros [ | i]; simpl; auto.
Qed.

Lemma removelast_length : forall A (l : list A),
  List.length (removelast l) = (List.length l - 1)%nat.
Proof.
  intros A l. induction l as [ | a l IH]; [reflexivity | ].
  destruct l as [ | b l]; [reflexivity | ].
  change (removelast (a :: b :: l)) with (a :: removelast (b :: l)).
  simpl List.length in *. rewrite IH. lia.
Qed.

(** A sample of [k] elements has [k] elements. *)
Lemma sample_loop_length : forall A k (pool : list A) w,
  (k <= List.length pool)%nat ->
  exists l w', sample_loop k pool w = (Ok l, w') /\ List.length l = k.
Proof.
  intros A k. induction k as [ | k IH]; intros pool w Hk.
  - exists [], w. split; reflexivity.
  - cbn [sample_loop].
    destruct (randbelow_range (Z.of_nat (List.length pool)) w ltac:(lia))
      as (j & w1 & Hj & Hr).
    unfold bind at 1. rewrite Hj.
    destruct (nth_error pool (Z.to_nat j)) as [x | ] eqn:Ex.
    2:{ apply nth_error_None in Ex. lia. }
    destruct (nth_error pool (List.length pool - 1)) as [last | ] eqn:El.
    2:{ apply nth_error_None in El. lia. }
    destruct (IH (removelast (set_nth (Z.to_nat j) (fun _ => last) pool)) w1)
      as (l & w2 & Hl & Hlen).
    { rewrite removelast_length, set_nth_length. lia. }
    unfold bind, ret. rewrite Hl. exists (x :: l), w2.
    split; [reflexivity | simpl; lia].
Qed.

Lemma random_sample_length : forall A (population : list A) k w,
  0 <= k <= Z.of_nat (List.length population) ->
  exists l w',
    random_sample population k w = (Ok l, w') /\ Z.of_nat (List.length l) = k.
Proof.
  intros A population k w Hk. unfold random_sample.
  destruct (Z.ltb_spec k 0); [lia | ].
  destruct (Z.ltb_spec (Z.of_nat (List.length population)) k); [lia | ].
  cbn [orb].
  destruct (sample_loop_length A (Z.to_nat k) population w ltac:(lia))
    as (l & w' & Hl & Hlen).
  exists l, w'. split; [exact Hl | lia].
Qed.

Lemma swap_length : forall A i j (l : list A),
  List.length (swap i j l) = List.length l.
Proof.
  intros A i j l. unfold swap.
  destruct (nth_error l i), (nth_error l j); try reflexivity.
  now rewrite !set_nth_length.
Qed.

Lemma shuffle_loop_length : forall A i (l : list A) w,
  exists l' w',
    shuffle_loop i l w = (Ok l', w') /\ List.length l' = List.length l.
Proof.
  intros A i. induction i as [ | i IH]; intros l w.
  - exists l, w. split; reflexivity.
  - cbn [shuffle_loop].
    destruct (randbelow_range (Z.of_nat (S i) + 1) w ltac:(lia))
      as (j & w1 & Hj & _).
    unfold bind. rewrite Hj.
    destruct (IH (swap (S i) (Z.to_nat j) l) w1) as (l' & w' & Hl & Hlen).
    exists l', w'. split; [exact Hl | ]. now rewrite Hlen, swap_length.
Qed.

Lemma choose_rows_nothing : forall w,
  choose_rows 0 w = (Raise nothing_to_sample, set_w_rpos (S (w_rpos w)) w).
Proof.
  intro w.
  unfold choose_rows, choose_count, scaled_count, float_of_int, random_randint,
    randbelow, next_word.
  cbn [List.length Z.of_nat]. unfold bind, lift, ret. cbn.
  rewrite Z.mod_1_r. reflexivity.
Qed.

Lemma choose_files_empty : forall CSV_FILE_PATH w,
  candidate_files CSV_FILE_PATH w = [] ->
  choose_files CSV_FILE_PATH w
  = (Raise nothing_to_sample, set_w_rpos (S (w_rpos w)) w).
Proof.
  intros CSV_FILE_PATH w H.
  assert (Hf : w_files w = []
               /\ match CSV_FILE_PATH with
                  | Some path =>
                      if String.eqb path "" then get_csv_files else ret [path]
                  | None => get_csv_files
                  end = get_csv_files).
  { destruct CSV_FILE_PATH as [path | ]; cbn in H.
    - destruct (String.eqb path ""); [ | discriminate].
      split; [now apply map_eq_nil in H | reflexivity].
    - split; [now apply map_eq_nil in H | reflexivity]. }
  destruct Hf as (Hf & Hm).
  unfold choose_files. rewrite Hm. unfold get_csv_files. unfold bind at 1 2.
  unfold get at 1. rewrite Hf. cbn [map]. unfold ret at 1.
  unfold bind at 1. unfold random_shuffle. cbn [List.length Nat.sub shuffle_loop].
  unfold ret at 1. unfold bind at 1.
  unfold choose_count, scaled_count, float_of_int, random_randint, randbelow,
    next_word.
  cbn [List.length Z.of_nat]. unfold bind, lift, ret. cbn.
  rewrite Z.mod_1_r. reflexivity.
Qed.

Lemma apply_mappings_rows : forall t df,
  List.length (df_rows (apply_mappings t df)) = List.length (df_rows df).
Proof.
  intros t df.
  pose proof (f_equal (@List.length _) (apply_mappings_view t df)) as H.
  unfold protected_view in H. now rewrite !length_map in H.
Qed.

(** C8 (amended).  For a number [n] of rows, or of candidate tables, that is
    at least one (and below [2 ^ 63], as every length is), the selection
    succeeds and the number selected lies between [max(1, int(n * 0.3))] and
    [max(1, int(n * 0.7))]; it is at least one and at most [n].  With no
    candidate table the cycle raises [ValueError] out of [random.sample],
    one draw of the random source later.  A table that reads as a frame
    with no rows is counted as one failed update: the pass returns [False]
    and, after the read, changes nothing but that counter and the position
    of the random source. *)
Theorem selection_sizes :
  (forall (CSV_FILE_PATH : option string) (w : World) (n : nat),
     1 <= Z.of_nat n < 2 ^ 63 ->
     let lo := Z.max 1 (int_scaled (Z.of_nat n) F64.c0_3) in
     let hi := Z.max 1 (int_scaled (Z.of_nat n) F64.c0_7) in
     (exists rows w',
        choose_rows n w = (Ok rows, w')
        /\ lo <= Z.of_nat (List.length rows) <= hi
        /\ 1 <= Z.of_nat (List.length rows) <= Z.of_nat n)
     /\ (List.length (candidate_files CSV_FILE_PATH w) = n ->
         exists files w',
           choose_files CSV_FILE_PATH w = (Ok files, w')
           /\ lo <= Z.of_nat (List.length files) <= hi
           /\ 1 <= Z.of_nat (List.length files) <= Z.of_nat n))
  /\ (forall MAX_RETRIES RETRY_DELAY_BASE CSV_FILE_PATH w,
        candidate_files CSV_FILE_PATH w = [] ->
        run_simulation_cycle MAX_RETRIES RETRY_DELAY_BASE CSV_FILE_PATH w
        = (Raise nothing_to_sample, set_w_rpos (S (w_rpos w)) w))
  /\ (forall MAX_RETRIES RETRY_DELAY_BASE path w df w1,
        read_csv MAX_RETRIES RETRY_DELAY_BASE path
          (set_is_street_light_data (String.eqb path "street_lights") w)
        = (Ok (Some df), w1) ->
        df_rows df = [] ->
        simulate_data_changes MAX_RETRIES RETRY_DELAY_BASE path w
        = (Ok false,
           set_stats (stats_failed (stats w1)) (set_w_rpos (S (w_rpos w1)) w1))).
Proof.
  split; [ | split].
  - intros CSV_FILE_PATH w n Hn lo hi. split.
    + destruct (choose_count_spec (Z.of_nat n) w Hn) as (k & w1 & Hk & Hr & Hkn).
      destruct (random_sample_length nat (seq 0 n) k w1) as (l & w2 & Hl & Hlen).
      { rewrite length_seq. lia. }
      exists l, w2. unfold choose_rows, bind. rewrite Hk, Hl, Hlen.
      split; [reflexivity | split; assumption].
    + intro Hlen.
      assert (Hfiles : exists w0,
                 (match CSV_FILE_PATH with
                  | Some path =>
                      if String.eqb path "" then get_csv_files else ret [path]
                  | None => get_csv_files
                  end) w = (Ok (candidate_files CSV_FILE_PATH w), w0)
                 /\ w0 = w).
      { exists w. split; [ | reflexivity].
        unfold candidate_files, get_csv_files. unfold_monad.
        destruct CSV_FILE_PATH as [path | ]; [ | reflexivity].
        destruct (String.eqb path ""); reflexivity. }
      destruct Hfiles as (w0 & Hf & ->).
      destruct (shuffle_loop_length string
                  (List.length (candidate_files CSV_FILE_PATH w) - 1)
                  (candidate_files CSV_FILE_PATH w) w) as (l1 & w1 & Hs & Hl1).
      destruct (choose_count_spec (Z.of_nat (List.length l1)) w1)
        as (k & w2 & Hk & Hr & Hkn).
      { rewrite Hl1, Hlen. exact Hn. }
      destruct (random_sample_length string l1 k w2) as (l & w3 & Hl & Hll).
      { lia. }
      exists l, w3. unfold choose_files. unfold bind at 1. rewrite Hf.
      unfold bind at 1. unfold random_shuffle. rewrite Hs.
      unfold bind. rewrite Hk, Hl, Hll.
      rewrite Hl1, Hlen in Hr, Hkn.
      split; [reflexivity | split; assumption].
  - intros MAX_RETRIES RETRY_DELAY_BASE CSV_FILE_PATH w H.
    unfold run_simulation_cycle. unfold bind.
    now rewrite choose_files_empty.
  - intros MAX_RETRIES RETRY_DELAY_BASE path w df w1 Hread Hrows.
    unfold simulate_data_changes, mutate_table.
    unfold try_except. unfold bind at 1. unfold bind at 1. unfold modify at 1.
    unfold bind at 1. rewrite Hread.
    unfold bind at 1. unfold ret at 1. cbv zeta.
    rewrite apply_mappings_rows, Hrows. cbn [List.length].
    unfold bind at 1. rewrite choose_rows_nothing.
    unfold update_stats. unfold_monad. reflexivity.
Qed.

Lemma selection_sizes_witness :
  Z.max 1 (int_scaled (Z.of_nat 10) F64.c0_3) = 3
  /\ Z.max 1 (int_scaled (Z.of_nat 10) F64.c0_7) = 7
  /\ ((exists rows w',
         choose_rows 10 ten_tables = (Ok rows, w')
         /\ Z.max 1 (int_scaled (Z.of_nat 10) F64.c0_3)
            <= Z.of_nat (List.length rows)
            <= Z.max 1 (int_scaled (Z.of_nat 10) F64.c0_7)
         /\ 1 <= Z.of_nat (List.length rows) <= Z.of_nat 10)
      /\ (List.length (candidate_files None ten_tables) = 10%nat ->
          exists files w',
            choose_files None ten_tables = (Ok files, w')
            /\ Z.max 1 (int_scaled (Z.of_nat 10) F64.c0_3)
               <= Z.of_nat (List.length files)
               <= Z.max 1 (int_scaled (Z.of_nat 10) F64.c0_7)
            /\ 1 <= Z.of_nat (List.length files) <= Z.of_nat 10))
  /\ List.length (candidate_files None ten_tables) = 10%nat
  /\ run_simulation_cycle 5 2 None (quiet_world 0 12 [])
     = (Raise nothing_to_sample,
        set_w_rpos (S (w_rpos (quiet_world 0 12 []))) (quiet_world 0 12 []))
  /\ (let w := quiet_world 0 12 [("parking_sensors", empty_df)] in
      let w1 := set_w_trace [EvCsvRead "parking_sensors"] w in
      simulate_data_changes 5 2 "parking_sensors" w
      = (Ok false,
         set_stats (stats_failed (stats w1)) (set_w_rpos (S (w_rpos w1)) w1))).
Proof.
  split; [vm_compute; reflexivity | ].
  split; [vm_compute; reflexivity | ].
  split.
  { apply (proj1 selection_sizes None ten_tables 10%nat). simpl. lia. }
  split; [reflexivity | ].
  split.
  { apply (proj1 (proj2 selection_sizes) 5 2 None (quiet_world 0 12 [])).
    reflexivity. }
  apply (proj2 (proj2 selection_sizes) 5 2 "parking_sensors"
           (quiet_world 0 12 [("parking_sensors", empty_df)]) empty_df).
  - vm_compute. reflexivity.
  - reflexivity.
Defined.

(** C8, as stated, fails where there is nothing to select from: with no
    table file the cycle raises [ValueError] out of [random.sample] and
    selects no table; with a table of no rows [simulate_data_changes]
    selects no row and counts a failure. *)
Lemma nothing_to_select :
  fst (choose_files None (quiet_world 0 12 []))
    = Raise (ValueError "Sample larger than population or is negative")
  /\ fst (run_simulation_cycle 5 2 None (quiet_world 0 12 []))
     = Raise (ValueError "Sample larger than population or is negative")
  /\ fst (choose_rows 0 (quiet_world 0 12 [("parking_sensors", empty_df)]))
     = Raise (ValueError "Sample larger than population or is negative")
  /\ updates_failed
       (stats (snd (simulate_data_changes 5 2 "parking_sensors"
                      (quiet_world 0 12 [("parking_sensors", empty_df)]))))
     = 1.
Proof. vm_compute. repeat split; reflexivity. Qed.

(** * Further properties of the managers, the simulator and the scheduler *)

(** ** Integer, boolean and missing cells *)

Lemma street_branch_bool : forall c ty b,
  String.eqb c "status" && pytype_eqb ty TBool && b = true -> ty = TBool.
Proof.
  intros c ty b H. apply andb_true_iff in H as [H _].
  apply andb_true_iff in H as [_ H]. destruct ty; try discriminate. reflexivity.
Qed.

Lemma wrap64_in_range : forall z, - 2 ^ 63 <= z < 2 ^ 63 -> wrap64 z = z.
Proof.
  intros z Hz. unfold wrap64. rewrite Z.mod_small; lia.
Qed.

(** X2. An integer cell of an unprotected integer column, at least three
    away from the ends of the 64-bit range, moves by at most 3 in one
    fluctuation; in the count columns ([vehicle_count], [occupancy],
    [object_count]) the result is moreover clamped at 0 from below, so it is
    never negative. *)
Theorem integer_fluctuation_step : forall (c : string) (n : Z) (w : World),
  str_in c PROTECTED_COLUMNS = false ->
  - 2 ^ 63 + 3 <= n <= 2 ^ 63 - 4 ->
  exists (m : Z) (w' : World),
    generate_fluctuation (VInt n) TInt c w = (Ok (VInt m), w')
    /\ (if str_in c count_columns
        then Z.max 0 (n - 3) <= m <= Z.max 0 (n + 3)
        else n - 3 <= m <= n + 3).
Proof.
  intros c n w Hp Hn.
  destruct (random_randint_range (-3) 3 (w) ltac:(lia)) as (k & w' & Hk & Hr).
  assert (Hw : wrap64 (n + k) = n + k) by (apply wrap64_in_range; lia).
  unfold generate_fluctuation. unfold bind at 1. unfold get at 1.
  cbn [pytype_eqb andb]. rewrite andb_false_r. cbn [andb]. rewrite Hp.
  unfold count_columns.
  destruct (str_in c ["vehicle_count"; "occupancy"; "object_count"]).
  - unfold bind, lift, ret. rewrite Hk. cbn [py_add_int py_max_0]. rewrite Hw.
    destruct (Z.ltb_spec 0 (n + k)); eexists; eexists; (split; [reflexivity | lia]).
  - unfold bind, lift, ret. rewrite Hk. cbn [py_add_int]. rewrite Hw.
    eexists; eexists; (split; [reflexivity | lia]).
Qed.

Lemma integer_fluctuation_step_witness :
  exists (m : Z) (w' : World),
    generate_fluctuation (VInt 50) TInt "vehicle_count" traffic_world
    = (Ok (VInt m), w')
    /\ (if str_in "vehicle_count" count_columns
        then Z.max 0 (50 - 3) <= m <= Z.max 0 (50 + 3)
        else 50 - 3 <= m <= 50 + 3).
Proof.
  apply (integer_fluctuation_step "vehicle_count" 50 traffic_world).
  - reflexivity.
  - lia.
Defined.

(** X3. A missing value (NaN) in a float column: the seven clamped columns
    replace it by 0.0, since [max(0.0, nan)] is 0.0; every other unprotected
    float column keeps it NaN. *)
Theorem missing_value_fluctuation : forall (c : string) (w : World),
  str_in c PROTECTED_COLUMNS = false ->
  exists w' : World,
    generate_fluctuation (VFloat S754_nan) TFloat c w
    = (Ok (VFloat (if str_in c clamped_columns then F64.zero else S754_nan)), w').
Proof.
  intros c w Hp.
  destruct (jitter_nonneg w) as (f & w' & Hj & _).
  assert (Hx : jittered (VFloat S754_nan) w = (Ok S754_nan, w')).
  { unfold jittered, bind, lift. rewrite Hj. reflexivity. }
  exists w'.
  unfold generate_fluctuation. unfold bind at 1. unfold get at 1.
  cbn [pytype_eqb andb]. rewrite andb_false_r. cbn [andb]. rewrite Hp.
  unfold clamped_columns. cbn [str_in existsb].
  unfold str_in. cbn [existsb].
  destruct (String.eqb c "humidity"); [cbn [orb]; unfold bind, ret; rewrite Hx; reflexivity | ].
  destruct (String.eqb c "fill_level"); [cbn [orb]; unfold bind, ret; rewrite Hx; reflexivity | ].
  destruct (String.eqb c "ph"); [cbn [orb]; unfold bind, ret; rewrite Hx; reflexivity | ].
  destruct (String.eqb c "rainfall"); [cbn [orb]; unfold bind, ret; rewrite Hx; reflexivity | ].
  destruct (String.eqb c "electricity_usage"); [cbn [orb]; unfold bind, ret; rewrite Hx; reflexivity | ].
  destruct (String.eqb c "water_usage"); [cbn [orb]; unfold bind, ret; rewrite Hx; reflexivity | ].
  destruct (String.eqb c "energy_consumption"); [cbn [orb]; unfold bind, ret; rewrite Hx; reflexivity | ].
  cbn [orb]. unfold bind, ret; rewrite Hx; reflexivity.
Qed.

Lemma missing_value_fluctuation_witness :
  exists w' : World,
    generate_fluctuation (VFloat S754_nan) TFloat "humidity" parking_world
    = (Ok (VFloat (if str_in "humidity" clamped_columns
                   then F64.zero else S754_nan)), w').
Proof.
  apply (missing_value_fluctuation "humidity" parking_world). reflexivity.
Defined.

(** X1. A cell that holds a value of the type its column declares gets, from
    [generate_fluctuation], a value of that same type: the call returns,
    whatever the column name, the state of the random source and the
    street-light flag. *)
Theorem fluctuation_keeps_type :
  forall (value : pyval) (column_type : pytype) (c : string) (w : World),
  has_type value column_type = true ->
  exists (v' : pyval) (w' : World),
    generate_fluctuation value column_type c w = (Ok v', w')
    /\ has_type v' column_type = true.
Proof.
  intros value ty c w H.
  unfold generate_fluctuation. unfold bind at 1. unfold get at 1.
  destruct (String.eqb c "status" && pytype_eqb ty TBool && is_street_light_data w)
    eqn:E.
  { apply street_branch_bool in E. subst ty. unfold_monad. eauto. }
  destruct (str_in c PROTECTED_COLUMNS); [unfold ret; eauto | ].
  destruct value as [n | x | b | s], ty; try discriminate; cbn [pytype_eqb andb].
  - destruct (random_randint_range (-3) 3 w ltac:(lia)) as (k & w' & Hk & _).
    destruct (str_in c _); unfold bind, lift, ret; rewrite Hk;
      cbn [py_add_int py_max_0]; [destruct (0 <? wrap64 (n + k)) | ]; eauto.
  - destruct (jittered_numeric (VFloat x) w eq_refl) as (y & w' & Hj).
    destruct (str_in c _); [unfold bind, ret; rewrite Hj; eauto | ].
    destruct (String.eqb c "ph"); [unfold bind, ret; rewrite Hj; eauto | ].
    destruct (str_in c _); unfold bind, ret; rewrite Hj; eauto.
  - destruct (random_random_range w) as (r & w' & Hr & _).
    unfold bind, ret. rewrite Hr. destruct (F64.ltb r F64.c0_1); eauto.
  - unfold ret. eauto.
Qed.

Lemma fluctuation_keeps_type_witness :
  exists (v' : pyval) (w' : World),
    generate_fluctuation (VBool false) TBool "is_occupied" parking_world
    = (Ok v', w')
    /\ has_type v' TBool = true.
Proof.
  apply (fluctuation_keeps_type (VBool false) TBool "is_occupied" parking_world).
  reflexivity.
Defined.

(** ** Retries of the tabular store *)

Lemma sleep_ok : forall s w,
  sleep_error s = None ->
  exists w',
    sleep s w = (Ok tt, w')
    /\ w_faults w' = w_faults w
    /\ w_files w' = w_files w
    /\ w_durable w' = w_durable w
    /\ stats w' = stats w
    /\ connection_healthy w' = connection_healthy w
    /\ last_reconnect_attempt w' = last_reconnect_attempt w
    /\ engine w' = engine w
    /\ w_trace w' = (w_trace w ++ [EvSleep s])%list.
Proof.
  intros s w H. unfold sleep. rewrite H. unfold_monad.
  eexists. split; [reflexivity | ]. repeat split.
Qed.

(** The outcome of one write of the file: it fails as the fault script
    says, or it goes through. *)
Lemma to_csv_outcome : forall path df w,
  let (r, w') := to_csv path df w in
  w_trace w' = w_trace w
  /\ (forall e rest, w_faults w = Some e :: rest ->
        r = Raise e /\ w_faults w' = rest)
  /\ (next_attempt_succeeds (w_faults w) = true ->
        r = Ok tt /\ w_faults w' = tl (w_faults w)).
Proof.
  intros path df w. unfold to_csv.
  unfold try_except, bind, modify, get, attempt, ret, raise.
  destruct (w_faults w) as [ | [e | ] fs] eqn:Ef; cbn.
  - split; [reflexivity | ]. split; [intros e rest H; discriminate | ].
    intros _. split; [reflexivity | exact Ef].
  - destruct (w_torn w e path df); cbn;
      (split; [reflexivity | ]);
      (split; [intros e0 rest H; inversion H; subst; split; reflexivity | ]);
      discriminate.
  - split; [reflexivity | ]. split; [intros e rest H; discriminate | ].
    intros _. split; reflexivity.
Qed.

Section CsvRetries.

Variables MAX_RETRIES RETRY_DELAY_BASE : Z.
Hypothesis base_nonneg : 0 <= RETRY_DELAY_BASE.
Hypothesis longest_wait : RETRY_DELAY_BASE ^ MAX_RETRIES <= MAX_SLEEP.

Lemma write_csv_loop_gives_up : forall errs e0 fuel rc path df w rest,
  errs <> [] ->
  List.length errs = fuel ->
  0 <= rc ->
  rc + Z.of_nat fuel = MAX_RETRIES ->
  w_faults w = (map Some errs ++ rest)%list ->
  exists w',
    write_csv_loop MAX_RETRIES RETRY_DELAY_BASE fuel rc path df w
    = (Raise (last errs e0), w')
    /\ w_faults w' = rest
    /\ w_trace w'
       = (w_trace w
          ++ attempts_and_waits (EvCsvWrite path df) MAX_RETRIES RETRY_DELAY_BASE
               fuel rc)%list.
Proof.
  induction errs as [ | e errs IH];
    intros e0 fuel rc path df w rest Hne Hlen Hrc Hfuel Hf.
  - contradiction.
  - destruct fuel as [ | fuel]; [discriminate | ].
    cbn [write_csv_loop attempts_and_waits].
    unfold bind at 1. unfold try_except. unfold bind at 1. unfold emit, modify.
    set (w0 := set_w_trace (w_trace w ++ [EvCsvWrite path df]) w).
    pose proof (to_csv_outcome path df w0) as Hc.
    unfold bind at 1.
    destruct (to_csv path df w0) as [r w1]. destruct Hc as (Ht1 & Hfail & _).
    destruct (Hfail e (map Some errs ++ rest)%list) as (-> & Hf1);
      [subst w0; cbn; rewrite Hf; reflexivity | ].
    unfold retry_or_raise.
    destruct errs as [ | e' errs].
    + simpl in Hlen. assert (fuel = O) by lia. subst fuel.
      assert (Hlt : (rc + 1 <? MAX_RETRIES) = false) by (apply Z.ltb_ge; lia).
      rewrite Hlt. cbn. exists w1. split; [reflexivity | ].
      split; [exact Hf1 | ]. rewrite Ht1. subst w0. cbn.
      rewrite ?app_nil_r. reflexivity.
    + simpl in Hlen.
      assert (Hlt : (rc + 1 <? MAX_RETRIES) = true) by (apply Z.ltb_lt; lia).
      rewrite Hlt. unfold bind at 1.
      destruct (sleep_ok (RETRY_DELAY_BASE ^ (rc + 1)) w1)
        as (w2 & -> & Hf2 & _ & _ & _ & _ & _ & _ & Ht2).
      { apply (backoff_accepted RETRY_DELAY_BASE MAX_RETRIES); auto. lia. }
      unfold ret at 1.
      destruct (IH e0 fuel (rc + 1) path df w2 rest
                  ltac:(discriminate) ltac:(simpl; lia) ltac:(lia) ltac:(lia))
        as (w' & Hr & Hfa & Ht).
      { rewrite Hf2, Hf1. reflexivity. }
      exists w'. rewrite Hr. split; [reflexivity | ]. split; [exact Hfa | ].
      rewrite Ht, Ht2, Ht1. subst w0. cbn. rewrite <- !app_assoc. reflexivity.
Qed.

Lemma write_csv_loop_succeeds : forall errs fuel rc path df w rest,
  (List.length errs < fuel)%nat ->
  0 <= rc ->
  rc + Z.of_nat fuel = MAX_RETRIES ->
  w_faults w = (map Some errs ++ rest)%list ->
  next_attempt_succeeds rest = true ->
  exists w',
    write_csv_loop MAX_RETRIES RETRY_DELAY_BASE fuel rc path df w = (Ok true, w')
    /\ w_faults w' = tl rest
    /\ w_trace w'
       = (w_trace w
          ++ attempts_and_waits (EvCsvWrite path df) MAX_RETRIES RETRY_DELAY_BASE
               (List.length errs) rc
          ++ [EvCsvWrite path df])%list.
Proof.
  induction errs as [ | e errs IH]; intros fuel rc path df w rest Hlen Hrc Hfuel Hf Hn.
  - destruct fuel as [ | fuel]; [simpl in Hlen; lia | ].
    cbn [write_csv_loop attempts_and_waits List.length].
    unfold bind at 1. unfold try_except. unfold bind at 1. unfold emit, modify.
    set (w0 := set_w_trace (w_trace w ++ [EvCsvWrite path df]) w).
    pose proof (to_csv_outcome path df w0) as Hc.
    unfold bind at 1.
    destruct (to_csv path df w0) as [r w1]. destruct Hc as (Ht1 & _ & Hok).
    cbn [map app] in Hf.
    destruct Hok as (-> & Hf1); [subst w0; cbn; now rewrite Hf | ].
    cbn. exists w1. split; [reflexivity | ].
    split; [rewrite Hf1; subst w0; cbn; now rewrite Hf | ].
    rewrite Ht1. reflexivity.
  - destruct fuel as [ | fuel]; [simpl in Hlen; lia | ].
    cbn [write_csv_loop attempts_and_waits List.length].
    unfold bind at 1. unfold try_except. unfold bind at 1. unfold emit, modify.
    set (w0 := set_w_trace (w_trace w ++ [EvCsvWrite path df]) w).
    pose proof (to_csv_outcome path df w0) as Hc.
    unfold bind at 1.
    destruct (to_csv path df w0) as [r w1]. destruct Hc as (Ht1 & Hfail & _).
    destruct (Hfail e (map Some errs ++ rest)%list) as (-> & Hf1);
      [subst w0; cbn; rewrite Hf; reflexivity | ].
    unfold retry_or_raise. simpl in Hlen.
    assert (Hlt : (rc + 1 <? MAX_RETRIES) = true) by (apply Z.ltb_lt; lia).
    rewrite Hlt. unfold bind at 1.
    destruct (sleep_ok (RETRY_DELAY_BASE ^ (rc + 1)) w1)
      as (w2 & -> & Hf2 & _ & _ & _ & _ & _ & _ & Ht2).
    { apply (backoff_accepted RETRY_DELAY_BASE MAX_RETRIES); auto. lia. }
    unfold ret at 1.
    destruct (IH fuel (rc + 1) path df w2 rest ltac:(lia) ltac:(lia) ltac:(lia))
      as (w' & Hr & Hfa & Ht); [rewrite Hf2, Hf1; reflexivity | exact Hn | ].
    exists w'. rewrite Hr. split; [reflexivity | ]. split; [exact Hfa | ].
    rewrite Ht, Ht2, Ht1. subst w0. cbn. rewrite <- !app_assoc. reflexivity.
Qed.

End CsvRetries.

(** X6. When [MAX_RETRIES] attempts fail in a row and the backoff is one
    [time.sleep] accepts, [write_csv] re-raises the error of the last
    attempt, a wait following every failed attempt but the last.  The files
    of the other tables are untouched, and the file itself keeps its content
    when no failed attempt left it partly written. *)
Theorem write_csv_gives_up :
  forall MAX_RETRIES RETRY_DELAY_BASE path df w errs rest e0,
  0 <= RETRY_DELAY_BASE ->
  RETRY_DELAY_BASE ^ MAX_RETRIES <= MAX_SLEEP ->
  errs <> [] ->
  Z.of_nat (List.length errs) = MAX_RETRIES ->
  w_faults w = (map Some errs ++ rest)%list ->
  exists w',
    write_csv MAX_RETRIES RETRY_DELAY_BASE path df w = (Raise (last errs e0), w')
    /\ w_faults w' = rest
    /\ w_trace w'
       = (w_trace w
          ++ attempts_and_waits (EvCsvWrite path df) MAX_RETRIES RETRY_DELAY_BASE
               (List.length errs) 0)%list
    /\ (forall p, p <> path -> dict_get p (w_files w') = dict_get p (w_files w))
    /\ ((forall e, w_torn w e path df = None) -> w_files w' = w_files w).
Proof.
  intros MAX_RETRIES RETRY_DELAY_BASE path df w errs rest e0 Hb Htop Hne Hlen Hf.
  pose proof (write_csv_files MAX_RETRIES RETRY_DELAY_BASE path df w) as Hfiles.
  unfold write_csv in *. rewrite <- Hlen, Nat2Z.id in *.
  destruct (write_csv_loop_gives_up _ _ Hb Htop errs e0 (List.length errs) 0
              path df w rest Hne eq_refl (Z.le_refl 0) ltac:(lia) Hf)
    as (w' & Hr & Hfa & Ht).
  rewrite Hr in Hfiles. destruct Hfiles as (_ & _ & Hshape & _ & Hkept).
  exists w'. split; [exact Hr | ]. split; [exact Hfa | ]. split; [exact Ht | ].
  split.
  - intros p Hp. destruct Hshape as [-> | (d & ->)]; [reflexivity | ].
    now apply dict_get_set_other.
  - intro Hno. now apply Hkept.
Qed.

Lemma write_csv_gives_up_witness :
  exists w',
    write_csv 2 2 "parking_sensors" parking_df (full_disk 2)
    = (Raise (OSError "No space left on device"), w')
    /\ w_faults w' = []
    /\ w_trace w'
       = (w_trace (full_disk 2)
          ++ attempts_and_waits (EvCsvWrite "parking_sensors" parking_df) 2 2 2 0)%list
    /\ (forall p, p <> "parking_sensors" ->
          dict_get p (w_files w') = dict_get p (w_files (full_disk 2)))
    /\ ((forall e, w_torn (full_disk 2) e "parking_sensors" parking_df = None) ->
        w_files w' = w_files (full_disk 2)).
Proof.
  apply (write_csv_gives_up 2 2 "parking_sensors" parking_df (full_disk 2)
           (repeat (OSError "No space left on device") 2) []
           (OSError "No space left on device")).
  - lia.
  - unfold MAX_SLEEP. cbn. lia.
  - discriminate.
  - reflexivity.
  - reflexivity.
Defined.

(** X5. When fewer than [MAX_RETRIES] attempts fail, the next one succeeds
    and the backoff is one [time.sleep] accepts, [write_csv] returns [True],
    the file holds the frame that reads back from the new text, and each
    failed attempt [k] was followed by a wait of [RETRY_DELAY_BASE ** k]
    seconds. *)
Theorem write_csv_succeeds_after_failures :
  forall MAX_RETRIES RETRY_DELAY_BASE path df w errs rest,
  0 <= RETRY_DELAY_BASE ->
  RETRY_DELAY_BASE ^ MAX_RETRIES <= MAX_SLEEP ->
  Z.of_nat (List.length errs) < MAX_RETRIES ->
  w_faults w = (map Some errs ++ rest)%list ->
  next_attempt_succeeds rest = true ->
  exists w',
    write_csv MAX_RETRIES RETRY_DELAY_BASE path df w = (Ok true, w')
    /\ w_files w' = dict_set path (w_csv_round_trip w df) (w_files w)
    /\ w_faults w' = tl rest
    /\ w_trace w'
       = (w_trace w
          ++ attempts_and_waits (EvCsvWrite path df) MAX_RETRIES RETRY_DELAY_BASE
               (List.length errs) 0
          ++ [EvCsvWrite path df])%list.
Proof.
  intros MAX_RETRIES RETRY_DELAY_BASE path df w errs rest Hb Htop Hlen Hf Hn.
  pose proof (write_csv_files MAX_RETRIES RETRY_DELAY_BASE path df w) as Hfiles.
  unfold write_csv in *.
  destruct (write_csv_loop_succeeds MAX_RETRIES RETRY_DELAY_BASE Hb Htop errs
              (Z.to_nat MAX_RETRIES) 0 path df w rest)
    as (w' & Hr & Hfa & Ht); try assumption; try lia.
  rewrite Hr in Hfiles. destruct Hfiles as (_ & _ & _ & Hok & _).
  exists w'. repeat split; try assumption. now apply Hok.
Qed.

Lemma write_csv_succeeds_after_failures_witness :
  exists w',
    write_csv 5 2 "parking_sensors" parking_df (full_disk 2) = (Ok true, w')
    /\ w_files w'
       = dict_set "parking_sensors" (w_csv_round_trip (full_disk 2) parking_df)
           (w_files (full_disk 2))
    /\ w_faults w' = []
    /\ w_trace w'
       = (w_trace (full_disk 2)
          ++ attempts_and_waits (EvCsvWrite "parking_sensors" parking_df) 5 2 2 0
          ++ [EvCsvWrite "parking_sensors" parking_df])%list.
Proof.
  apply (write_csv_succeeds_after_failures 5 2 "parking_sensors" parking_df
           (full_disk 2) (repeat (OSError "No space left on device") 2) []).
  - lia.
  - unfold MAX_SLEEP. cbn. lia.
  - simpl. lia.
  - reflexivity.
  - reflexivity.
Defined.

(** ** Tables that cannot be read *)

Lemma read_csv_loop_missing : forall MAX_RETRIES RETRY_DELAY_BASE path fuel rc w,
  0 <= RETRY_DELAY_BASE ->
  RETRY_DELAY_BASE ^ MAX_RETRIES <= MAX_SLEEP ->
  0 <= rc ->
  fuel = O \/ rc + Z.of_nat fuel = MAX_RETRIES ->
  dict_get path (w_files w) = None ->
  w_faults w = [] ->
  exists r w',
    read_csv_loop MAX_RETRIES RETRY_DELAY_BASE fuel rc path w = (r, w')
    /\ match r with Ok (Some _) => False | _ => True end
    /\ stats w' = stats w
    /\ w_files w' = w_files w
    /\ w_durable w' = w_durable w
    /\ w_trace w'
       = (w_trace w
          ++ attempts_and_waits (EvCsvRead path) MAX_RETRIES RETRY_DELAY_BASE
               fuel rc)%list.
Proof.
  intros MAX_RETRIES RETRY_DELAY_BASE path fuel.
  induction fuel as [ | fuel IH]; intros rc w Hb Htop Hrc Hfuel Hg Hf.
  - cbn. eexists. eexists. rewrite app_nil_r. repeat split.
  - destruct Hfuel as [Hfuel | Hfuel]; [discriminate | ].
    cbn [read_csv_loop attempts_and_waits].
    unfold retry_or_raise.
    unfold try_except, bind at 1 2 3 4, emit, modify, get, attempt.
    cbn [w_faults set_w_trace]. rewrite Hf.
    change (w_files (set_w_trace (w_trace w ++ [EvCsvRead path]) w))
      with (w_files w).
    rewrite Hg. unfold raise at 1.
    destruct (Z.ltb_spec (rc + 1) MAX_RETRIES) as [Hlt | Hge].
    + unfold bind at 1.
      destruct (sleep_ok (RETRY_DELAY_BASE ^ (rc + 1))
                  (set_w_trace (w_trace w ++ [EvCsvRead path]) w))
        as (w2 & -> & Hf2 & Hfi2 & Hd2 & Hs2 & _ & _ & _ & Ht2).
      { apply (backoff_accepted RETRY_DELAY_BASE MAX_RETRIES); auto. lia. }
      unfold ret at 1.
      destruct (IH (rc + 1) w2 Hb Htop ltac:(lia) ltac:(right; lia))
        as (r & w' & Hr & Hn & Hs & Hfi & Hd & Ht).
      { rewrite Hfi2. exact Hg. }
      { rewrite Hf2. exact Hf. }
      exists r, w'. rewrite Hr.
      split; [reflexivity | ]. split; [exact Hn | ].
      split; [rewrite Hs, Hs2; reflexivity | ].
      split; [rewrite Hfi, Hfi2; reflexivity | ].
      split; [rewrite Hd, Hd2; reflexivity | ].
      rewrite Ht, Ht2. cbn. rewrite <- !app_assoc. reflexivity.
    + assert (fuel = O) by lia. subst fuel. cbn.
      eexists. eexists. repeat split.
Qed.

(** X7. A table whose file does not exist: when the backoff is one
    [time.sleep] accepts, the read is attempted [MAX_RETRIES] times with the
    waits in between, then the pass returns [False] and counts one failed
    update; no file and no database row is written. *)
Theorem missing_table_is_a_failed_update :
  forall MAX_RETRIES RETRY_DELAY_BASE path w,
  0 <= RETRY_DELAY_BASE ->
  RETRY_DELAY_BASE ^ MAX_RETRIES <= MAX_SLEEP ->
  dict_get path (w_files w) = None ->
  w_faults w = [] ->
  exists w',
    simulate_data_changes MAX_RETRIES RETRY_DELAY_BASE path w = (Ok false, w')
    /\ stats w' = stats_failed (stats w)
    /\ w_files w' = w_files w
    /\ w_durable w' = w_durable w
    /\ w_trace w'
       = (w_trace w
          ++ attempts_and_waits (EvCsvRead path) MAX_RETRIES RETRY_DELAY_BASE
               (Z.to_nat MAX_RETRIES) 0)%list.
Proof.
  intros MAX_RETRIES RETRY_DELAY_BASE path w Hb Htop Hg Hf.
  set (w0 := set_is_street_light_data (String.eqb path "street_lights") w).
  destruct (read_csv_loop_missing MAX_RETRIES RETRY_DELAY_BASE path
              (Z.to_nat MAX_RETRIES) 0 w0 Hb Htop (Z.le_refl 0))
    as (r & w1 & Hr & Hn & Hs & Hfi & Hd & Ht); try assumption.
  { destruct (Z.to_nat MAX_RETRIES) eqn:E; [now left | right; lia]. }
  unfold simulate_data_changes, mutate_table, read_csv.
  unfold try_except. unfold bind at 1. unfold bind at 1. unfold modify at 1.
  fold w0. unfold bind at 1. rewrite Hr.
  destruct r as [[df | ] | e]; [contradiction | | ];
    unfold update_stats; unfold_monad; cbn;
    eexists; (split; [reflexivity | ]); cbn;
    rewrite Hs, Hfi, Hd, Ht; repeat split.
Qed.

Lemma missing_table_is_a_failed_update_witness :
  exists w',
    simulate_data_changes 3 2 "noise_sensors" parking_world = (Ok false, w')
    /\ stats w' = stats_failed (stats parking_world)
    /\ w_files w' = w_files parking_world
    /\ w_durable w' = w_durable parking_world
    /\ w_trace w'
       = (w_trace parking_world
          ++ attempts_and_waits (EvCsvRead "noise_sensors") 3 2 (Z.to_nat 3) 0)%list.
Proof.
  apply (missing_table_is_a_failed_update 3 2 "noise_sensors" parking_world).
  - lia.
  - unfold MAX_SLEEP. cbn. lia.
  - reflexivity.
  - reflexivity.
Defined.

(** X8. With [MAX_RETRIES] at 0 or below no read is even attempted: every pass
    over a table returns [False] and counts one failed update, and nothing
    else changes but the street-light flag. *)
Theorem no_retries_no_update : forall MAX_RETRIES RETRY_DELAY_BASE path w,
  MAX_RETRIES <= 0 ->
  simulate_data_changes MAX_RETRIES RETRY_DELAY_BASE path w
  = (Ok false,
     set_stats (stats_failed (stats w))
       (set_is_street_light_data (String.eqb path "street_lights") w)).
Proof.
  intros MAX_RETRIES RETRY_DELAY_BASE path w Hm.
  unfold simulate_data_changes, mutate_table, read_csv.
  replace (Z.to_nat MAX_RETRIES) with O by lia.
  reflexivity.
Qed.

Lemma no_retries_no_update_witness :
  simulate_data_changes 0 2 "parking_sensors" parking_world
  = (Ok false,
     set_stats (stats_failed (stats parking_world))
       (set_is_street_light_data
          (String.eqb "parking_sensors" "street_lights") parking_world)).
Proof.
  apply (no_retries_no_update 0 2 "parking_sensors" parking_world). lia.
Defined.

(** ** Connecting *)

Lemma connect_loop_succeeds : forall RETRY_DELAY_BASE top msgs fuel rc w rest,
  0 <= RETRY_DELAY_BASE ->
  RETRY_DELAY_BASE ^ top <= MAX_SLEEP ->
  0 <= rc ->
  rc + Z.of_nat (List.length msgs) <= top ->
  (List.length msgs < fuel)%nat ->
  w_faults w = (database_errors msgs ++ rest)%list ->
  next_attempt_succeeds rest = true ->
  exists w',
    connect_loop RETRY_DELAY_BASE fuel rc w = (Ok true, w')
    /\ connection_healthy w' = true
    /\ engine w' = true
    /\ last_reconnect_attempt w' = last_reconnect_attempt w
    /\ w_faults w' = tl rest
    /\ w_trace w'
       = (w_trace w ++ retry_events RETRY_DELAY_BASE (List.length msgs) rc
          ++ [EvProbe])%list.
Proof.
  intros RETRY_DELAY_BASE top msgs.
  induction msgs as [ | m msgs IH];
    intros fuel rc w rest Hb Htop Hrc Hfit Hlen Hf Hn.
  - destruct fuel as [ | fuel]; [simpl in Hlen; lia | ].
    cbn [connect_loop retry_events List.length].
    unfold probe. unfold_monad. unfold attempt.
    cbn [w_faults set_w_trace set_engine].
    cbn [database_errors map app] in Hf. rewrite Hf.
    destruct rest as [ | [e | ] rest]; try discriminate; cbn;
      eexists; repeat split; try exact Hf.
  - destruct fuel as [ | fuel]; [simpl in Hlen; lia | ].
    cbn [connect_loop retry_events List.length].
    cbn [List.length] in Hfit.
    unfold probe, sleep.
    rewrite (backoff_accepted RETRY_DELAY_BASE top (rc + 1))
      by (assumption || lia).
    unfold_monad. unfold attempt.
    cbn [w_faults set_w_trace set_engine]. rewrite Hf.
    cbn [database_errors map app]. cbn [fst snd].
    simpl in Hlen.
    match goal with |- context [connect_loop _ fuel _ ?w0] =>
      destruct (IH fuel (rc + 1) w0 rest Hb Htop ltac:(lia) ltac:(lia)
                  ltac:(lia) eq_refl Hn)
        as (w' & Hr & Hh & He & Hl & Hfa & Ht)
    end.
    exists w'. rewrite Hr. cbn in Hl, Ht. repeat split; try assumption.
    rewrite Ht. cbn [app]. rewrite <- !app_assoc. reflexivity.
Qed.

(** X9. Past the cooldown, when fewer than [MAX_RETRIES] probes fail with a
    database error, the next one answers and the backoff is one [time.sleep]
    accepts, [connect] returns [True] with [connection_healthy] set, after a
    wait of [RETRY_DELAY_BASE ** k] seconds behind the [k]-th failure. *)
Theorem connect_succeeds_after_failures :
  forall MAX_RETRIES RETRY_DELAY_BASE w msgs rest,
  0 <= RETRY_DELAY_BASE ->
  RETRY_DELAY_BASE ^ MAX_RETRIES <= MAX_SLEEP ->
  F64.ltb (F64.sub (w_time w) (last_reconnect_attempt w)) (F64.of_Z 10) = false ->
  Z.of_nat (List.length msgs) < MAX_RETRIES ->
  w_faults w = (database_errors msgs ++ rest)%list ->
  next_attempt_succeeds rest = true ->
  exists w',
    connect MAX_RETRIES RETRY_DELAY_BASE w = (Ok true, w')
    /\ connection_healthy w' = true
    /\ last_reconnect_attempt w' = w_time w
    /\ w_faults w' = tl rest
    /\ w_trace w'
       = (w_trace w ++ retry_events RETRY_DELAY_BASE (List.length msgs) 0
          ++ [EvProbe])%list.
Proof.
  intros MAX_RETRIES RETRY_DELAY_BASE w msgs rest Hb Htop Hcool Hlen Hf Hn.
  unfold connect. unfold_monad. rewrite Hcool.
  destruct (connect_loop_succeeds RETRY_DELAY_BASE MAX_RETRIES msgs
              (Z.to_nat MAX_RETRIES) 0
              (set_last_reconnect_attempt (w_time w) w) rest Hb Htop
              (Z.le_refl 0) ltac:(lia) ltac:(lia) Hf Hn)
    as (w' & Hr & Hh & He & Hl & Hfa & Ht).
  exists w'. repeat split; assumption.
Qed.

Lemma connect_succeeds_after_failures_witness :
  exists w',
    connect 5 2 flaky_database = (Ok true, w')
    /\ connection_healthy w' = true
    /\ last_reconnect_attempt w' = w_time flaky_database
    /\ w_faults w' = tl []
    /\ w_trace w'
       = (w_trace flaky_database
          ++ retry_events 2
               (List.length ["connection refused"; "connection refused"]) 0
          ++ [EvProbe])%list.
Proof.
  apply (connect_succeeds_after_failures 5 2 flaky_database
           ["connection refused"; "connection refused"] []).
  - lia.
  - unfold MAX_SLEEP. cbn. lia.
  - vm_compute. reflexivity.
  - simpl. lia.
  - reflexivity.
  - reflexivity.
Defined.

Lemma connect_loop_health : forall RETRY_DELAY_BASE fuel rc w b w',
  connect_loop RETRY_DELAY_BASE fuel rc w = (Ok b, w') ->
  connection_healthy w' = b.
Proof.
  intros RETRY_DELAY_BASE fuel.
  induction fuel as [ | fuel IH]; intros rc w b w' H.
  - cbn in H. inversion H. reflexivity.
  - cbn [connect_loop] in H. unfold probe, sleep in H. unfold_monad.
    unfold attempt in H. cbn [w_faults set_w_trace set_engine] in H.
    destruct (w_faults w) as [ | [e | ] fs]; cbn in H.
    + inversion H. reflexivity.
    + destruct e; try discriminate.
      destruct (sleep_error (RETRY_DELAY_BASE ^ (rc + 1))); [discriminate | ].
      cbn in H. now apply IH in H.
    + inversion H. reflexivity.
Qed.

Lemma connect_health : forall MAX_RETRIES RETRY_DELAY_BASE w b w',
  connect MAX_RETRIES RETRY_DELAY_BASE w = (Ok b, w') ->
  connection_healthy w' = b.
Proof.
  intros MAX_RETRIES RETRY_DELAY_BASE w b w' H.
  unfold connect in H. unfold_monad.
  destruct (F64.ltb _ _).
  - inversion H. reflexivity.
  - now apply connect_loop_health in H.
Qed.

Lemma ensure_connected_health : forall MAX_RETRIES RETRY_DELAY_BASE w b w',
  ensure_connected MAX_RETRIES RETRY_DELAY_BASE w = (Ok b, w') ->
  connection_healthy w' = b.
Proof.
  intros MAX_RETRIES RETRY_DELAY_BASE w b w' H.
  unfold ensure_connected in H. unfold bind at 1 2 in H. unfold get at 1 2 in H.
  destruct (connection_healthy w) eqn:Eh; cbn [negb orb] in H.
  2:{ now apply connect_health in H. }
  destruct (engine w); cbn [negb] in H.
  2:{ now apply connect_health in H. }
  unfold probe in H. unfold try_except, bind, emit, modify, ret, attempt in H.
  cbn [w_faults set_w_trace] in H.
  destruct (w_faults w) as [ | [e | ] fs]; cbn in H.
  - inversion H. exact Eh.
  - destruct e; try discriminate. now apply connect_health in H.
  - inversion H. exact Eh.
Qed.

(** X10. Whenever [connect] or [ensure_connected] returns, the value returned
    is the [connection_healthy] flag the manager is left with. *)
Theorem connection_flag_is_the_answer :
  forall MAX_RETRIES RETRY_DELAY_BASE w b w',
  (connect MAX_RETRIES RETRY_DELAY_BASE w = (Ok b, w') ->
   connection_healthy w' = b)
  /\ (ensure_connected MAX_RETRIES RETRY_DELAY_BASE w = (Ok b, w') ->
      connection_healthy w' = b).
Proof.
  intros. split; [apply connect_health | apply ensure_connected_health].
Qed.

(** X11. While the connection is marked unhealthy and less than ten seconds
    have passed since the last attempt to connect, [update_sensor_data]
    returns [False] at once: no probe, no session, no statement. *)
Theorem update_dropped_during_cooldown :
  forall MAX_RETRIES RETRY_DELAY_BASE t data w,
  connection_healthy w = false ->
  F64.ltb (F64.sub (w_time w) (last_reconnect_attempt w)) (F64.of_Z 10) = true ->
  update_sensor_data MAX_RETRIES RETRY_DELAY_BASE t data w
  = (Ok false, set_w_trace (w_trace w ++ [EvUpdateSensorData t data]) w).
Proof.
  intros MAX_RETRIES RETRY_DELAY_BASE t data w Hh Hc.
  unfold update_sensor_data. unfold bind at 1. unfold emit, modify.
  set (w0 := set_w_trace (w_trace w ++ [EvUpdateSensorData t data]) w).
  assert (Hh0 : connection_healthy w0 = false) by exact Hh.
  assert (Hc0 : F64.ltb (F64.sub (w_time w0) (last_reconnect_attempt w0))
                  (F64.of_Z 10) = true) by exact Hc.
  clearbody w0.
  unfold update_records, ensure_connected, connect. unfold_monad.
  rewrite Hh0. cbn [negb orb]. rewrite Hc0, Hh0. reflexivity.
Qed.

Lemma update_dropped_during_cooldown_witness :
  update_sensor_data 5 2 "parking_sensors" [parking_record] database_down
  = (Ok false,
     set_w_trace
       (w_trace database_down
        ++ [EvUpdateSensorData "parking_sensors" [parking_record]])
       database_down).
Proof.
  apply (update_dropped_during_cooldown 5 2 "parking_sensors" [parking_record]
           database_down).
  - reflexivity.
  - vm_compute. reflexivity.
Defined.

(** ** Queries with retries *)

Lemma send_query_cases : forall s w,
  let (r, w') := send_query s w in
  match r with
  | Ok _ => w_durable w' = (w_durable w ++ [[s]])%list
  | Raise _ => w_durable w' = w_durable w
  end.
Proof.
  intros s w. unfold send_query. unfold_monad. unfold attempt.
  cbn [w_faults set_w_trace].
  destruct (w_faults w) as [ | [e | ] fs] eqn:Ef; cbn; try reflexivity.
  - rewrite Ef. reflexivity.
  - destruct fs as [ | [e | ] fs]; cbn; reflexivity.
Qed.

Lemma query_failed_cases : forall MAX_RETRIES RETRY_DELAY_BASE A rc e w r w',
  @query_failed MAX_RETRIES RETRY_DELAY_BASE A rc e w = (Ok r, w') ->
  (r = Some None /\ connection_healthy w' = false)
  \/ (r = None /\ rc + 1 < MAX_RETRIES).
Proof.
  intros MAX_RETRIES RETRY_DELAY_BASE A rc e w r w' H.
  destruct e; try discriminate.
  unfold query_failed in H. unfold bind at 1 in H.
  destruct (is_connection_error (SQLAlchemyError msg)).
  - unfold bind at 1 in H. unfold modify at 1 in H. unfold bind at 1 in H.
    destruct (ensure_connected MAX_RETRIES RETRY_DELAY_BASE
                (set_connection_healthy false w)) as [[ok | e] w1] eqn:Ec;
      [ | discriminate].
    apply ensure_connected_health in Ec.
    unfold ret at 1 in H.
    destruct ok; cbn [negb andb] in H.
    + destruct (Z.ltb_spec (rc + 1) MAX_RETRIES); [ | discriminate].
      unfold sleep in H. destruct (sleep_error (RETRY_DELAY_BASE ^ (rc + 1)));
        [discriminate | ].
      cbn in H. inversion H. right. split; [reflexivity | assumption].
    + destruct (MAX_RETRIES <=? rc + 1).
      * inversion H; subst. left. split; [reflexivity | assumption].
      * destruct (Z.ltb_spec (rc + 1) MAX_RETRIES); [ | discriminate].
        unfold sleep in H. destruct (sleep_error (RETRY_DELAY_BASE ^ (rc + 1)));
          [discriminate | ].
        cbn in H. inversion H. right. split; [reflexivity | assumption].
  - unfold ret at 1 in H.
    destruct (Z.ltb_spec (rc + 1) MAX_RETRIES); [ | discriminate].
    unfold sleep in H. destruct (sleep_error (RETRY_DELAY_BASE ^ (rc + 1)));
      [discriminate | ].
    cbn in H. inversion H. right. split; [reflexivity | assumption].
Qed.

Lemma query_failed_durable : forall MAX_RETRIES RETRY_DELAY_BASE A rc e w,
  w_durable (snd (@query_failed MAX_RETRIES RETRY_DELAY_BASE A rc e w))
  = w_durable w.
Proof.
  intros MAX_RETRIES RETRY_DELAY_BASE A rc e w.
  destruct e; try reflexivity.
  unfold query_failed. unfold bind at 1.
  destruct (is_connection_error (SQLAlchemyError msg)).
  - unfold bind at 1. unfold modify at 1. unfold bind at 1.
    pose proof (ensure_connected_durable MAX_RETRIES RETRY_DELAY_BASE
                  (set_connection_healthy false w)) as Hd.
    destruct (ensure_connected MAX_RETRIES RETRY_DELAY_BASE
                (set_connection_healthy false w)) as [[ok | e] w1];
      cbn [snd] in Hd; [ | exact Hd].
    unfold ret at 1.
    destruct (negb ok && (MAX_RETRIES <=? rc + 1)); [exact Hd | ].
    destruct (rc + 1 <? MAX_RETRIES); [ | exact Hd].
    unfold sleep. destruct (sleep_error (RETRY_DELAY_BASE ^ (rc + 1))); exact Hd.
  - unfold ret at 1.
    destruct (rc + 1 <? MAX_RETRIES); [ | reflexivity].
    unfold sleep. destruct (sleep_error (RETRY_DELAY_BASE ^ (rc + 1))); reflexivity.
Qed.

Lemma execute_query_loop_effect : forall MAX_RETRIES RETRY_DELAY_BASE s fuel rc w,
  let (r, w') := execute_query_loop MAX_RETRIES RETRY_DELAY_BASE fuel rc s w in
  w_durable w'
  = match r with
    | Ok (Some _) => (w_durable w ++ [[s]])%list
    | _ => w_durable w
    end.
Proof.
  intros MAX_RETRIES RETRY_DELAY_BASE s fuel.
  induction fuel as [ | fuel IH]; intros rc w; [reflexivity | ].
  cbn [execute_query_loop]. unfold bind at 1. unfold try_except.
  unfold bind at 1.
  pose proof (send_query_cases s w) as Hs.
  destruct (send_query s w) as [[[] | e] w1].
  - exact Hs.
  - pose proof (query_failed_durable MAX_RETRIES RETRY_DELAY_BASE unit rc e w1)
      as Hq.
    destruct (query_failed MAX_RETRIES RETRY_DELAY_BASE rc e w1)
      as [[[[[] | ] | ] | e'] w2] eqn:Eq; cbn [snd] in Hq.
    + apply query_failed_cases in Eq. destruct Eq as [[E _] | [E _]]; discriminate.
    + cbn. congruence.
    + specialize (IH (rc + 1) w2).
      destruct (execute_query_loop MAX_RETRIES RETRY_DELAY_BASE fuel (rc + 1) s w2)
        as [[[[] | ] | e'] w3]; congruence.
    + congruence.
Qed.

(** X13. [execute_query] makes its statement durable, once, exactly when it
    returns a result; when it returns [None] or raises, the durable state is
    what it was. *)
Theorem execute_query_effect : forall MAX_RETRIES RETRY_DELAY_BASE s w,
  let (r, w') := execute_query MAX_RETRIES RETRY_DELAY_BASE s w in
  w_durable w'
  = match r with
    | Ok (Some _) => (w_durable w ++ [[s]])%list
    | _ => w_durable w
    end.
Proof.
  intros MAX_RETRIES RETRY_DELAY_BASE s w. unfold execute_query. unfold bind.
  pose proof (ensure_connected_durable MAX_RETRIES RETRY_DELAY_BASE w) as Hd.
  destruct (ensure_connected MAX_RETRIES RETRY_DELAY_BASE w) as [[ok | e] w1];
    cbn [snd] in Hd; [ | exact Hd].
  destruct ok; cbn [negb]; [ | exact Hd].
  pose proof (execute_query_loop_effect MAX_RETRIES RETRY_DELAY_BASE s
                (Z.to_nat MAX_RETRIES) 0 w1) as Hl.
  destruct (execute_query_loop MAX_RETRIES RETRY_DELAY_BASE
              (Z.to_nat MAX_RETRIES) 0 s w1) as [r w2].
  rewrite Hl, Hd. reflexivity.
Qed.

Lemma execute_query_loop_none : forall MAX_RETRIES RETRY_DELAY_BASE s fuel rc w w',
  (0 < fuel)%nat ->
  rc + Z.of_nat fuel = MAX_RETRIES ->
  execute_query_loop MAX_RETRIES RETRY_DELAY_BASE fuel rc s w = (Ok None, w') ->
  connection_healthy w' = false.
Proof.
  intros MAX_RETRIES RETRY_DELAY_BASE s fuel.
  induction fuel as [ | fuel IH]; intros rc w w' Hpos Hfuel H; [lia | ].
  cbn [execute_query_loop] in H. unfold bind at 1 in H. unfold try_except in H.
  unfold bind at 1 in H.
  destruct (send_query s w) as [[[] | e] w1]; [discriminate | ].
  destruct (query_failed MAX_RETRIES RETRY_DELAY_BASE rc e w1)
    as [[r | e'] w2] eqn:Eq; [ | discriminate].
  apply query_failed_cases in Eq. destruct Eq as [[-> Hh] | [-> Hlt]].
  - inversion H; subst. exact Hh.
  - apply IH in H; [exact H | lia | lia].
Qed.

(** X14. With [MAX_RETRIES] positive, [execute_query] returns [None] only with
    the connection marked unhealthy: the database could not be reached before
    the query or after its last failure. *)
Theorem execute_query_none_means_unreachable :
  forall MAX_RETRIES RETRY_DELAY_BASE s w w',
  0 < MAX_RETRIES ->
  execute_query MAX_RETRIES RETRY_DELAY_BASE s w = (Ok None, w') ->
  connection_healthy w' = false.
Proof.
  intros MAX_RETRIES RETRY_DELAY_BASE s w w' Hm H.
  unfold execute_query in H. unfold bind in H.
  destruct (ensure_connected MAX_RETRIES RETRY_DELAY_BASE w) as [[ok | e] w1] eqn:Ec;
    [ | discriminate].
  apply ensure_connected_health in Ec.
  destruct ok; cbn [negb] in H.
  - apply execute_query_loop_none in H; [exact H | lia | lia].
  - inversion H; subst. exact Ec.
Qed.

Lemma execute_query_none_means_unreachable_witness :
  connection_healthy database_down = false.
Proof.
  apply (execute_query_none_means_unreachable 5 2 select_one database_down
           database_down).
  - lia.
  - vm_compute. reflexivity.
Defined.

Lemma execute_query_loop_gives_up :
  forall MAX_RETRIES RETRY_DELAY_BASE s msgs fuel rc w rest,
  0 <= RETRY_DELAY_BASE ->
  RETRY_DELAY_BASE ^ MAX_RETRIES <= MAX_SLEEP ->
  0 <= rc ->
  msgs <> [] ->
  List.length msgs = fuel ->
  rc + Z.of_nat fuel = MAX_RETRIES ->
  Forall (fun m => is_connection_error (SQLAlchemyError m) = false) msgs ->
  w_faults w = (database_errors msgs ++ rest)%list ->
  exists w',
    execute_query_loop MAX_RETRIES RETRY_DELAY_BASE fuel rc s w
    = (Raise (SQLAlchemyError (last msgs "")), w')
    /\ w_durable w' = w_durable w
    /\ connection_healthy w' = connection_healthy w
    /\ w_faults w' = rest
    /\ w_trace w'
       = (w_trace w
          ++ attempts_and_waits (EvExecute s) MAX_RETRIES RETRY_DELAY_BASE
               fuel rc)%list.
Proof.
  intros MAX_RETRIES RETRY_DELAY_BASE s msgs.
  induction msgs as [ | m msgs IH];
    intros fuel rc w rest Hb Htop Hrc Hne Hlen Hfuel Hall Hf.
  - contradiction.
  - destruct fuel as [ | fuel]; [discriminate | ].
    inversion Hall as [ | m' msgs' Hm Hall']; subst m' msgs'.
    cbn [execute_query_loop attempts_and_waits].
    unfold send_query. unfold_monad. unfold attempt.
    cbn [w_faults set_w_trace]. rewrite Hf. cbn [database_errors map app].
    unfold query_failed. rewrite Hm. unfold sleep.
    destruct msgs as [ | m' msgs].
    + simpl in Hlen. assert (fuel = O) by lia. subst fuel.
      assert (Hlt : (rc + 1 <? MAX_RETRIES) = false) by (apply Z.ltb_ge; lia).
      rewrite Hlt. unfold_monad. cbn. eexists. repeat split.
    + simpl in Hlen.
      assert (Hlt : (rc + 1 <? MAX_RETRIES) = true) by (apply Z.ltb_lt; lia).
      rewrite Hlt.
      rewrite (backoff_accepted RETRY_DELAY_BASE MAX_RETRIES (rc + 1))
        by (assumption || lia).
      unfold_monad. cbn [fst snd].
      match goal with |- context [execute_query_loop _ _ fuel _ _ ?w0] =>
        destruct (IH fuel (rc + 1) w0 rest Hb Htop ltac:(lia)
                    ltac:(discriminate) ltac:(simpl; lia) ltac:(lia) Hall' eq_refl)
          as (w' & Hr & Hd & Hh & Hfa & Ht)
      end.
      exists w'. rewrite Hr. cbn in Hd, Hh, Ht. repeat split; try assumption.
      rewrite Ht. cbn [app]. rewrite <- !app_assoc. reflexivity.
Qed.

(** X15. On a healthy connection, when [MAX_RETRIES] attempts of the query fail
    with database errors whose text names neither a connection nor a timeout,
    and the backoff is one [time.sleep] accepts, [execute_query] re-raises the
    last error; nothing is made durable, the connection stays marked healthy,
    and a wait follows every failure but the last. *)
Theorem execute_query_gives_up :
  forall MAX_RETRIES RETRY_DELAY_BASE s w msgs rest,
  0 <= RETRY_DELAY_BASE ->
  RETRY_DELAY_BASE ^ MAX_RETRIES <= MAX_SLEEP ->
  connection_healthy w = true ->
  engine w = true ->
  msgs <> [] ->
  Z.of_nat (List.length msgs) = MAX_RETRIES ->
  Forall (fun m => is_connection_error (SQLAlchemyError m) = false) msgs ->
  w_faults w = (None :: database_errors msgs ++ rest)%list ->
  exists w',
    execute_query MAX_RETRIES RETRY_DELAY_BASE s w
    = (Raise (SQLAlchemyError (last msgs "")), w')
    /\ w_durable w' = w_durable w
    /\ connection_healthy w' = true
    /\ w_faults w' = rest
    /\ w_trace w'
       = (w_trace w
          ++ EvProbe
             :: attempts_and_waits (EvExecute s) MAX_RETRIES RETRY_DELAY_BASE
                  (List.length msgs) 0)%list.
Proof.
  intros MAX_RETRIES RETRY_DELAY_BASE s w msgs rest Hb Htop Hh He Hne Hlen Hall Hf.
  unfold execute_query, ensure_connected, probe.
  unfold try_except, bind, get, emit, modify, ret, attempt.
  rewrite Hh, He. cbn [negb orb w_faults set_w_trace]. rewrite Hf.
  cbn [negb].
  replace (Z.to_nat MAX_RETRIES) with (List.length msgs) by lia.
  match goal with |- context [execute_query_loop _ _ _ _ _ ?w0] =>
    destruct (execute_query_loop_gives_up MAX_RETRIES RETRY_DELAY_BASE s msgs
                (List.length msgs) 0 w0 rest Hb Htop (Z.le_refl 0) Hne eq_refl
                ltac:(lia) Hall eq_refl)
      as (w' & Hr & Hd & Hh' & Hfa & Ht)
  end.
  exists w'. rewrite Hr.
  cbn in Hd, Hh', Ht. repeat split; try assumption.
  - congruence.
  - rewrite Ht. rewrite <- app_assoc. reflexivity.
Qed.

Lemma execute_query_gives_up_witness :
  exists w',
    execute_query 2 2 select_one failing_queries
    = (Raise (SQLAlchemyError (last ["syntax error"; "syntax error"] "")), w')
    /\ w_durable w' = w_durable failing_queries
    /\ connection_healthy w' = true
    /\ w_faults w' = []
    /\ w_trace w'
       = (w_trace failing_queries
          ++ EvProbe
             :: attempts_and_waits (EvExecute select_one) 2 2
                  (List.length ["syntax error"; "syntax error"]) 0)%list.
Proof.
  apply (execute_query_gives_up 2 2 select_one failing_queries
           ["syntax error"; "syntax error"] []).
  - lia.
  - unfold MAX_SLEEP. cbn. lia.
  - reflexivity.
  - reflexivity.
  - discriminate.
  - reflexivity.
  - repeat constructor.
  - reflexivity.
Defined.

(** X12. When the health probe of [ensure_connected] fails with a database
    error less than ten seconds after the last attempt to connect, the
    reconnection is skipped and [ensure_connected] answers [True]: the flag it
    found. *)
Theorem failed_probe_in_cooldown_reports_healthy :
  forall MAX_RETRIES RETRY_DELAY_BASE w msg rest,
  connection_healthy w = true ->
  engine w = true ->
  F64.ltb (F64.sub (w_time w) (last_reconnect_attempt w)) (F64.of_Z 10) = true ->
  w_faults w = Some (SQLAlchemyError msg) :: rest ->
  ensure_connected MAX_RETRIES RETRY_DELAY_BASE w
  = (Ok true,
     set_w_faults rest (set_w_trace (w_trace w ++ [EvProbe]) w)).
Proof.
  intros MAX_RETRIES RETRY_DELAY_BASE w msg rest Hh He Hc Hf.
  unfold ensure_connected, probe.
  unfold try_except, bind, get, emit, modify, ret, attempt.
  rewrite Hh, He. cbn [negb orb w_faults set_w_trace]. rewrite Hf.
  unfold connect. unfold bind, get.
  set (w1 := set_w_faults rest (set_w_trace (w_trace w ++ [EvProbe]) w)).
  change (w_time w1) with (w_time w).
  change (last_reconnect_attempt w1) with (last_reconnect_attempt w).
  rewrite Hc. change (connection_healthy w1) with (connection_healthy w).
  now rewrite Hh.
Qed.

Lemma failed_probe_in_cooldown_reports_healthy_witness :
  ensure_connected 5 2 (refusing_world 5)
  = (Ok true,
     set_w_faults (repeat (Some (SQLAlchemyError "connection refused")) 4)
       (set_w_trace (w_trace (refusing_world 5) ++ [EvProbe]) (refusing_world 5))).
Proof.
  apply (failed_probe_in_cooldown_reports_healthy 5 2 (refusing_world 5)
           "connection refused"
           (repeat (Some (SQLAlchemyError "connection refused")) 4)).
  - reflexivity.
  - reflexivity.
  - vm_compute. reflexivity.
  - reflexivity.
Defined.

(** ** The counters of the simulator *)

Lemma dict_sum_set : forall k v (d : dict Z),
  dict_sum (dict_set k v d)
  = dict_sum d + v - match dict_get k d with Some n => n | None => 0 end.
Proof.
  intros k v d. induction d as [ | [k' v'] d IH]; simpl.
  - lia.
  - destruct (String.eqb k k'); simpl; [lia | rewrite IH; lia].
Qed.

Lemma simulate_data_changes_outcome : forall MAX_RETRIES RETRY_DELAY_BASE t w,
  exists b w',
    simulate_data_changes MAX_RETRIES RETRY_DELAY_BASE t w = (Ok b, w')
    /\ pass_outcome t (stats w) (stats w') b.
Proof.
  intros MAX_RETRIES RETRY_DELAY_BASE t w.
  unfold simulate_data_changes, try_except. unfold bind at 1.
  pose proof (mutate_table_stats MAX_RETRIES RETRY_DELAY_BASE t w) as Hm.
  destruct (mutate_table MAX_RETRIES RETRY_DELAY_BASE t w)
    as [[[[o df] ups] | e] w1]; cbn [snd] in Hm.
  2:{ unfold update_stats. unfold_monad. eexists. eexists.
      split; [reflexivity | ]. cbn. rewrite Hm. left. auto. }
  unfold persist.
  destruct (negb (df_equals o df) && negb (List.length ups =? 0)%nat).
  2:{ unfold ret. eexists. eexists. split; [reflexivity | ].
      rewrite Hm. left. auto. }
  unfold bind at 1.
  pose proof (write_csv_stats MAX_RETRIES RETRY_DELAY_BASE t df w1) as Hw.
  destruct (write_csv MAX_RETRIES RETRY_DELAY_BASE t df w1) as [[c | e] w2];
    cbn [snd] in Hw.
  2:{ unfold update_stats. unfold_monad. eexists. eexists.
      split; [reflexivity | ]. cbn. rewrite Hw, Hm. left. auto. }
  unfold bind at 1.
  pose proof (update_sensor_data_stats MAX_RETRIES RETRY_DELAY_BASE t ups w2) as Hu.
  destruct (update_sensor_data MAX_RETRIES RETRY_DELAY_BASE t ups w2)
    as [[d | e] w3]; cbn [snd] in Hu.
  2:{ unfold update_stats. unfold_monad. eexists. eexists.
      split; [reflexivity | ]. cbn. rewrite Hu, Hw, Hm. left. auto. }
  unfold update_stats. unfold_monad.
  destruct (c && d); cbn; eexists; eexists; (split; [reflexivity | ]);
    cbn; rewrite Hu, Hw, Hm; right; (split; [reflexivity | ]);
    exists (w_utc_iso w3); auto.
Qed.

Lemma pass_outcome_advance : forall t s s' b,
  pass_outcome t s s' b -> stats_advance s s'.
Proof.
  intros t s s' b H. unfold stats_advance, stats_consistent.
  destruct H as [[_ [-> | ->]] | [_ (now & [-> | ->])]]; cbn;
    (split; [intros (H1 & H2 & H3) | lia]).
  - repeat split; assumption || lia.
  - repeat split; assumption || lia.
  - destruct (dict_get t (files_processed s)) as [n | ] eqn:E;
      rewrite dict_sum_set, E; repeat split; lia.
  - repeat split; assumption || lia.
Qed.

Lemma stats_advance_refl : forall s, stats_advance s s.
Proof. intro s. unfold stats_advance. split; [auto | lia]. Qed.

Lemma stats_advance_trans : forall a b c,
  stats_advance a b -> stats_advance b c -> stats_advance a c.
Proof.
  unfold stats_advance. intros a b c (H1 & H2 & H3 & H4) (G1 & G2 & G3 & G4).
  split; [auto | lia].
Qed.

(** X16. [simulate_data_changes] never raises.  It returns [True] exactly when
    it counted an attempted update, and then one more success or one more
    failure is counted; when it returns [False] the successes are what they
    were. *)
Theorem pass_returns_true_iff_attempted :
  forall MAX_RETRIES RETRY_DELAY_BASE t w,
  exists b w',
    simulate_data_changes MAX_RETRIES RETRY_DELAY_BASE t w = (Ok b, w')
    /\ updates_attempted (stats w')
       = updates_attempted (stats w) + (if b then 1 else 0)
    /\ (b = true ->
        updates_successful (stats w') + updates_failed (stats w')
        = updates_successful (stats w) + updates_failed (stats w) + 1)
    /\ (b = false -> updates_successful (stats w') = updates_successful (stats w)).
Proof.
  intros MAX_RETRIES RETRY_DELAY_BASE t w.
  destruct (simulate_data_changes_outcome MAX_RETRIES RETRY_DELAY_BASE t w)
    as (b & w' & H & Ho).
  exists b, w'. split; [exact H | ].
  destruct Ho as [[-> [-> | ->]] | [-> (now & [-> | ->])]]; cbn;
    repeat split; intros; try discriminate; lia.
Qed.

Section Bookkeeping.

Variables MAX_RETRIES RETRY_DELAY_BASE : Z.
Variable CSV_FILE_PATH : option string.

Lemma simulate_files_advance : forall files w,
  stats_advance (stats w)
    (stats (snd (simulate_files MAX_RETRIES RETRY_DELAY_BASE files w))).
Proof.
  induction files as [ | t files IH]; intro w; [apply stats_advance_refl | ].
  cbn [simulate_files]. unfold bind at 1. unfold get.
  destruct (running w); cbn [negb]; [ | apply stats_advance_refl].
  unfold bind at 1.
  destruct (simulate_data_changes_outcome MAX_RETRIES RETRY_DELAY_BASE t w)
    as (b & w' & -> & Ho).
  eapply stats_advance_trans; [eapply pass_outcome_advance; exact Ho | apply IH].
Qed.

Lemma choose_files_stats : forall w,
  stats (snd (choose_files CSV_FILE_PATH w)) = stats w.
Proof.
  change (respects (same stats) (choose_files CSV_FILE_PATH)).
  assert (Hrefl := @same_refl _ stats).
  assert (Htrans := @same_trans _ stats).
  unfold choose_files, get_csv_files.
  repeat (respects_step; try assumption);
    first [ apply respects_random_shuffle | apply respects_choose_count
          | apply respects_random_sample ];
    intros; try reflexivity; try assumption;
    eapply same_trans; eassumption.
Qed.

Lemma run_simulation_cycle_advance : forall w,
  stats_advance (stats w)
    (stats (snd (run_simulation_cycle MAX_RETRIES RETRY_DELAY_BASE CSV_FILE_PATH w))).
Proof.
  intro w. unfold run_simulation_cycle. unfold bind.
  pose proof (choose_files_stats w) as Hc.
  destruct (choose_files CSV_FILE_PATH w) as [[files | e] w1]; cbn [snd] in *.
  - rewrite <- Hc. apply simulate_files_advance.
  - rewrite Hc. apply stats_advance_refl.
Qed.

Lemma run_cycles_advance : forall n w,
  stats_advance (stats w)
    (stats (run_cycles MAX_RETRIES RETRY_DELAY_BASE CSV_FILE_PATH n w)).
Proof.
  induction n as [ | n IH]; intro w; [apply stats_advance_refl | ].
  cbn [run_cycles].
  eapply stats_advance_trans; [apply run_simulation_cycle_advance | apply IH].
Qed.

End Bookkeeping.

(** X17. Over any number of cycles no counter decreases and the bookkeeping
    keeps adding up: successes do not exceed attempts, attempts do not exceed
    successes plus failures, and the successes per table sum to
    [updates_successful]. *)
Theorem counters_stay_consistent :
  forall MAX_RETRIES RETRY_DELAY_BASE CSV_FILE_PATH n w,
  stats_consistent (stats w) ->
  let w' := run_cycles MAX_RETRIES RETRY_DELAY_BASE CSV_FILE_PATH n w in
  stats_consistent (stats w')
  /\ updates_attempted (stats w) <= updates_attempted (stats w')
  /\ updates_successful (stats w) <= updates_successful (stats w')
  /\ updates_failed (stats w) <= updates_failed (stats w').
Proof.
  intros MAX_RETRIES RETRY_DELAY_BASE CSV_FILE_PATH n w H w'.
  destruct (run_cycles_advance MAX_RETRIES RETRY_DELAY_BASE CSV_FILE_PATH n w)
    as (H1 & H2); auto.
Qed.

Lemma counters_stay_consistent_witness :
  let w' := run_cycles 5 2 None 2 rejected_update in
  (updates_attempted (stats w') = 2
   /\ updates_successful (stats w') = 1
   /\ updates_failed (stats w') = 1
   /\ files_processed (stats w') = [("traffic_sensors", 1)])
  /\ stats_consistent (stats w')
  /\ updates_attempted (stats rejected_update) <= updates_attempted (stats w')
  /\ updates_successful (stats rejected_update) <= updates_successful (stats w')
  /\ updates_failed (stats rejected_update) <= updates_failed (stats w').
Proof.
  split; [vm_compute; repeat split; reflexivity | ].
  apply (counters_stay_consistent 5 2 None 2 rejected_update).
  unfold stats_consistent. cbn. lia.
Defined.

(** ** Shutdown *)

Lemma drew_refl : forall w, drew w w.
Proof. intro w. exists (w_rpos w). destruct w; reflexivity. Qed.

Lemma drew_trans : forall a b c, drew a b -> drew b c -> drew a c.
Proof. intros a b c [n ->] [m ->]. exists m. reflexivity. Qed.

Lemma choose_files_drew : forall CSV_FILE_PATH w,
  drew w (snd (choose_files CSV_FILE_PATH w)).
Proof.
  intro CSV_FILE_PATH.
  change (respects drew (choose_files CSV_FILE_PATH)).
  assert (Hrefl := drew_refl).
  assert (Htrans := drew_trans).
  assert (Hrpos : forall v w, drew w (set_w_rpos v w))
    by (intros v w; exists v; reflexivity).
  unfold choose_files, get_csv_files.
  repeat (respects_step; try assumption);
    first [ apply respects_random_shuffle | apply respects_choose_count
          | apply respects_random_sample ];
    assumption.
Qed.

(** X18. A cycle started after the shutdown signal processes no table: it
    draws its selection and leaves everything but the position of the random
    source as it was. *)
Theorem shutdown_stops_cycle :
  forall MAX_RETRIES RETRY_DELAY_BASE CSV_FILE_PATH w,
  exists r n,
    run_simulation_cycle MAX_RETRIES RETRY_DELAY_BASE CSV_FILE_PATH
      (signal_handler w)
    = (r, set_w_rpos n (signal_handler w)).
Proof.
  intros MAX_RETRIES RETRY_DELAY_BASE CSV_FILE_PATH w.
  unfold run_simulation_cycle. unfold bind.
  destruct (choose_files_drew CSV_FILE_PATH (signal_handler w)) as (n & Hn).
  destruct (choose_files CSV_FILE_PATH (signal_handler w)) as [[files | e] w1];
    cbn [snd] in Hn; subst w1.
  - exists (Ok tt), n. destruct files; reflexivity.
  - exists (Raise e), n. reflexivity.
Qed.

(** ** Column mappings *)

Lemma rename_absent : forall old new cols,
  str_in old cols = false -> map (rename_label old new) cols = cols.
Proof.
  intros old new cols. induction cols as [ | c cols IH]; simpl; intro H;
    [reflexivity | ].
  apply orb_false_iff in H as [H1 H2]. unfold rename_label at 1.
  rewrite String.eqb_sym, H1. now rewrite IH.
Qed.

(** X19. Of the tables of [COLUMN_TYPES] only [surveillance_cameras] has its
    columns renamed, [people_count] to [object_count]; the mapping declared
    for [water_quality_sensors] is looked up under the name stripped of
    [_sensors] and never applies. *)
Theorem mappings_reach_only_cameras : forall df : DataFrame,
  (forall t, dict_mem t COLUMN_TYPES = true -> t <> "surveillance_cameras" ->
             apply_mappings t df = df)
  /\ df_columns (apply_mappings "surveillance_cameras" df)
     = map (rename_label "people_count" "object_count") (df_columns df).
Proof.
  intro df. split.
  - intros t Ht Hn. unfold dict_mem, COLUMN_TYPES in Ht. cbn [dict_get] in Ht.
    repeat match type of Ht with
           | context [String.eqb t ?s] =>
               let E := fresh "E" in
               destruct (String.eqb t s) eqn:E;
                 [apply String.eqb_eq in E; subst t;
                  first [reflexivity | contradiction] | ]
           end.
    discriminate.
  - change (apply_mappings "surveillance_cameras" df)
      with (if str_in "people_count" (df_columns df)
            then df_rename "people_count" "object_count" df else df).
    destruct (str_in "people_count" (df_columns df)) eqn:E.
    + reflexivity.
    + symmetry. now apply rename_absent.
Qed.

(** ** What a pass over the rows touches *)

Lemma nth_error_set_nth_other : forall A (g : A -> A) i j (l : list A),
  i <> j -> nth_error (set_nth j g l) i = nth_error l i.
Proof.
  intros A g i j l. revert i j.
  induction l as [ | a l IH]; intros [ | i] [ | j] H; simpl; auto;
    contradiction.
Qed.

Lemma df_at_set_column : forall c idx column v df,
  c <> column ->
  map (dict_get c) (df_rows (df_at_set idx column v df))
  = map (dict_get c) (df_rows df).
Proof.
  intros c idx column v df Hc. unfold df_at_set. simpl.
  apply map_set_nth. intros x _. now apply dict_get_set_other.
Qed.

Lemma fluctuate_columns_frame :
  forall cols types row idx df rec w df' rec' w',
  fluctuate_columns cols types row idx df rec w = (Ok (df', rec'), w') ->
  df_columns df' = df_columns df
  /\ List.length (df_rows df') = List.length (df_rows df)
  /\ (forall c, dict_get c types = None ->
                map (dict_get c) (df_rows df') = map (dict_get c) (df_rows df))
  /\ (forall i, i <> idx ->
                nth_error (df_rows df') i = nth_error (df_rows df) i).
Proof.
  intros cols types row idx.
  induction cols as [ | c cols IH]; intros df rec w df' rec' w' H.
  - simpl in H. inversion H; subst. repeat split; reflexivity.
  - cbn [fluctuate_columns] in H.
    destruct (dict_get c types) as [ty | ] eqn:Ety; [ | now apply IH in H].
    apply bind_ok in H as (v & w1 & _ & H).
    apply bind_ok in H as (v' & w2 & _ & H).
    apply IH in H. destruct H as (Hc & Hl & Hcol & Hrow).
    split; [exact Hc | ].
    split; [rewrite Hl; unfold df_at_set; simpl; apply set_nth_length | ].
    split.
    + intros c0 Hc0. rewrite (Hcol c0 Hc0). apply df_at_set_column.
      intros ->. congruence.
    + intros i Hi. rewrite (Hrow i Hi). unfold df_at_set. simpl.
      now apply nth_error_set_nth_other.
Qed.

Lemma mutate_rows_frame : forall t types rows df ups w df' ups' w',
  mutate_rows t types rows df ups w = (Ok (df', ups'), w') ->
  df_columns df' = df_columns df
  /\ List.length (df_rows df') = List.length (df_rows df)
  /\ (forall c, dict_get c types = None -> c <> "timestamp" ->
                map (dict_get c) (df_rows df') = map (dict_get c) (df_rows df))
  /\ (forall i, ~ In i rows ->
                nth_error (df_rows df') i = nth_error (df_rows df) i)
  /\ exists recs,
       ups' = (ups ++ recs)%list
       /\ List.length recs = List.length rows
       /\ Forall has_string_id recs.
Proof.
  intros t types rows.
  induction rows as [ | idx rows IH]; intros df ups w df' ups' w' H.
  - simpl in H. inversion H; subst. repeat split; try reflexivity.
    exists []. rewrite app_nil_r. repeat split. constructor.
  - cbn [mutate_rows] in H.
    apply bind_ok in H as (row & w1 & _ & H).
    apply bind_ok in H as ([df1 rec1] & w2 & H2 & H).
    apply fluctuate_columns_frame in H2 as (Hc1 & Hl1 & Hcol1 & Hrow1).
    apply bind_ok in H as (id & w3 & _ & H).
    apply bind_ok in H as (ids & w4 & _ & H).
    apply bind_ok in H as (df2 & w5 & H5 & H).
    assert (H2' : df_columns df2 = df_columns df1
                  /\ List.length (df_rows df2) = List.length (df_rows df1)
                  /\ (forall c, c <> "timestamp" ->
                        map (dict_get c) (df_rows df2)
                        = map (dict_get c) (df_rows df1))
                  /\ (forall i, i <> idx ->
                        nth_error (df_rows df2) i = nth_error (df_rows df1) i)).
    { destruct (str_in "timestamp" (df_columns df1)).
      - unfold bind, get, ret in H5. inversion H5; subst.
        repeat split.
        + unfold df_at_set. simpl. apply set_nth_length.
        + intros c Hc. now apply df_at_set_column.
        + intros i Hi. unfold df_at_set. simpl.
          now apply nth_error_set_nth_other.
      - inversion H5; subst. repeat split; reflexivity. }
    destruct H2' as (Hc2 & Hl2 & Hcol2 & Hrow2).
    apply bind_ok in H as (b & w6 & _ & H).
    apply IH in H. destruct H as (Hc & Hl & Hcol & Hrow & recs & Hups & Hlen & Hall).
    split; [congruence | ]. split; [congruence | ]. split; [ | split].
    + intros c Hty Hts. rewrite (Hcol c Hty Hts), (Hcol2 c Hts). now apply Hcol1.
    + intros i Hi.
      assert (Hidx : i <> idx) by (intros ->; apply Hi; now left).
      rewrite Hrow by (intro Hin; apply Hi; now right).
      rewrite (Hrow2 i Hidx). now apply Hrow1.
    + exists (dict_set "id" (VStr ids) rec1 :: recs). split; [ | split].
      * rewrite Hups, <- app_assoc. reflexivity.
      * simpl. now rewrite Hlen.
      * constructor; [ | exact Hall]. exists ids. apply dict_get_set_eq.
Qed.

(** X20. The loop over the selected rows keeps the labels and the number of
    rows; it leaves every cell of a column that has no declared type and is
    not [timestamp] as it was, and every row it did not select. *)
Theorem mutation_touches_only_declared_cells :
  forall t types rows df ups w df' ups' w',
  mutate_rows t types rows df ups w = (Ok (df', ups'), w') ->
  df_columns df' = df_columns df
  /\ List.length (df_rows df') = List.length (df_rows df)
  /\ (forall c, dict_get c types = None -> c <> "timestamp" ->
                map (dict_get c) (df_rows df') = map (dict_get c) (df_rows df))
  /\ (forall i, ~ In i rows ->
                nth_error (df_rows df') i = nth_error (df_rows df) i).
Proof.
  intros t types rows df ups w df' ups' w' H.
  apply mutate_rows_frame in H. tauto.
Qed.

Lemma mutation_touches_only_declared_cells_witness :
  df_columns traffic_df_mutated = df_columns traffic_df
  /\ List.length (df_rows traffic_df_mutated) = List.length (df_rows traffic_df)
  /\ (forall c, dict_get c (table_types "traffic_sensors") = None ->
                c <> "timestamp" ->
                map (dict_get c) (df_rows traffic_df_mutated)
                = map (dict_get c) (df_rows traffic_df))
  /\ (forall i, ~ In i [0%nat] ->
                nth_error (df_rows traffic_df_mutated) i
                = nth_error (df_rows traffic_df) i).
Proof.
  apply (mutation_touches_only_declared_cells "traffic_sensors"
           (table_types "traffic_sensors") [0%nat] traffic_df [] traffic_world
           traffic_df_mutated [traffic_record]
           (snd (mutate_rows "traffic_sensors" (table_types "traffic_sensors")
                   [0%nat] traffic_df [] traffic_world))).
  vm_compute. reflexivity.
Defined.

Lemma random_randint_result : forall a b w k w',
  random_randint a b w = (Ok k, w') -> a <= k <= b.
Proof.
  intros a b w k w' H.
  assert (Hab : a <= b).
  { unfold random_randint in H. destruct (Z.ltb_spec b a); [discriminate | lia]. }
  destruct (random_randint_range a b w Hab) as (k0 & w0 & H0 & Hr).
  congruence.
Qed.

Lemma random_sample_result : forall A (population : list A) k w l w',
  random_sample population k w = (Ok l, w') ->
  Z.of_nat (List.length l) = k /\ 0 <= k <= Z.of_nat (List.length population).
Proof.
  intros A population k w l w' H.
  assert (Hk : 0 <= k <= Z.of_nat (List.length population)).
  { unfold random_sample in H.
    destruct (Z.ltb_spec k 0); [discriminate | ].
    destruct (Z.ltb_spec (Z.of_nat (List.length population)) k);
      [discriminate | lia]. }
  destruct (random_sample_length A population k w Hk) as (l0 & w0 & H0 & Hl).
  split; [congruence | exact Hk].
Qed.

(** X21. A mutation phase that completes yields at least one record and at most
    one per row of the table, each carrying its [id] as a string. *)
Theorem mutation_yields_identified_records :
  forall MAX_RETRIES RETRY_DELAY_BASE t w original_df df db_updates w',
  mutate_table MAX_RETRIES RETRY_DELAY_BASE t w
    = (Ok (original_df, df, db_updates), w') ->
  Forall has_string_id db_updates
  /\ (1 <= List.length db_updates <= List.length (df_rows original_df))%nat.
Proof.
  intros MAX_RETRIES RETRY_DELAY_BASE t w o df ups w' H.
  unfold mutate_table in H.
  apply bind_ok in H as ([] & w1 & _ & H).
  apply bind_ok in H as (odf & w2 & _ & H).
  apply bind_ok in H as (df0 & w3 & H3 & H).
  destruct odf as [f | ]; [ | discriminate].
  inversion H3; subst df0 w3. clear H3.
  apply bind_ok in H as (rows & w4 & H4 & H).
  apply bind_ok in H as ([df1 ups1] & w5 & H5 & H).
  inversion H; subst. clear H.
  apply mutate_rows_frame in H5 as (_ & _ & _ & _ & recs & Hups & Hlen & Hall).
  cbn [app] in Hups. subst ups.
  split; [exact Hall | ].
  unfold choose_rows in H4.
  apply bind_ok in H4 as (k & w6 & Hk & Hs).
  apply random_sample_result in Hs as (Hl & Hr).
  rewrite length_seq in Hr.
  unfold choose_count in Hk.
  apply bind_ok in Hk as (lo & w7 & _ & Hk).
  apply bind_ok in Hk as (hi & w8 & _ & Hk).
  apply random_randint_result in Hk.
  lia.
Qed.

Lemma mutation_yields_identified_records_witness :
  Forall has_string_id [traffic_record]
  /\ (1 <= List.length [traffic_record] <= List.length (df_rows traffic_df))%nat.
Proof.
  apply (mutation_yields_identified_records 5 2 "traffic_sensors" traffic_world
           traffic_df traffic_df_mutated [traffic_record]
           (snd (mutate_table 5 2 "traffic_sensors" traffic_world))).
  vm_compute. reflexivity.
Defined.

(** ** The statement of a record *)

(** X22. The statement built for a record binds [id] to the identifier text,
    [timestamp] to the instant of the write, and every other key of the
    record to the value the record holds. *)
Theorem statement_binds_every_parameter :
  forall (table_name : string) (record : dict pyval) (record_id timestamp : string),
  NoDup (map fst record) ->
  let s := build_update table_name record record_id timestamp in
  dict_get "id" (stmt_params s) = Some (PVal (VStr record_id))
  /\ dict_get "timestamp" (stmt_params s) = Some (PDatetime timestamp)
  /\ forall k v, k <> "id" -> k <> "timestamp" ->
       dict_get k record = Some v ->
       dict_get k (stmt_params s) = Some (PVal v).
Proof.
  intros t record id ts Hnd s. subst s. unfold build_update. cbn [stmt_params].
  split; [apply dict_get_set_eq | ].
  split.
  - rewrite dict_get_set_other by discriminate. apply dict_get_set_eq.
  - intros k v Hid Hts Hk.
    rewrite !dict_get_set_other by assumption.
    rewrite bound_values by now apply NoDup_filter_keys.
    rewrite dict_get_filter_other by assumption. now rewrite Hk.
Qed.

Lemma statement_binds_every_parameter_witness :
  let s := build_update "parking_sensors" parking_record "p1"
             "2024-01-01T12:00:00Z" in
  dict_get "id" (stmt_params s) = Some (PVal (VStr "p1"))
  /\ dict_get "timestamp" (stmt_params s)
     = Some (PDatetime "2024-01-01T12:00:00Z")
  /\ forall k v, k <> "id" -> k <> "timestamp" ->
       dict_get k parking_record = Some v ->
       dict_get k (stmt_params s) = Some (PVal v).
Proof.
  apply (statement_binds_every_parameter "parking_sensors" parking_record "p1"
           "2024-01-01T12:00:00Z").
  repeat constructor; simpl; intuition discriminate.
Defined.

(** ** Publishing *)

(** X23. [publish_to_mqtt] never raises: it returns [True] exactly when a
    client is configured and the broker call goes through; it leaves the
    counters, the files and the database alone, and without a client nothing
    is sent. *)
Theorem publish_outcome : forall (device_type : string) (record : dict pyval) w,
  exists w',
    publish_to_mqtt device_type record w
    = (Ok (mqtt_client w && next_attempt_succeeds (w_faults w)), w')
    /\ stats w' = stats w
    /\ w_files w' = w_files w
    /\ w_durable w' = w_durable w
    /\ (mqtt_client w = false ->
        w_trace w' = (w_trace w ++ [EvPublishToMqtt device_type record])%list).
Proof.
  intros t r w. unfold publish_to_mqtt.
  unfold bind at 1. unfold emit, modify. unfold bind at 1. unfold get.
  cbn [mqtt_client set_w_trace].
  destruct (mqtt_client w); cbn [negb andb].
  2:{ unfold ret. eexists. split; [reflexivity | ]. repeat split. }
  unfold bind at 1.
  assert (Hid : exists id,
            match dict_get "id" r with
            | Some v => py_str v
            | None => ret "unknown"
            end (set_w_trace (w_trace w ++ [EvPublishToMqtt t r]) w)
            = (Ok id, set_w_trace (w_trace w ++ [EvPublishToMqtt t r]) w)).
  { destruct (dict_get "id" r) as [v | ]; [apply py_str_pure | ].
    exists "unknown". reflexivity. }
  destruct Hid as (id & ->).
  unfold try_except, bind, emit, modify, ret, attempt.
  cbn [w_faults set_w_trace].
  destruct (w_faults w) as [ | [e | ] fs]; cbn;
    eexists; (split; [reflexivity | ]); repeat split; discriminate.
Qed.

(** ** Selections are without repetition *)

Lemma NoDup_reindex : forall A (l l' : list A) (phi : nat -> nat),
  NoDup l ->
  (forall i, (i < List.length l')%nat -> nth_error l' i = nth_error l (phi i)) ->
  (forall i1 i2, (i1 < List.length l')%nat -> (i2 < List.length l')%nat ->
                 phi i1 = phi i2 -> i1 = i2) ->
  NoDup l'.
Proof.
  intros A l l' phi Hnd Hre Hinj. apply NoDup_nth_error. intros i1 i2 H1 Heq.
  assert (H2 : (i2 < List.length l')%nat).
  { apply nth_error_Some. rewrite <- Heq. now apply nth_error_Some. }
  apply Hinj; try assumption.
  rewrite (Hre i1 H1), (Hre i2 H2) in Heq.
  rewrite NoDup_nth_error in Hnd. apply Hnd; [ | exact Heq].
  apply nth_error_Some. rewrite <- (Hre i1 H1). now apply nth_error_Some.
Qed.

Lemma nth_error_removelast : forall A (l : list A) i,
  (i < List.length l - 1)%nat -> nth_error (removelast l) i = nth_error l i.
Proof.
  intros A l. induction l as [ | a l IH]; intros i Hi; [simpl in Hi; lia | ].
  destruct l as [ | b l]; [simpl in Hi; lia | ].
  change (removelast (a :: b :: l)) with (a :: removelast (b :: l)).
  destruct i as [ | i]; [reflexivity | ].
  cbn [nth_error]. apply IH. simpl in *. lia.
Qed.

Lemma nth_error_set_nth_const : forall A (x : A) j (l : list A) i,
  nth_error (set_nth j (fun _ => x) l) i
  = if Nat.eqb i j then option_map (fun _ => x) (nth_error l i)
    else nth_error l i.
Proof.
  intros A x j l i. destruct (Nat.eqb_spec i j) as [-> | Hij].
  - apply nth_error_set_nth.
  - now apply nth_error_set_nth_other.
Qed.

Lemma sample_step : forall A (pool : list A) j x last,
  NoDup pool ->
  nth_error pool j = Some x ->
  nth_error pool (List.length pool - 1) = Some last ->
  let pool' := removelast (set_nth j (fun _ => last) pool) in
  NoDup pool' /\ incl pool' pool /\ ~ In x pool'.
Proof.
  intros A pool j x last Hnd Hx Hlast pool'.
  set (n := List.length pool) in *.
  assert (Hj : (j < n)%nat) by (apply nth_error_Some; congruence).
  assert (Hlen : List.length pool' = (n - 1)%nat).
  { subst pool'. now rewrite removelast_length, set_nth_length. }
  set (phi := fun i => if Nat.eqb i j then (n - 1)%nat else i).
  assert (Hre : forall i, (i < List.length pool')%nat ->
                  nth_error pool' i = nth_error pool (phi i)).
  { intros i Hi. rewrite Hlen in Hi. subst pool'.
    rewrite nth_error_removelast by (rewrite set_nth_length; exact Hi).
    rewrite nth_error_set_nth_const. unfold phi.
    destruct (Nat.eqb_spec i j) as [-> | Hij]; [ | reflexivity].
    rewrite Hx, Hlast. reflexivity. }
  assert (Hphi : forall i, (i < n - 1)%nat -> phi i <> j).
  { intros i Hi. unfold phi. destruct (Nat.eqb_spec i j); lia. }
  split; [ | split].
  - apply (NoDup_reindex A pool pool' phi Hnd Hre).
    intros i1 i2 H1 H2. rewrite Hlen in H1, H2. unfold phi.
    destruct (Nat.eqb_spec i1 j), (Nat.eqb_spec i2 j); lia.
  - intros y Hy. apply In_nth_error in Hy as (i & Hi).
    assert (Hil : (i < List.length pool')%nat)
      by (apply nth_error_Some; congruence).
    rewrite (Hre i Hil) in Hi. eapply nth_error_In; exact Hi.
  - intro Hin. apply In_nth_error in Hin as (i & Hi).
    assert (Hil : (i < List.length pool')%nat)
      by (apply nth_error_Some; congruence).
    rewrite (Hre i Hil) in Hi. rewrite <- Hx in Hi.
    rewrite NoDup_nth_error in Hnd. apply Hnd in Hi.
    + rewrite Hlen in Hil. now apply (Hphi i Hil).
    + apply nth_error_Some. rewrite Hi, Hx. discriminate.
Qed.

Lemma sample_loop_distinct : forall A k (pool : list A) w l w',
  NoDup pool ->
  sample_loop k pool w = (Ok l, w') ->
  NoDup l /\ incl l pool.
Proof.
  intros A k. induction k as [ | k IH]; intros pool w l w' Hnd H.
  - cbn in H. inversion H; subst. split; [constructor | intros y []].
  - cbn [sample_loop] in H.
    apply bind_ok in H as (j & w1 & _ & H).
    destruct (nth_error pool (Z.to_nat j)) as [x | ] eqn:Ex.
    2:{ inversion H; subst. split; [constructor | intros y []]. }
    destruct (nth_error pool (List.length pool - 1)) as [last | ] eqn:El.
    2:{ inversion H; subst. split; [constructor | intros y []]. }
    apply bind_ok in H as (rest & w2 & Hrest & H).
    inversion H; subst. clear H.
    destruct (sample_step A pool (Z.to_nat j) x last Hnd Ex El)
      as (Hnd' & Hincl & Hnotin).
    apply IH in Hrest as (Hr1 & Hr2); [ | exact Hnd'].
    split.
    + constructor; [ | exact Hr1]. intro Hin. apply Hnotin. now apply Hr2.
    + intros y [<- | Hy].
      * eapply nth_error_In; exact Ex.
      * apply Hincl. now apply Hr2.
Qed.

Lemma random_sample_distinct : forall A (population : list A) k w l w',
  NoDup population ->
  random_sample population k w = (Ok l, w') ->
  NoDup l /\ incl l population.
Proof.
  intros A population k w l w' Hnd H. unfold random_sample in H.
  destruct ((k <? 0) || (Z.of_nat (List.length population) <? k));
    [discriminate | ].
  eapply sample_loop_distinct; eassumption.
Qed.

Lemma swap_distinct : forall A i j (l : list A),
  NoDup l -> NoDup (swap i j l) /\ incl (swap i j l) l.
Proof.
  intros A i j l Hnd. unfold swap.
  destruct (nth_error l i) as [a | ] eqn:Ea; [ | split; [exact Hnd | apply incl_refl]].
  destruct (nth_error l j) as [b | ] eqn:Eb; [ | split; [exact Hnd | apply incl_refl]].
  set (l' := set_nth i (fun _ => b) (set_nth j (fun _ => a) l)).
  assert (Hlen : List.length l' = List.length l)
    by (subst l'; now rewrite !set_nth_length).
  set (phi := fun k => if Nat.eqb k i then j else if Nat.eqb k j then i else k).
  assert (Hre : forall k, (k < List.length l')%nat ->
                  nth_error l' k = nth_error l (phi k)).
  { intros k Hk. subst l'. rewrite !nth_error_set_nth_const. unfold phi.
    destruct (Nat.eqb_spec k i) as [-> | Hki].
    - destruct (Nat.eqb_spec i j) as [-> | Hij].
      + rewrite Ea. cbn. congruence.
      + rewrite Ea, Eb. reflexivity.
    - destruct (Nat.eqb_spec k j) as [-> | Hkj]; [ | reflexivity].
      rewrite Eb, Ea. reflexivity. }
  split.
  - apply (NoDup_reindex A l l' phi Hnd Hre).
    intros k1 k2 _ _. unfold phi.
    destruct (Nat.eqb_spec k1 i), (Nat.eqb_spec k1 j),
      (Nat.eqb_spec k2 i), (Nat.eqb_spec k2 j); lia.
  - intros y Hy. apply In_nth_error in Hy as (k & Hk).
    assert (Hkl : (k < List.length l')%nat)
      by (apply nth_error_Some; congruence).
    rewrite (Hre k Hkl) in Hk. eapply nth_error_In; exact Hk.
Qed.

Lemma shuffle_loop_distinct : forall A i (l : list A) w l' w',
  NoDup l ->
  shuffle_loop i l w = (Ok l', w') ->
  NoDup l' /\ incl l' l.
Proof.
  intros A i. induction i as [ | i IH]; intros l w l' w' Hnd H.
  - cbn in H. inversion H; subst. split; [exact Hnd | apply incl_refl].
  - cbn [shuffle_loop] in H.
    apply bind_ok in H as (j & w1 & _ & H).
    destruct (swap_distinct A (S i) (Z.to_nat j) l Hnd) as (Hs1 & Hs2).
    apply IH in H as (H1 & H2); [ | exact Hs1].
    split; [exact H1 | ]. intros y Hy. apply Hs2. now apply H2.
Qed.

(** X24. No row is selected twice in a pass, every selected position lies in
    the table, and no table is selected twice in a cycle, each being a file
    of the data directory or the configured file. *)
Theorem selections_do_not_repeat :
  (forall (num_rows : nat) w rows w',
     choose_rows num_rows w = (Ok rows, w') ->
     NoDup rows /\ Forall (fun idx => (idx < num_rows)%nat) rows)
  /\ (forall CSV_FILE_PATH w files w',
        NoDup (map fst (w_files w)) ->
        choose_files CSV_FILE_PATH w = (Ok files, w') ->
        NoDup files
        /\ (forall t, In t files ->
              In t (map fst (w_files w)) \/ CSV_FILE_PATH = Some t)).
Proof.
  split.
  - intros n w rows w' H. unfold choose_rows in H.
    apply bind_ok in H as (k & w1 & _ & H).
    apply random_sample_distinct in H as (H1 & H2); [ | apply seq_NoDup].
    split; [exact H1 | ]. apply Forall_forall. intros i Hi.
    apply H2 in Hi. apply in_seq in Hi. lia.
  - intros path w files w' Hnd H. unfold choose_files in H.
    apply bind_ok in H as (csv_files & w1 & H1 & H).
    assert (Hc : NoDup csv_files
                 /\ forall t, In t csv_files ->
                      In t (map fst (w_files w)) \/ path = Some t).
    { unfold get_csv_files in H1. destruct path as [p | ].
      - destruct (String.eqb p "").
        + unfold bind, get, ret in H1. inversion H1; subst. auto.
        + unfold ret in H1. inversion H1; subst.
          split; [repeat constructor; intros [] | ].
          intros t [<- | []]. now right.
      - unfold bind, get, ret in H1. inversion H1; subst. auto. }
    destruct Hc as (Hc1 & Hc2).
    apply bind_ok in H as (shuffled & w2 & H2 & H).
    apply shuffle_loop_distinct in H2 as (Hs1 & Hs2); [ | exact Hc1].
    apply bind_ok in H as (k & w3 & _ & H).
    apply random_sample_distinct in H as (Hf1 & Hf2); [ | exact Hs1].
    split; [exact Hf1 | ]. intros t Ht. apply Hc2, Hs2, Hf2, Ht.
Qed.

(** ** Tables and rows across cycles *)

(** X25. When the text of a table reads back with its protected cells and
    no failed write leaves a file partly written, then whatever the number of
    cycles the table files stay the same files in the same order, each with
    the number of rows it had. *)
Theorem cycles_keep_table_shapes :
  forall MAX_RETRIES RETRY_DELAY_BASE CSV_FILE_PATH n w,
  whole_files w ->
  let w' := run_cycles MAX_RETRIES RETRY_DELAY_BASE CSV_FILE_PATH n w in
  map fst (w_files w') = map fst (w_files w)
  /\ map (fun kv => List.length (df_rows (snd kv))) (w_files w')
     = map (fun kv => List.length (df_rows (snd kv))) (w_files w).
Proof.
  intros MAX_RETRIES RETRY_DELAY_BASE CSV_FILE_PATH n w Hw w'.
  pose proof (run_cycles_view MAX_RETRIES RETRY_DELAY_BASE CSV_FILE_PATH n w Hw)
    as H.
  fold w' in H. unfold files_view in H. split.
  - apply (f_equal (map fst)) in H. rewrite !map_map in H. exact H.
  - apply (f_equal (map (fun p : string * list (list (option pyval)) =>
                           List.length (snd p)))) in H.
    rewrite !map_map in H. cbn [snd] in H. unfold protected_view in H.
    erewrite map_ext in H; [ | intro; apply length_map].
    symmetry in H.
    erewrite map_ext in H; [ | intro; apply length_map].
    symmetry. exact H.
Qed.

Lemma cycles_keep_table_shapes_witness :
  whole_files traffic_world
  /\ map fst (w_files (run_cycles 5 2 None 3 traffic_world))
     = map fst (w_files traffic_world)
  /\ map (fun kv => List.length (df_rows (snd kv)))
       (w_files (run_cycles 5 2 None 3 traffic_world))
     = map (fun kv => List.length (df_rows (snd kv))) (w_files traffic_world).
Proof.
  assert (H : whole_files traffic_world).
  { split; [intro df; reflexivity | intros e path df; reflexivity]. }
  split; [exact H | ].
  exact (cycles_keep_table_shapes 5 2 None 3%nat traffic_world H).
Defined.

(** ** The activity signal *)

Lemma ltb_irrefl : forall x : float, F64.ltb x x = false.
Proof.
  intros [s | s | | s m e]; try (destruct s; reflexivity); try reflexivity.
  unfold F64.ltb, SFltb, SFcompare.
  destruct s; rewrite Z.compare_refl, Pos.compare_cont_refl; reflexivity.
Qed.

(** X26. [record_activity] leaves the simulator awake at the recorded instant,
    and the signal it wrote is not taken for new activity by the next tick,
    since a float read back from its text is not newer than itself. *)
Theorem own_signal_is_not_new_activity :
  forall py_float py_repr now file now' st file',
  py_float (str_strip (py_repr now)) = Some now ->
  record_activity py_repr true now file = (st, file') ->
  check_for_activity_signal py_float file' now' st
  = (false, sleep_check now' st)
  /\ last_activity_time st = now
  /\ is_sleeping st = false.
Proof.
  intros py_float py_repr now file now' st file' Hrt H.
  unfold record_activity, write_signal in H. cbn in H.
  inversion H; subst. clear H. split; [ | split; reflexivity].
  unfold check_for_activity_signal.
  destruct (String.eqb (str_strip (py_repr now)) ""); [reflexivity | ].
  rewrite Hrt. cbn [last_activity_time]. now rewrite ltb_irrefl.
Qed.

Lemma own_signal_is_not_new_activity_witness :
  let now := F64.of_Z 1700000000 in
  let st := {| last_activity_time := now; is_sleeping := false |} in
  check_for_activity_signal (fun _ => Some now) (FileContent "1700000000.0")
    (F64.of_Z 1700000030) st
  = (false, sleep_check (F64.of_Z 1700000030) st)
  /\ last_activity_time st = now
  /\ is_sleeping st = false.
Proof.
  apply (own_signal_is_not_new_activity
           (fun _ => Some (F64.of_Z 1700000000)) (fun _ => "1700000000.0")
           (F64.of_Z 1700000000) FileAbsent).
  - reflexivity.
  - reflexivity.
Defined.

(** X27. A signal written by [trigger_simulator_activity] at an instant later
    than the recorded one is detected by the next tick, which records that
    instant and leaves the simulator awake. *)
Theorem trigger_wakes_the_simulator :
  forall py_float py_repr t file now st,
  py_float "" = None ->
  py_float (str_strip (py_repr t)) = Some t ->
  F64.ltb (last_activity_time st) t = true ->
  let (written, file') := trigger_simulator_activity py_repr true t file in
  written = true
  /\ check_for_activity_signal py_float file' now st
     = (true, {| last_activity_time := t; is_sleeping := false |}).
Proof.
  intros py_float py_repr t file now st Hempty Hrt Hnew.
  cbn. split; [reflexivity | ].
  destruct (String.eqb_spec (str_strip (py_repr t)) "") as [E | _].
  - rewrite E in Hrt. congruence.
  - now rewrite Hrt, Hnew.
Qed.

Lemma trigger_wakes_the_simulator_witness :
  let py_float := fun s : string =>
    if String.eqb s "" then None else Some (F64.of_Z 1700000100) in
  let py_repr := fun _ : float => "1700000100.0" in
  let (written, file') :=
    trigger_simulator_activity py_repr true (F64.of_Z 1700000100) FileAbsent in
  written = true
  /\ check_for_activity_signal py_float file' (F64.of_Z 1700000100) asleep
     = (true, {| last_activity_time := F64.of_Z 1700000100;
                 is_sleeping := false |}).
Proof.
  apply (trigger_wakes_the_simulator
           (fun s : string =>
              if String.eqb s "" then None else Some (F64.of_Z 1700000100))
           (fun _ : float => "1700000100.0")
           (F64.of_Z 1700000100) FileAbsent (F64.of_Z 1700000100) asleep).
  - reflexivity.
  - reflexivity.
  - vm_compute. reflexivity.
Defined.

(** ** Iterations of the main loop *)

Section IdleSteps.

Variable R : World -> World -> Prop.
Hypothesis R_refl : forall w, R w w.
Hypothesis R_trans : forall a b c, R a b -> R b c -> R a c.
Variable allowed : event -> Prop.
Hypothesis R_trace : forall e w, allowed e -> R w (set_w_trace (w_trace w ++ [e]) w).
Hypothesis R_rpos : forall v w, R w (set_w_rpos v w).
Hypothesis R_time : forall v w, R w (set_w_time v w).
Hypothesis R_faults : forall v w, R w (set_w_faults v w).
Hypothesis R_healthy : forall v w, R w (set_connection_healthy v w).
Hypothesis R_last : forall v w, R w (set_last_reconnect_attempt v w).
Hypothesis R_engine : forall v w, R w (set_engine v w).
Hypothesis allow_sleep : forall s, allowed (EvSleep s).
Hypothesis allow_probe : allowed EvProbe.

Variables MAX_RETRIES RETRY_DELAY_BASE : Z.
Variable py_float : string -> option float.
Variable signal_at : float -> signal_file.

Lemma respects_tick : forall st, respects R (tick py_float signal_at st).
Proof. intros st w. apply R_refl. Qed.

Lemma respects_wait_ticks : forall ticks st,
  respects R (wait_ticks py_float signal_at ticks st).
Proof.
  induction ticks as [ | i ticks IH]; intro st; cbn [wait_ticks].
  - apply respects_ret; assumption.
  - repeat (respects_step; try assumption);
      first [ apply respects_tick | apply IH
            | eapply respects_sleep; eassumption ].
Qed.

Lemma respects_idle_step :
  respects R (idle_step MAX_RETRIES RETRY_DELAY_BASE).
Proof.
  unfold idle_step.
  repeat (respects_step; try assumption);
    first [ apply respects_random_random; assumption
          | eapply respects_ensure_connected; eassumption ].
Qed.

End IdleSteps.

Lemma quiet_tick : forall py_float file now st,
  newer_signal py_float file st = false ->
  check_for_activity_signal py_float file now st = (false, sleep_check now st).
Proof.
  intros py_float file now st H.
  unfold newer_signal, signal_value in H. unfold check_for_activity_signal.
  destruct file as [ | | text]; try reflexivity.
  destruct (String.eqb (str_strip text) ""); [reflexivity | ].
  destruct (py_float (str_strip text)); [ | reflexivity].
  now rewrite H.
Qed.

Lemma sleep_check_asleep : forall now st,
  is_sleeping st = true -> sleep_check now st = st.
Proof. intros now st H. unfold sleep_check. now rewrite H. Qed.

Lemma idle_iteration : forall MAX_RETRIES RETRY_DELAY_BASE CSV_FILE_PATH
    py_float signal_at st w,
  is_sleeping st = true ->
  newer_signal py_float (signal_at (w_time w)) st = false ->
  main_iteration MAX_RETRIES RETRY_DELAY_BASE CSV_FILE_PATH py_float signal_at st w
  = (idle_step MAX_RETRIES RETRY_DELAY_BASE ;;
     wait_ticks py_float signal_at (map Z.of_nat (seq 0 30)) st) w.
Proof.
  intros MAX_RETRIES RETRY_DELAY_BASE CSV_FILE_PATH py_float signal_at st w Hs Hn.
  unfold main_iteration, tick. unfold bind at 1 2. unfold get at 1. unfold ret at 1.
  rewrite quiet_tick by exact Hn. rewrite sleep_check_asleep by exact Hs.
  rewrite Hs. reflexivity.
Qed.

(** X28. An iteration of the main loop that starts asleep and finds no newer
    signal runs no simulation cycle: the files, the database and the counters
    stay as they were, and the only effects are probes and waits. *)
Theorem sleeping_iteration_touches_no_table :
  forall MAX_RETRIES RETRY_DELAY_BASE CSV_FILE_PATH py_float signal_at st w,
  is_sleeping st = true ->
  newer_signal py_float (signal_at (w_time w)) st = false ->
  let w' := snd (main_iteration MAX_RETRIES RETRY_DELAY_BASE CSV_FILE_PATH
                   py_float signal_at st w) in
  w_files w' = w_files w
  /\ w_durable w' = w_durable w
  /\ stats w' = stats w
  /\ extends idle_event w w'.
Proof.
  intros MAX_RETRIES RETRY_DELAY_BASE CSV_FILE_PATH py_float signal_at st w Hs Hn w'.
  subst w'. rewrite idle_iteration by assumption.
  set (m := idle_step MAX_RETRIES RETRY_DELAY_BASE ;;
            wait_ticks py_float signal_at (map Z.of_nat (seq 0 30)) st).
  assert (Hm : forall R allowed,
             (forall w, R w w) ->
             (forall a b c, R a b -> R b c -> R a c) ->
             (forall e w, allowed e -> R w (set_w_trace (w_trace w ++ [e]) w)) ->
             (forall v w, R w (set_w_rpos v w)) ->
             (forall v w, R w (set_w_time v w)) ->
             (forall v w, R w (set_w_faults v w)) ->
             (forall v w, R w (set_connection_healthy v w)) ->
             (forall v w, R w (set_last_reconnect_attempt v w)) ->
             (forall v w, R w (set_engine v w)) ->
             (forall s, allowed (EvSleep s)) ->
             allowed EvProbe ->
             respects R m).
  { intros R allowed H1 H2 H3 H4 H5 H6 H7 H8 H9 H10 H11. subst m.
    apply respects_bind; [exact H2 | | intros _].
    - eapply respects_idle_step; eassumption.
    - eapply respects_wait_ticks; eassumption. }
  repeat split.
  - apply (Hm (same w_files) (fun _ => True)); intros; try reflexivity; try exact I.
    eapply same_trans; eassumption.
  - apply (Hm (same w_durable) (fun _ => True)); intros; try reflexivity; try exact I.
    eapply same_trans; eassumption.
  - apply (Hm (same stats) (fun _ => True)); intros; try reflexivity; try exact I.
    eapply same_trans; eassumption.
  - apply (Hm (extends idle_event) idle_event);
      try (intros; apply extends_same_trace; reflexivity);
      try (intros; exact I);
      first [apply extends_refl | apply extends_trans | apply extends_emit].
Qed.

Lemma sleeping_iteration_touches_no_table_witness :
  let w' := snd (main_iteration 5 2 None (fun _ => None) (fun _ => FileAbsent)
                   asleep parking_world) in
  w_files w' = w_files parking_world
  /\ w_durable w' = w_durable parking_world
  /\ stats w' = stats parking_world
  /\ extends idle_event parking_world w'.
Proof.
  apply (sleeping_iteration_touches_no_table 5 2 None (fun _ => None)
           (fun _ => FileAbsent) asleep parking_world).
  - reflexivity.
  - reflexivity.
Defined.

(** ** An empty data directory *)

Lemma choose_files_nothing : forall w,
  w_files w = [] ->
  choose_files None w
  = (Raise (ValueError "Sample larger than population or is negative"),
     set_w_rpos (S (w_rpos w)) w).
Proof.
  intros w H. unfold choose_files, get_csv_files. unfold bind at 1 2.
  unfold get at 1. rewrite H. cbn [map]. unfold ret at 1.
  unfold bind at 1. unfold random_shuffle. cbn [List.length Nat.sub shuffle_loop].
  unfold ret at 1. unfold bind at 1.
  unfold choose_count, scaled_count, float_of_int, random_randint, randbelow,
    next_word.
  cbn [List.length Z.of_nat]. unfold bind, lift, ret. cbn.
  rewrite Z.mod_1_r. reflexivity.
Qed.

(** X29. With no table file and no configured file a cycle raises
    [ValueError], one draw of the random source later, and so does the
    iteration of the main loop that runs it. *)
Theorem empty_directory_stops_the_simulator :
  forall MAX_RETRIES RETRY_DELAY_BASE py_float signal_at st w,
  w_files w = [] ->
  let tickd := check_for_activity_signal py_float (signal_at (w_time w))
                 (w_time w) st in
  let failure := ValueError "Sample larger than population or is negative" in
  run_simulation_cycle MAX_RETRIES RETRY_DELAY_BASE None w
  = (Raise failure, set_w_rpos (S (w_rpos w)) w)
  /\ (negb (is_sleeping (snd tickd)) || fst tickd = true ->
      main_iteration MAX_RETRIES RETRY_DELAY_BASE None py_float signal_at st w
      = (Raise failure, set_w_rpos (S (w_rpos w)) w)).
Proof.
  intros MAX_RETRIES RETRY_DELAY_BASE py_float signal_at st w H tickd failure.
  assert (Hc : run_simulation_cycle MAX_RETRIES RETRY_DELAY_BASE None w
               = (Raise failure, set_w_rpos (S (w_rpos w)) w)).
  { unfold run_simulation_cycle. unfold bind. now rewrite choose_files_nothing. }
  split; [exact Hc | ].
  intro Hawake. unfold main_iteration, tick.
  unfold bind at 1 2. unfold get at 1. unfold ret at 1.
  fold tickd. destruct tickd as [d st1]. cbn [fst snd] in Hawake.
  unfold bind at 1. rewrite Hawake, Hc. reflexivity.
Qed.

Lemma empty_directory_stops_the_simulator_witness :
  let w := quiet_world 0 12 [] in
  let tickd := check_for_activity_signal (fun _ => None) FileAbsent (w_time w)
                 {| last_activity_time := w_time w; is_sleeping := false |} in
  let failure := ValueError "Sample larger than population or is negative" in
  run_simulation_cycle 5 2 None w = (Raise failure, set_w_rpos (S (w_rpos w)) w)
  /\ (negb (is_sleeping (snd tickd)) || fst tickd = true ->
      main_iteration 5 2 None (fun _ => None) (fun _ => FileAbsent)
        {| last_activity_time := w_time w; is_sleeping := false |} w
      = (Raise failure, set_w_rpos (S (w_rpos w)) w)).
Proof.
  apply (empty_directory_stops_the_simulator 5 2 (fun _ => None)
           (fun _ => FileAbsent)
           {| last_activity_time := w_time (quiet_world 0 12 []);
              is_sleeping := false |}
           (quiet_world 0 12 [])).
  reflexivity.
Defined.
